(** * go-boilerplate backend: error model, validator, configuration loader,
      user repository and router, embedded in Rocq.

    Each module below follows one Go package of [apps/backend/internal].
    Integers ([int], HTTP status codes, row identifiers, timestamps) are
    modelled as [Z]; Go strings as [string]; Go maps as stdpp's [gmap];
    a Go [(T, error)] result as [result T]. *)

From Stdlib Require Import ZArith Ascii String List Sorted Permutation.
From stdpp Require Import base option list gmap strings pretty sorting.

Local Open Scope string_scope.

(** ** Package errs *)

Module errs.

(** [type AppError struct { Code string; Message string; Status int }] *)
Record AppError := mkAppError {
  Code : string;
  Message : string;
  Status : Z
}.

#[global] Instance AppError_eq_dec : EqDecision AppError.
Proof. solve_decision. Defined.

(** [func (e *AppError) Error() string] *)
Definition Error (e : AppError) : string := Message e.

(** The [net/http] status constants the package uses. *)
Definition StatusBadRequest : Z := 400.
Definition StatusUnauthorized : Z := 401.
Definition StatusForbidden : Z := 403.
Definition StatusNotFound : Z := 404.
Definition StatusConflict : Z := 409.
Definition StatusTooManyRequests : Z := 429.
Definition StatusInternalServerError : Z := 500.

(** Common error codes. *)
Definition ErrCodeValidation : string := "VALIDATION_ERROR".
Definition ErrCodeNotFound : string := "NOT_FOUND".
Definition ErrCodeUnauthorized : string := "UNAUTHORIZED".
Definition ErrCodeForbidden : string := "FORBIDDEN".
Definition ErrCodeInternal : string := "INTERNAL_ERROR".
Definition ErrCodeBadRequest : string := "BAD_REQUEST".
Definition ErrCodeConflict : string := "CONFLICT".
Definition ErrCodeTooManyRequests : string := "TOO_MANY_REQUESTS".

(** Predefined errors. *)
Definition ErrValidation : AppError :=
  {| Code := ErrCodeValidation; Message := "Validation failed";
     Status := StatusBadRequest |}.
Definition ErrNotFound : AppError :=
  {| Code := ErrCodeNotFound; Message := "Resource not found";
     Status := StatusNotFound |}.
Definition ErrUnauthorized : AppError :=
  {| Code := ErrCodeUnauthorized; Message := "Unauthorized";
     Status := StatusUnauthorized |}.
Definition ErrForbidden : AppError :=
  {| Code := ErrCodeForbidden; Message := "Forbidden";
     Status := StatusForbidden |}.
Definition ErrInternal : AppError :=
  {| Code := ErrCodeInternal; Message := "Internal server error";
     Status := StatusInternalServerError |}.
Definition ErrBadRequest : AppError :=
  {| Code := ErrCodeBadRequest; Message := "Bad request";
     Status := StatusBadRequest |}.
Definition ErrConflict : AppError :=
  {| Code := ErrCodeConflict; Message := "Resource conflict";
     Status := StatusConflict |}.
Definition ErrTooManyRequests : AppError :=
  {| Code := ErrCodeTooManyRequests; Message := "Too many requests";
     Status := StatusTooManyRequests |}.

(** [func New(code, message string, status int) *AppError] *)
Definition New (code message : string) (status : Z) : AppError :=
  {| Code := code; Message := message; Status := status |}.

(** [func NewValidation(message string) *AppError] *)
Definition NewValidation (message : string) : AppError :=
  {| Code := ErrCodeValidation; Message := message;
     Status := StatusBadRequest |}.

(** [func NewNotFound(resource string) *AppError];
    the message is [fmt.Sprintf("%s not found", resource)]. *)
Definition NewNotFound (resource : string) : AppError :=
  {| Code := ErrCodeNotFound; Message := resource ++ " not found";
     Status := StatusNotFound |}.

(** [func NewInternal(message string) *AppError] *)
Definition NewInternal (message : string) : AppError :=
  {| Code := ErrCodeInternal; Message := message;
     Status := StatusInternalServerError |}.

(** The eight predefined error values, in declaration order. *)
Definition predefined : list AppError :=
  [ErrValidation; ErrNotFound; ErrUnauthorized; ErrForbidden;
   ErrInternal; ErrBadRequest; ErrConflict; ErrTooManyRequests].

(** The errors the package builds with a code of its own choosing: the
    predefined values and the results of the three specific constructors.
    [New] is left out, its code and status being the caller's. *)
Inductive fixed_code : AppError → Prop :=
  | fixed_predefined e : e ∈ predefined → fixed_code e
  | fixed_NewValidation m : fixed_code (NewValidation m)
  | fixed_NewNotFound r : fixed_code (NewNotFound r)
  | fixed_NewInternal m : fixed_code (NewInternal m).

(** The specification's table "code -> default status", written from its
    words; the source has no such function, only the pairs above. *)
Definition spec_canonical_status (code : string) : option Z :=
  if decide (code = "VALIDATION_ERROR") then Some 400%Z
  else if decide (code = "NOT_FOUND") then Some 404%Z
  else if decide (code = "UNAUTHORIZED") then Some 401%Z
  else if decide (code = "FORBIDDEN") then Some 403%Z
  else if decide (code = "INTERNAL_ERROR") then Some 500%Z
  else if decide (code = "BAD_REQUEST") then Some 400%Z
  else if decide (code = "CONFLICT") then Some 409%Z
  else if decide (code = "TOO_MANY_REQUESTS") then Some 429%Z
  else None.

End errs.

(** ** Go's [error] values *)

(** The error values that flow through the packages below.  [wrapError] is
    what [fmt.Errorf] builds for a format ending in [%w]: its message and the
    error it wraps.  [PgError] stands for the driver's [*pgconn.PgError] with
    its SQLSTATE; [ctxError] for [context.Canceled],
    [context.DeadlineExceeded] and transport failures of a round trip;
    [encodeError] for the driver's refusal of a Go [int] that it cannot
    encode as the [int4] the first parameter of a statement is. *)
Inductive error :=
  | ErrNoRows
  | PgError (sqlstate : string) (msg : string)
  | ctxError (msg : string)
  | encodeError (arg : Z)
  | wrapError (msg : string) (err : error)
  | appError (e : errs.AppError).

#[global] Instance error_eq_dec : EqDecision error.
Proof. solve_decision. Defined.

(** [err.Error()] *)
Definition error_Error (e : error) : string :=
  match e with
  | ErrNoRows => "no rows in result set"
  | PgError code msg => "ERROR: " ++ msg ++ " (SQLSTATE " ++ code ++ ")"
  | ctxError msg => msg
  | encodeError arg =>
      "failed to encode args[0]: unable to encode " ++ pretty arg
      ++ " into binary format for int4 (OID 23): " ++ pretty arg
      ++ (if decide (0 ≤ arg)%Z
          then " is greater than maximum value for int4"
          else " is less than minimum value for int4")
  | wrapError msg _ => msg
  | appError a => errs.Error a
  end.

(** [fmt.Errorf(prefix + ": %w", err)] *)
Definition Errorf_w (prefix : string) (err : error) : error :=
  wrapError (prefix ++ ": " ++ error_Error err) err.

(** [errors.Is(err, target)]: some error of the [Unwrap] chain equals
    [target]. *)
Fixpoint errors_Is (err target : error) : bool :=
  bool_decide (err = target) ||
  match err with
  | wrapError _ inner => errors_Is inner target
  | _ => false
  end.

(** [errors.As(err, &appErr)] for [appErr *errs.AppError]: the first
    [*AppError] of the [Unwrap] chain. *)
Fixpoint errors_As_AppError (err : error) : option errs.AppError :=
  match err with
  | appError a => Some a
  | wrapError _ inner => errors_As_AppError inner
  | _ => None
  end.

(** A Go result [(T, error)] of which exactly one component is set. *)
Inductive result (A : Type) :=
  | Ok (a : A)
  | Err (e : error).
Arguments Ok {A} a.
Arguments Err {A} e.

(** ** Package libs: the struct validator *)

Module libs.

(** What [ValidateStruct] reads of a [validator.FieldError]. *)
Record FieldError := mkFieldError {
  Field : string;
  Tag : string;
  Param : string
}.

#[global] Instance FieldError_eq_dec : EqDecision FieldError.
Proof. solve_decision. Defined.

(** The three results of [validate.Struct(data)]: [nil], a
    [*validator.InvalidValidationError] (for [data] that is not a struct),
    or [validator.ValidationErrors], one entry per failing field in
    traversal order, never empty. *)
Inductive StructResult :=
  | StructValid
  | InvalidValidationError
  | ValidationErrors (errs : list FieldError).

(** The field errors reported for the data. *)
Definition field_errors (r : StructResult) : list FieldError :=
  match r with
  | ValidationErrors errs => errs
  | _ => []
  end.

(** [func getErrorMessage(err validator.FieldError) string] *)
Definition getErrorMessage (err : FieldError) : string :=
  if decide (Tag err = "required") then
    Field err ++ " is required"
  else if decide (Tag err = "email") then
    Field err ++ " is not a valid email"
  else if decide (Tag err = "min") then
    Field err ++ " must be at least " ++ Param err ++ " characters"
  else if decide (Tag err = "gte") then
    Field err ++ " must be " ++ Param err ++ " or greater"
  else "".

(** The tags [getErrorMessage] has a case for. *)
Definition message_tags : list string := ["required"; "email"; "min"; "gte"].

Section ValidateStruct.
(** [strings.ToLower]; and the package-level validator's [Struct] method
    on the type of data at hand. *)
Context (ToLower : string → string).
Context {A : Type} (validate_Struct : A → StructResult).

(** The loop [for _, v := range valErrs
      { errors[strings.ToLower(v.Field())] = getErrorMessage(v) }]. *)
Definition collect (valErrs : list FieldError) (errors : gmap string string)
  : gmap string string :=
  foldl (λ errors v, <[ToLower (Field v) := getErrorMessage v]> errors)
        errors valErrs.

(** [func ValidateStruct(data any) map[string]string]; [None] is the
    [nil] map. *)
Definition ValidateStruct (data : A) : option (gmap string string) :=
  let errors : gmap string string := ∅ in
  let errors :=
    match validate_Struct data with
    | ValidationErrors valErrs => collect valErrs errors
    | _ => errors
    end in
  if decide (0 < size errors)%nat then Some errors else None.
End ValidateStruct.

(** [strings.ToLower] on ASCII text. *)
Definition ascii_ToLower (c : ascii) : ascii :=
  let n := nat_of_ascii c in
  if decide (65 ≤ n ∧ n ≤ 90)%nat then ascii_of_nat (n + 32)%nat else c.

Fixpoint ToLower (s : string) : string :=
  match s with
  | EmptyString => EmptyString
  | String c s' => String (ascii_ToLower c) (ToLower s')
  end.

End libs.

(** ** The process: exits, panics and what was logged *)

(** Where a call ends: it returns to its caller, or the process exits
    ([os.Exit]), or the goroutine panics. *)
Inductive outcome (A : Type) :=
  | Returns (a : A)
  | Exits (code : Z)
  | Panics (msg : string).
Arguments Returns {A} a.
Arguments Exits {A} code.
Arguments Panics {A} msg.

(** A log line that was written: its level and message. *)
Definition LogLine : Type := string * string.

(** A computation of the process: it threads the lines written so far. *)
Definition Proc (A : Type) : Type := list LogLine → outcome A * list LogLine.

#[global] Instance Proc_ret : MRet Proc := λ A a log, (Returns a, log).
#[global] Instance Proc_bind : MBind Proc := λ A B f m log,
  match m log with
  | (Returns a, log') => f a log'
  | (Exits code, log') => (Exits code, log')
  | (Panics msg, log') => (Panics msg, log')
  end.

Definition write_log (line : LogLine) : Proc unit :=
  λ log, (Returns tt, (log ++ [line])%list).
Definition os_Exit {A} (code : Z) : Proc A := λ log, (Exits code, log).
Definition panic {A} (msg : string) : Proc A := λ log, (Panics msg, log).

(** Runs a computation from an empty log. *)
Definition run {A} (m : Proc A) : outcome A * list LogLine := m [].

(** ** zerolog's events, as [LoadConfig] uses them *)

Module zerolog.

(** A pending [*zerolog.Event]: nothing is written, and its [done] callback
    does not run, until [Msg] (or [Msgf], [Send]) is called on it. *)
Record Event := mkEvent {
  level : string;
  fields : list (string * string);
  done_exits : bool
}.

(** [logger.Fatal()] on a logger at its default level: a pending event whose
    [done] callback is [os.Exit(1)]. *)
Definition Fatal : Event :=
  {| level := "fatal"; fields := []; done_exits := true |}.

(** [e.Err(err)]: adds the field [error] unless [err] is [nil]. *)
Definition Err (err : option error) (e : Event) : Event :=
  match err with
  | Some err' =>
      {| level := level e; fields := (fields e ++ [("error", error_Error err')])%list;
         done_exits := done_exits e |}
  | None => e
  end.

(** [e.Fields(m)] for [m] a [map[string]string]: [Fields] reads a
    [map[string]interface{}] or a [[]interface{}] and adds nothing for a
    value of another type. *)
Definition Fields (m : option (gmap string string)) (e : Event) : Event := e.

(** [e.Msg(msg)]: writes the line, then runs [done]. *)
Definition Msg (msg : string) (e : Event) : Proc unit :=
  write_log (level e, msg);;
  if done_exits e then os_Exit 1 else mret tt.

End zerolog.

(** ** Package config *)

Module config.
Import libs.

Module AuthConfig.
Record t := mk { SecretKey : string }.
Definition zero : t := mk "".
End AuthConfig.

Module CoreConfig.
Record t := mk { Env : string }.
Definition zero : t := mk "".
End CoreConfig.

Module ServerConfig.
(** [CORSAllowedOrigins] is a slice: [None] is [nil]. *)
Record t := mk {
  Port : string;
  ReadTimeout : Z;
  WriteTimeout : Z;
  IdleTimeout : Z;
  CORSAllowedOrigins : option (list string)
}.
Definition zero : t := mk "" 0 0 0 None.
End ServerConfig.

Module RedisConfig.
Record t := mk { Address : string }.
Definition zero : t := mk "".
End RedisConfig.

Module DatabaseConfig.
Record t := mk {
  Host : string;
  Port : string;
  User : string;
  Password : string;
  Name : string;
  SSLMode : string;
  MaxOpenConns : string;
  MaxIdleConns : string;
  ConnMaxLifetime : string;
  ConnMaxIdletime : string
}.
Definition zero : t := mk "" "" "" "" "" "" "" "" "" "".
End DatabaseConfig.

(** [type Config struct] *)
Record Config := mkConfig {
  Auth : AuthConfig.t;
  Core : CoreConfig.t;
  Database : DatabaseConfig.t;
  Redis : RedisConfig.t;
  Server : ServerConfig.t
}.

(** [&Config{}] *)
Definition zero : Config :=
  mkConfig AuthConfig.zero CoreConfig.zero DatabaseConfig.zero
           RedisConfig.zero ServerConfig.zero.

#[global] Instance AuthConfig_eq_dec : EqDecision AuthConfig.t.
Proof. solve_decision. Defined.
#[global] Instance CoreConfig_eq_dec : EqDecision CoreConfig.t.
Proof. solve_decision. Defined.
#[global] Instance ServerConfig_eq_dec : EqDecision ServerConfig.t.
Proof. solve_decision. Defined.
#[global] Instance RedisConfig_eq_dec : EqDecision RedisConfig.t.
Proof. solve_decision. Defined.
#[global] Instance DatabaseConfig_eq_dec : EqDecision DatabaseConfig.t.
Proof. solve_decision. Defined.

(** The [validate:"required"] tag, by kind of field: a string must not be
    empty, an int not zero, a slice not [nil]; a nested struct must not be
    its zero value (the validator is built [WithRequiredStructEnabled]) and
    is then validated field by field. *)
Definition required_string (name v : string) : list FieldError :=
  if decide (v = "") then [mkFieldError name "required" ""] else [].
Definition required_int (name : string) (v : Z) : list FieldError :=
  if decide (v = 0%Z) then [mkFieldError name "required" ""] else [].
Definition required_slice {T} (name : string) (v : option (list T))
  : list FieldError :=
  match v with
  | None => [mkFieldError name "required" ""]
  | Some _ => []
  end.
Definition required_struct {T} `{EqDecision T} (name : string) (zero v : T)
    (inner : list FieldError) : list FieldError :=
  if decide (v = zero) then [mkFieldError name "required" ""] else inner.

(** The field errors of a [Config], following its tags in field order. *)
Definition Config_field_errors (c : Config) : list FieldError :=
  (required_struct "Auth" AuthConfig.zero (Auth c)
     (required_string "SecretKey" (AuthConfig.SecretKey (Auth c))) ++
   required_struct "Core" CoreConfig.zero (Core c)
     (required_string "Env" (CoreConfig.Env (Core c))) ++
   required_struct "Database" DatabaseConfig.zero (Database c)
     (required_string "Host" (DatabaseConfig.Host (Database c)) ++
      required_string "Port" (DatabaseConfig.Port (Database c)) ++
      required_string "User" (DatabaseConfig.User (Database c)) ++
      required_string "Password" (DatabaseConfig.Password (Database c)) ++
      required_string "Name" (DatabaseConfig.Name (Database c)) ++
      required_string "SSLMode" (DatabaseConfig.SSLMode (Database c)) ++
      required_string "MaxOpenConns" (DatabaseConfig.MaxOpenConns (Database c)) ++
      required_string "MaxIdleConns" (DatabaseConfig.MaxIdleConns (Database c)) ++
      required_string "ConnMaxLifetime" (DatabaseConfig.ConnMaxLifetime (Database c)) ++
      required_string "ConnMaxIdletime" (DatabaseConfig.ConnMaxIdletime (Database c))) ++
   required_struct "Redis" RedisConfig.zero (Redis c)
     (required_string "Address" (RedisConfig.Address (Redis c))) ++
   required_struct "Server" ServerConfig.zero (Server c)
     (required_string "Port" (ServerConfig.Port (Server c)) ++
      required_int "ReadTimeout" (ServerConfig.ReadTimeout (Server c)) ++
      required_int "WriteTimeout" (ServerConfig.WriteTimeout (Server c)) ++
      required_int "IdleTimeout" (ServerConfig.IdleTimeout (Server c)) ++
      required_slice "CORSAllowedOrigins"
        (ServerConfig.CORSAllowedOrigins (Server c))))%list.

(** [validate.Struct(mainConfig)] *)
Definition validate_Struct (c : Config) : StructResult :=
  match Config_field_errors c with
  | [] => StructValid
  | errs => ValidationErrors errs
  end.

(** What the process environment decides for [LoadConfig]: the result of
    [k.Load(env.Provider(...), nil)] and what [k.Unmarshal("", mainConfig)]
    makes of the [Config] it is handed, with its error. *)
Record Environ := mkEnviron {
  koanf_Load : option error;
  koanf_Unmarshal : Config → Config * option error
}.

Section LoadConfig.
(** The validator's [Struct] method on [*Config]. *)
Context (validate_Struct : Config → StructResult).

(** [func LoadConfig()] with results [*Config] and [error]; a [nil]
    pointer or error is [None]. *)
Definition LoadConfig (env : Environ)
  : Proc (option Config * option error) :=
  match koanf_Load env with
  | Some err =>
      zerolog.Msg "could not load initial env variables"
        (zerolog.Err (Some err) zerolog.Fatal)
  | None => mret tt
  end;;
  let mainConfig := zero in
  let '(mainConfig, err) := koanf_Unmarshal env mainConfig in
  match err with
  | Some err =>
      zerolog.Msg "could not unmarshal main config"
        (zerolog.Err (Some err) zerolog.Fatal)
  | None => mret tt
  end;;
  match ValidateStruct ToLower validate_Struct mainConfig with
  | Some err =>
      (* [logger.Fatal().Err(nil).Fields(err)]: the event is built and
         dropped, no [Msg] is called on it *)
      let _ := zerolog.Fields (Some err) (zerolog.Err None zerolog.Fatal) in
      mret tt
  | None => mret tt
  end;;
  mret (Some mainConfig, None).
End LoadConfig.

End config.

(** ** Package server *)

Module server.

(** [time.Duration(n) * time.Second] in 64-bit arithmetic. *)
Definition wrap64 (z : Z) : Z :=
  ((z + 2 ^ 63) mod 2 ^ 64 - 2 ^ 63)%Z.
Definition seconds (n : Z) : Z := wrap64 (wrap64 n * 1000000000).

(** The fields of the [http.Server] that [New] sets from the
    configuration. *)
Record Server := mkServer {
  Addr : string;
  ReadTimeout : Z;
  WriteTimeout : Z;
  IdleTimeout : Z
}.

(** [func New(cfg *config.Config, handler http.Handler, logger) *Server] *)
Definition New (cfg : config.Config) : Server :=
  {| Addr := ":" ++ config.ServerConfig.Port (config.Server cfg);
     ReadTimeout := seconds (config.ServerConfig.ReadTimeout (config.Server cfg));
     WriteTimeout := seconds (config.ServerConfig.WriteTimeout (config.Server cfg));
     IdleTimeout := seconds (config.ServerConfig.IdleTimeout (config.Server cfg)) |}.

End server.

(** ** Package main: the check of [LoadConfig]'s result *)

(** Which way the check [if err != nil] that [main] makes on
    [LoadConfig]'s result goes. *)
Inductive ConfigCheck :=
  | error_branch
  | config_accepted.

Definition err_check (err : option error) : ConfigCheck :=
  match err with
  | Some _ => error_branch
  | None => config_accepted
  end.

(** A process environment with no [API_] variable set: loading succeeds and
    unmarshalling leaves the configuration as it was. *)
Definition empty_environ : config.Environ :=
  {| config.koanf_Load := None;
     config.koanf_Unmarshal := λ c, (c, None) |}.

(** ** Package models *)

Module models.

(** [type User struct]; a [time.Time] read from a [TIMESTAMP] column is its
    number of microseconds since the epoch. *)
Record User := mkUser {
  ID : Z;
  Email : string;
  CreatedAt : Z;
  UpdatedAt : Z
}.

#[global] Instance User_eq_dec : EqDecision User.
Proof. solve_decision. Defined.

End models.

(** ** The [context.Context] of a call *)

Module context.

(** What a round trip made under the context comes to: [None] when it goes
    through, the error (cancellation, deadline, lost connection) when it
    does not. *)
Record Context := mk { Err : option error }.

Definition Background : Context := mk None.
Definition Canceled : Context := mk (Some (ctxError "context canceled")).

End context.

(** ** The database behind the pool: table [users] of the migration *)

Module postgres.
Import models.

(** The table [users(id SERIAL PRIMARY KEY, email VARCHAR(255) UNIQUE NOT
    NULL, created_at, updated_at)] in insertion order, the next value of
    the sequence behind [id], and the server clock that [NOW()] reads. *)
Record DB := mkDB {
  users : list User;
  users_id_seq : Z;
  now : Z
}.

(** The table after the migration, before any row is inserted. *)
Definition empty : DB := mkDB [] 1 0.

(** The largest value of a [SERIAL] column, and the smallest value of
    its type [int4]. *)
Definition int4_max : Z := 2147483647.
Definition int4_min : Z := -2147483648.

Definition ids (db : DB) : list Z := ID <$> users db.
Definition emails (db : DB) : list string := Email <$> users db.

(** What the schema guarantees of every table state: [id] is a primary
    key, [email] is unique. *)
Definition schema_ok (db : DB) : Prop :=
  NoDup (ids db) ∧ NoDup (emails db).

(** The sequence has not handed out an identifier yet that the table
    holds; true of a table filled through [INSERT] with the default [id]. *)
Definition seq_ahead (db : DB) : Prop :=
  ∀ u, u ∈ users db → (ID u < users_id_seq db)%Z.

(** The state of a table that was filled through the statements below. *)
Definition table_ok (db : DB) : Prop := schema_ok db ∧ seq_ahead db.

(** No row was written after the present time of the server clock, and no
    row was updated before it was created. *)
Definition rows_not_future (db : DB) : Prop :=
  ∀ u, u ∈ users db →
       (CreatedAt u ≤ UpdatedAt u)%Z ∧ (UpdatedAt u ≤ now db)%Z.

(** Time passes: the server clock moves on by [d] microseconds. *)
Definition tick (d : Z) (db : DB) : DB :=
  {| users := users db; users_id_seq := users_id_seq db;
     now := (now db + d)%Z |}.

(** The server clock has moved on since the rows were last written. *)
Definition clock_ahead (db : DB) : Prop :=
  ∀ u, u ∈ users db → (UpdatedAt u < now db)%Z.

Definition too_long : error :=
  PgError "22001" "value too long for type character varying(255)".
Definition duplicate_key (constraint : string) : error :=
  PgError "23505"
    ("duplicate key value violates unique constraint " ++ constraint).
Definition sequence_exhausted : error :=
  PgError "2200H" "nextval: reached maximum value of sequence users_id_seq".

(** [INSERT INTO users (email, created_at, updated_at)
     VALUES ($1, NOW(), NOW())
     RETURNING id, email, created_at, updated_at].
    The default of [id] draws from the sequence, which keeps the value
    drawn when the statement then fails on a constraint. *)
Definition insert_user (email : string) (db : DB) : DB * result (list User) :=
  if decide (int4_max < users_id_seq db)%Z then (db, Err sequence_exhausted)
  else
    let id := users_id_seq db in
    let drawn := {| users := users db; users_id_seq := (id + 1)%Z;
                    now := now db |} in
    if decide (255 < String.length email)%nat then (drawn, Err too_long)
    else if decide (id ∈ ids db) then (drawn, Err (duplicate_key "users_pkey"))
    else if decide (email ∈ emails db) then
      (drawn, Err (duplicate_key "users_email_key"))
    else
      let row := {| ID := id; Email := email;
                    CreatedAt := now db; UpdatedAt := now db |} in
      ({| users := (users db ++ [row])%list; users_id_seq := (id + 1)%Z;
          now := now db |}, Ok [row]).

(** [SELECT id, email, created_at, updated_at FROM users WHERE id = $1] *)
Definition select_by_id (id : Z) (db : DB) : DB * result (list User) :=
  (db, Ok (filter (λ u, ID u = id) (users db))).

(** [SELECT id, email, created_at, updated_at FROM users WHERE email = $1] *)
Definition select_by_email (email : string) (db : DB)
  : DB * result (list User) :=
  (db, Ok (filter (λ u, Email u = email) (users db))).

(** The row [SET email = $2, updated_at = NOW()] makes of a row. *)
Definition set_email (email : string) (at_ : Z) (u : User) : User :=
  {| ID := ID u; Email := email; CreatedAt := CreatedAt u; UpdatedAt := at_ |}.

(** [UPDATE users SET email = $2, updated_at = NOW() WHERE id = $1
     RETURNING id, email, created_at, updated_at].
    The constraints are checked on the rows the statement touches: none
    when no row has the identifier. *)
Definition update_user (id : Z) (email : string) (db : DB)
  : DB * result (list User) :=
  let touch (u : User) :=
    if decide (ID u = id) then set_email email (now db) u else u in
  match filter (λ u, ID u = id) (users db) with
  | [] => (db, Ok [])
  | hit =>
      if decide (255 < String.length email)%nat then (db, Err too_long)
      else if decide (Exists (λ u, ID u ≠ id ∧ Email u = email) (users db))
      then (db, Err (duplicate_key "users_email_key"))
      else ({| users := touch <$> users db; users_id_seq := users_id_seq db;
               now := now db |}, Ok (touch <$> hit))
  end.

(** [DELETE FROM users WHERE id = $1]; the result is the number of rows
    deleted (the command tag). *)
Definition delete_user (id : Z) (db : DB) : DB * result nat :=
  ({| users := filter (λ u, ID u ≠ id) (users db);
      users_id_seq := users_id_seq db; now := now db |},
   Ok (length (filter (λ u, ID u = id) (users db)))).

(** [ORDER BY created_at DESC]: a row comes before the rows created no
    later than it. *)
Definition created_desc (u v : User) : Prop := (CreatedAt v ≤ CreatedAt u)%Z.

#[global] Instance created_desc_dec u v : Decision (created_desc u v).
Proof. unfold created_desc. apply _. Defined.

#[global] Instance created_desc_total : Total created_desc.
Proof. intros u v. unfold created_desc. lia. Qed.

#[global] Instance created_desc_trans : Transitive created_desc.
Proof. intros u v w. unfold created_desc. lia. Qed.

(** Among rows created at the same time [ORDER BY created_at DESC] fixes
    no order: the server puts them as it pleases, and may do so
    differently from one query to the next.  Its preference in one query
    is a rank: of two rows created at the same time the one of lower
    rank comes first, and rows of equal rank come in the order they were
    inserted in. *)
Definition Tie : Type := User → Z.

(** The server with no preference. *)
Definition no_preference : Tie := λ _, 0%Z.

(** A row comes before the rows created earlier, and before the rows
    created at the same time that the server does not prefer to it. *)
Definition created_desc_then (tie : Tie) (u v : User) : Prop :=
  (CreatedAt v < CreatedAt u)%Z ∨
  (CreatedAt v = CreatedAt u ∧ (tie u ≤ tie v)%Z).

#[global] Instance created_desc_then_dec tie u v :
  Decision (created_desc_then tie u v).
Proof. unfold created_desc_then. apply _. Defined.

#[global] Instance created_desc_then_total tie : Total (created_desc_then tie).
Proof. intros u v. unfold created_desc_then. lia. Qed.

#[global] Instance created_desc_then_trans tie :
  Transitive (created_desc_then tie).
Proof. intros u v w. unfold created_desc_then. lia. Qed.

(** The rows in the order of [ORDER BY created_at DESC], for the
    preference the server has in this query. *)
Definition order_by_created_desc (tie : Tie) (rows : list User) : list User :=
  merge_sort (created_desc_then tie) rows.

(** What [ORDER BY created_at DESC] promises of the order in which the
    rows of a table come, whatever the server prefers: all of them, and
    none before a row created later. *)
Definition ordered_by_created_desc (rows sorted : list User) : Prop :=
  sorted ≡ₚ rows ∧ StronglySorted created_desc sorted.

(** [SELECT id, email, created_at, updated_at FROM users
     ORDER BY created_at DESC LIMIT $1 OFFSET $2], with the preference
    the server has in this query; the server evaluates the offset, then
    the limit. *)
Definition select_page (tie : Tie) (limit offset : Z) (db : DB)
  : DB * result (list User) :=
  if decide (offset < 0)%Z then
    (db, Err (PgError "2201X" "OFFSET must not be negative"))
  else if decide (limit < 0)%Z then
    (db, Err (PgError "2201W" "LIMIT must not be negative"))
  else
    (db, Ok (take (Z.to_nat limit)
               (drop (Z.to_nat offset)
                  (order_by_created_desc tie (users db))))).

(** What [Update] may change of a row: nothing of a row with another
    identifier, and neither the identifier nor the creation time of any. *)
Definition update_frame (id : Z) (u u' : User) : Prop :=
  ID u' = ID u ∧ CreatedAt u' = CreatedAt u ∧ (ID u ≠ id → u' = u).

End postgres.

(** ** The pool: [pgxpool.Pool] over the database *)

Module pgxpool.
Import postgres.

(** One round trip: the statement runs unless the context has failed. *)
Definition round_trip {A} (ctx : context.Context)
    (stmt : DB → DB * result A) (db : DB) : DB * result A :=
  match context.Err ctx with
  | Some err => (db, Err err)
  | None => stmt db
  end.

(** [row.Scan(...)] after [QueryRow]: the first row of the result, or
    [pgx.ErrNoRows] when there is none. *)
Definition Scan {A} (rows : result (list A)) : result A :=
  match rows with
  | Err err => Err err
  | Ok [] => Err ErrNoRows
  | Ok (row :: _) => Ok row
  end.

(** [db.QueryRow(ctx, query, args...).Scan(...)] *)
Definition QueryRow {A} (ctx : context.Context)
    (query : DB → DB * result (list A)) (db : DB) : DB * result A :=
  let '(db', rows) := round_trip ctx query db in (db', Scan rows).

(** [pgx.Rows]: the rows that [rows.Next()] steps through, and what
    [rows.Err()] returns after them. *)
Record Rows (A : Type) := mkRows {
  rows_read : list A;
  rows_Err : option error
}.
Arguments mkRows {A} rows_read rows_Err.
Arguments rows_read {A} r.
Arguments rows_Err {A} r.

(** [db.Query(ctx, query, args...)] for arguments the driver can encode:
    [Query] itself returns the error of a context that has failed; an
    error the server raises while it runs the statement ends the rows
    and is what [rows.Err()] returns. *)
Definition Query {A} (ctx : context.Context)
    (query : DB → DB * result (list A)) (db : DB) : DB * result (Rows A) :=
  match context.Err ctx with
  | Some err => (db, Err err)
  | None =>
      match query db with
      | (db', Ok rows) => (db', Ok (mkRows rows None))
      | (db', Err err) => (db', Ok (mkRows [] (Some err)))
      end
  end.

(** [rows.Scan(&user.ID, &user.Email, &user.CreatedAt, &user.UpdatedAt)]
    on a row the server sent: the rows of the model hold an identifier,
    an email and two timestamps, none of them [NULL], and scan into the
    four fields. *)
Definition Rows_Scan {A} (row : A) : result A := Ok row.

(** The first parameter of a statement, [$1], is compared with the column
    [id], an [int4]: the driver refuses a Go [int] outside the range of
    [int4] when it encodes the arguments, after the round trip that
    prepares the statement and before the statement runs.  An identifier
    that the table holds is a value of that column and so within the
    range; the rows of the model carry any integer, and an identifier
    found in the table is let through as the [int4] it stands for.  In a
    table written through the repository every identifier is within the
    range (lemma [history_ids_int4]), and the second condition adds
    nothing to the first. *)
Definition int4_arg {A} (id : Z) (stmt : Z → DB → DB * result A) (db : DB)
  : DB * result A :=
  if decide ((int4_min ≤ id ≤ int4_max)%Z ∨ id ∈ ids db) then stmt id db
  else (db, Err (encodeError id)).

(** [db.Exec(ctx, query, args...)] *)
Definition Exec {A} (ctx : context.Context)
    (query : DB → DB * result A) (db : DB) : DB * result A :=
  round_trip ctx query db.

End pgxpool.

(** ** Package repositories *)

Module repositories.
Import models postgres.

(** [func (r *userRepository) Create(ctx, user)], returning [*models.User] and [error] *)
Definition Create (ctx : context.Context) (user : User) (db : DB)
  : DB * result User :=
  let query := insert_user (Email user) in
  match pgxpool.QueryRow ctx query db with
  | (db', Err err) => (db', Err (Errorf_w "failed to create user" err))
  | (db', Ok createdUser) => (db', Ok createdUser)
  end.

(** [func (r *userRepository) GetByID(ctx, id)], returning [*models.User] and [error] *)
Definition GetByID (ctx : context.Context) (id : Z) (db : DB)
  : DB * result User :=
  let query := pgxpool.int4_arg id select_by_id in
  match pgxpool.QueryRow ctx query db with
  | (db', Err err) => (db', Err (Errorf_w "failed to get user by id" err))
  | (db', Ok user) => (db', Ok user)
  end.

(** [func (r *userRepository) GetByEmail(ctx, email)], returning
    [*models.User] and [error] *)
Definition GetByEmail (ctx : context.Context) (email : string) (db : DB)
  : DB * result User :=
  let query := select_by_email email in
  match pgxpool.QueryRow ctx query db with
  | (db', Err err) => (db', Err (Errorf_w "failed to get user by email" err))
  | (db', Ok user) => (db', Ok user)
  end.

(** [func (r *userRepository) Update(ctx, user)], returning [*models.User] and [error] *)
Definition Update (ctx : context.Context) (user : User) (db : DB)
  : DB * result User :=
  let query :=
    pgxpool.int4_arg (ID user) (λ id, update_user id (Email user)) in
  match pgxpool.QueryRow ctx query db with
  | (db', Err err) => (db', Err (Errorf_w "failed to update user" err))
  | (db', Ok updatedUser) => (db', Ok updatedUser)
  end.

(** [func (r *userRepository) Delete(ctx, id) error]; [None] is [nil]. *)
Definition Delete (ctx : context.Context) (id : Z) (db : DB)
  : DB * option error :=
  let query := pgxpool.int4_arg id delete_user in
  match pgxpool.Exec ctx query db with
  | (db', Err err) => (db', Some (Errorf_w "failed to delete user" err))
  | (db', Ok _) => (db', None)
  end.

(** The loop [for rows.Next() { ... }] of [List]: every row is scanned
    and appended to [users]; a scan that fails ends the loop and the
    call. *)
Fixpoint scan_users (users : list User) (rows : list User)
  : result (list User) :=
  match rows with
  | [] => Ok users
  | row :: rows =>
      match pgxpool.Rows_Scan row with
      | Err err => Err (Errorf_w "failed to scan user" err)
      | Ok user => scan_users (users ++ [user])%list rows
      end
  end.

(** [func (r *userRepository) List(ctx, limit, offset)], returning
    [[]*models.User] and [error]; [tie] is the preference the server has,
    in this query, among rows created at the same time.  The two
    arguments are encoded as [int8], which holds every Go [int]. *)
Definition List (tie : Tie) (ctx : context.Context) (limit offset : Z)
    (db : DB) : DB * result (list User) :=
  let query := select_page tie limit offset in
  match pgxpool.Query ctx query db with
  | (db', Err err) => (db', Err (Errorf_w "failed to list users" err))
  | (db', Ok rows) =>
      match scan_users [] (pgxpool.rows_read rows) with
      | Err err => (db', Err err)
      | Ok users =>
          match pgxpool.rows_Err rows with
          | Some err => (db', Err (Errorf_w "rows error" err))
          | None => (db', Ok users)
          end
      end
  end.

End repositories.

(** ** net/http: requests, responses and the pattern mux *)

Module http.

Definition slash : ascii := ascii_of_nat 47.
Definition percent : ascii := ascii_of_nat 37.
Definition space : ascii := ascii_of_nat 32.
Definition newline : string := String (ascii_of_nat 10) EmptyString.
Definition quote : string := String (ascii_of_nat 34) EmptyString.

(** [strings.Split(s, sep)] for a one-byte separator. *)
Fixpoint split (sep : ascii) (s : string) : list string :=
  match s with
  | EmptyString => [EmptyString]
  | String c s' =>
      if decide (c = sep) then EmptyString :: split sep s'
      else match split sep s' with
           | seg :: segs => String c seg :: segs
           | [] => [String c EmptyString]
           end
  end.

(** [strings.Join(segs, sep)] *)
Fixpoint join (sep : string) (segs : list string) : string :=
  match segs with
  | [] => EmptyString
  | [seg] => seg
  | seg :: segs' => seg ++ sep ++ join sep segs'
  end.

(** The last byte of a string. *)
Fixpoint last_byte (s : string) : option ascii :=
  match s with
  | EmptyString => None
  | String c EmptyString => Some c
  | String _ s' => last_byte s'
  end.

(** [path.Clean] on a rooted path: empty and [.] elements go, [..] takes
    the element before it with it and goes alone at the root. *)
Definition clean_segments (segs : list string) : list string :=
  foldl (λ stack seg,
           if decide (seg = EmptyString ∨ seg = ".") then stack
           else if decide (seg = "..") then removelast stack
           else (stack ++ [seg])%list)
        [] segs.

Definition path_Clean (p : string) : string :=
  String slash (join (String slash EmptyString) (clean_segments (split slash p))).

(** [func cleanPath(p string) string] of [net/http]: the canonical path of
    [p], keeping a trailing slash. *)
Definition cleanPath (p : string) : string :=
  match p with
  | EmptyString => String slash EmptyString
  | String c _ =>
      let p := if decide (c = slash) then p else String slash p in
      let np := path_Clean p in
      if decide (last_byte p = Some slash ∧ np ≠ String slash EmptyString)
      then np ++ String slash EmptyString
      else np
  end.

(** The value of a hexadecimal digit. *)
Definition unhex (c : ascii) : option nat :=
  let n := nat_of_ascii c in
  if decide (48 ≤ n ∧ n ≤ 57)%nat then Some (n - 48)%nat
  else if decide (97 ≤ n ∧ n ≤ 102)%nat then Some (n - 97 + 10)%nat
  else if decide (65 ≤ n ∧ n ≤ 70)%nat then Some (n - 65 + 10)%nat
  else None.

(** [url.PathUnescape]: every [%XY] becomes the byte it names; [None] is
    the error for a [%] that two hexadecimal digits do not follow. *)
Fixpoint PathUnescape (s : string) : option string :=
  match s with
  | EmptyString => Some EmptyString
  | String c rest =>
      if decide (c = percent) then
        match rest with
        | String a (String b rest') =>
            match unhex a, unhex b with
            | Some x, Some y =>
                String (ascii_of_nat (16 * x + y)) <$> PathUnescape rest'
            | _, _ => None
            end
        | _ => None
        end
      else String c <$> PathUnescape rest
  end.

(** [func pathUnescape(path string) string]: the segment as it is when it
    cannot be unescaped. *)
Definition pathUnescape (seg : string) : string :=
  default seg (PathUnescape seg).

(** The segments a path is matched by: those after its leading slash, each
    unescaped. *)
Definition segments (path : string) : list string :=
  pathUnescape <$> tail (split slash path).

(** What the mux reads of a [*http.Request]: the method, whether the
    request target is [*], whether the protocol is HTTP/1.1 or later, and
    [r.URL.EscapedPath()]. *)
Record Request := mkRequest {
  Method : string;
  RequestURI_star : bool;
  ProtoAtLeast11 : bool;
  EscapedPath : string
}.

(** What a handler leaves in the [http.ResponseWriter]. *)
Record Response := mkResponse {
  StatusCode : Z;
  Header : gmap string string;
  Body : string
}.

(** What the mux answers with: a response written by a handler, or a
    redirect toward the cleaned path.  From that path and the query of
    the request the release of [net/http] in use builds the target, which
    it escapes again, and it picks the status of the redirect, which is
    not the same in every release; neither is fixed by this repository. *)
Inductive Reply :=
  | Written (resp : Response)
  | Redirected (cleaned : string).

Definition Handler : Type := Request → Response.

(** [func Error(w ResponseWriter, error string, code int)] *)
Definition Error (h : gmap string string) (error : string) (code : Z)
  : Response :=
  {| StatusCode := code;
     Header := <["X-Content-Type-Options" := "nosniff"]>
                 (<["Content-Type" := "text/plain; charset=utf-8"]>
                    (delete "Content-Length" h));
     Body := error ++ newline |}.

(** [func NotFound(w ResponseWriter, r *Request)], the handler
    [NotFoundHandler()] returns. *)
Definition NotFound : Handler := λ _, Error ∅ "404 page not found" 404.

(** A registered pattern with a method and a literal path, such as
    [GET /health]: no host, no wildcard, no trailing slash. *)
Record pattern := mkPattern {
  pat_method : string;
  pat_path : string
}.

(** The pattern a string of the form [METHOD /path] stands for; a string
    without a space is a path for every method. *)
Definition parsePattern (s : string) : pattern :=
  match split space s with
  | [method; path] => mkPattern method path
  | _ => mkPattern EmptyString s
  end.

(** [type ServeMux]: the registered patterns with their handlers. *)
Definition ServeMux : Type := list (pattern * Handler).

(** [func NewServeMux() *ServeMux] *)
Definition NewServeMux : ServeMux := [].

(** [func (mux *ServeMux) HandleFunc(pattern string, handler)] *)
Definition HandleFunc (pat : string) (handler : Handler) (mux : ServeMux)
  : ServeMux :=
  (mux ++ [(parsePattern pat, handler)])%list.

(** The patterns of a method whose path is matched by the segments. *)
Definition matchPath (mux : ServeMux) (method : string) (segs : list string)
  : option Handler :=
  match list_find (λ ph : pattern * Handler,
                      pat_method ph.1 = method ∧
                      segments (pat_path ph.1) = segs) mux with
  | Some (_, (_, h)) => Some h
  | None => None
  end.

(** [matchMethodAndPath]: a pattern of the request's method, for [HEAD]
    else one of [GET], else one without a method. *)
Definition matchMethodAndPath (mux : ServeMux) (method path : string)
  : option Handler :=
  let segs := segments path in
  match matchPath mux method segs with
  | Some h => Some h
  | None =>
      match (if decide (method = "HEAD") then matchPath mux "GET" segs
             else None) with
      | Some h => Some h
      | None => matchPath mux EmptyString segs
      end
  end.

(** The byte-wise order of strings, by which [slices.Sorted] sorts. *)
Definition string_le (a b : string) : Prop := String.leb a b = true.

#[global] Instance string_le_dec a b : Decision (string_le a b).
Proof. unfold string_le. apply _. Defined.

(** [matchingMethods]: the methods under which the path is registered,
    [HEAD] along with [GET], sorted. *)
Definition matchingMethods (mux : ServeMux) (path : string) : list string :=
  let segs := segments path in
  let hits := filter (λ ph, segments (pat_path ph.1) = segs) mux in
  let methods :=
    flat_map (λ ph : pattern * Handler,
                if decide (pat_method ph.1 = "GET") then ["GET"; "HEAD"]
                else [pat_method ph.1]) hits in
  merge_sort string_le (remove_dups methods).

(** The handler for a path that is registered, under other methods only. *)
Definition MethodNotAllowed (allowedMethods : list string) : Handler :=
  λ _, Error {["Allow" := join ", " allowedMethods]}
             "Method Not Allowed" 405.

(** [func (mux *ServeMux) ServeHTTP(w, r)] with [findHandler]: the request
    target [*] is answered 400; the path of a request other than [CONNECT]
    is cleaned, and a request whose path was not clean is redirected to
    the clean one; a request no pattern matches gets 405 when its path is
    registered under other methods and [NotFound] otherwise. *)
Definition ServeHTTP (mux : ServeMux) (r : Request) : Reply :=
  if RequestURI_star r then
    Written {| StatusCode := 400;
               Header := if ProtoAtLeast11 r then {["Connection" := "close"]}
                         else ∅;
               Body := EmptyString |}
  else
    let escapedPath := EscapedPath r in
    let path :=
      if decide (Method r = "CONNECT") then escapedPath
      else cleanPath escapedPath in
    let n := matchMethodAndPath mux (Method r) path in
    if decide (path ≠ escapedPath) then Redirected path
    else
      match n with
      | Some h => Written (h r)
      | None =>
          match matchingMethods mux path with
          | [] => Written (NotFound r)
          | allowedMethods => Written (MethodNotAllowed allowedMethods r)
          end
      end.

End http.

(** ** Package routers *)

Module routers.

(** [type Router struct { mux *http.ServeMux; logger *zerolog.Logger }] *)
Record Router := mkRouter { mux : http.ServeMux }.

(** [func New(logger *zerolog.Logger) *Router] *)
Definition New : Router := {| mux := http.NewServeMux |}.

(** The body [{"k1":"v1","k2":"v2"}]. *)
Definition json_object2 (k1 v1 k2 v2 : string) : string :=
  "{" ++ http.quote ++ k1 ++ http.quote ++ ":" ++ http.quote ++ v1 ++ http.quote
  ++ "," ++ http.quote ++ k2 ++ http.quote ++ ":" ++ http.quote ++ v2
  ++ http.quote ++ "}".

(** [func (r *Router) healthCheckHandler(w, req)] *)
Definition healthCheckHandler : http.Handler := λ _,
  {| http.StatusCode := 200;
     http.Header := {["Content-Type" := "application/json"]};
     http.Body := json_object2 "status" "healthy" "service" "go-boilerplate" |}.

(** [func (r *Router) statusHandler(w, req)] *)
Definition statusHandler : http.Handler := λ _,
  {| http.StatusCode := 200;
     http.Header := {["Content-Type" := "application/json"]};
     http.Body := json_object2 "status" "running" "version" "1.0.0" |}.

(** [func (r *Router) SetupRoutes()] *)
Definition SetupRoutes (r : Router) : Router :=
  let mux := http.HandleFunc "GET /health" healthCheckHandler (mux r) in
  let mux := http.HandleFunc "GET /api/v1/status" statusHandler mux in
  {| mux := mux |}.

(** [func (r *Router) ServeHTTP(w, req)] *)
Definition ServeHTTP (r : Router) (req : http.Request) : http.Reply :=
  http.ServeHTTP (mux r) req.

(** The router [main] serves: [routers.New] after [SetupRoutes]. *)
Definition router : Router := SetupRoutes New.

(** A response that declares a JSON body, the way the router's own
    handlers do. *)
Definition declares_json (resp : http.Response) : Prop :=
  http.Header resp !! "Content-Type" = Some "application/json".

(** The segments of the paths [SetupRoutes] registers. *)
Definition registered (segs : list string) : Prop :=
  segs = ["health"] ∨ segs = ["api"; "v1"; "status"].

(** The request matches a registered route: its path, cleaned unless the
    method is CONNECT, is matched by a pattern of its method. *)
Definition route_matches (r : Router) (req : http.Request) : Prop :=
  is_Some (http.matchMethodAndPath (mux r) (http.Method req)
             (if decide (http.Method req = "CONNECT") then http.EscapedPath req
              else http.cleanPath (http.EscapedPath req))).

End routers.

(** ** Package config: observability *)

Module observability.

(** A [time.Duration] is its number of nanoseconds. *)
Definition Millisecond : Z := 1000000.
Definition Second : Z := 1000000000.

Definition slowQueryThreshold : Z := 100 * Millisecond.
Definition healthCheckInterval : Z := 30 * Second.
Definition healthCheckTimeout : Z := 5 * Second.

(** [type LoggingConfig struct] *)
Record LoggingConfig := mkLoggingConfig {
  Level : string;
  Format : string;
  SlowQueryThreshold : Z
}.

(** [type NewRelicConfig struct] *)
Record NewRelicConfig := mkNewRelicConfig {
  LicenseKey : string;
  AppLogForwardingEnabled : bool;
  DistributedTracingEnabled : bool;
  DebugLogging : bool
}.

(** [type HealthChecksConfig struct] *)
Record HealthChecksConfig := mkHealthChecksConfig {
  Enabled : bool;
  Interval : Z;
  Timeout : Z;
  Checks : list string
}.

(** [type ObservabilityConfig struct] *)
Record ObservabilityConfig := mkObservabilityConfig {
  ServiceName : string;
  Environment : string;
  Logging : LoggingConfig;
  NewRelic : NewRelicConfig;
  HealthChecks : HealthChecksConfig
}.

(** [func DefaultObservabilityConfig() *ObservabilityConfig] *)
Definition DefaultObservabilityConfig : ObservabilityConfig :=
  {| ServiceName := "api";
     Environment := "development";
     Logging := {| Level := "info"; Format := "json";
                   SlowQueryThreshold := slowQueryThreshold |};
     NewRelic := {| LicenseKey := EmptyString;
                    AppLogForwardingEnabled := true;
                    DistributedTracingEnabled := true;
                    DebugLogging := false |};
     HealthChecks := {| Enabled := true;
                        Interval := healthCheckInterval;
                        Timeout := healthCheckTimeout;
                        Checks := ["database"; "redis"] |} |}.

(** The error [errors.New] and [fmt.Errorf] without [%w] build: a message
    and nothing else. *)
Record errorString := mkErrorString { errorString_Error : string }.

(** The map [validLevels] of [Validate]; a key it does not hold reads
    [false]. *)
Definition validLevels : gmap string bool :=
  <["debug" := true]> (<["info" := true]> (<["warn" := true]>
    (<["error" := true]> ∅))).

(** [func (c *ObservabilityConfig) Validate() error]; [None] is [nil]. *)
Definition Validate (c : ObservabilityConfig) : option errorString :=
  if decide (ServiceName c = EmptyString) then
    Some (mkErrorString "service_name is required")
  else if negb (default false (validLevels !! Level (Logging c))) then
    Some (mkErrorString
            ("invalid logging level: " ++ Level (Logging c) ++
             " (must be one of: debug, info, warn, error)"))
  else if decide (SlowQueryThreshold (Logging c) < 0)%Z then
    Some (mkErrorString "logging slow_query_threshold must be non-negative")
  else None.

(** [func (c *ObservabilityConfig) GetLogLevel() string] *)
Definition GetLogLevel (c : ObservabilityConfig) : string :=
  if decide (Environment c = "production") then
    if decide (Level (Logging c) = EmptyString) then "info"
    else Level (Logging c)
  else if decide (Environment c = "development") then
    if decide (Level (Logging c) = EmptyString) then "debug"
    else Level (Logging c)
  else Level (Logging c).

(** [func (c *ObservabilityConfig) IsProduction() bool] *)
Definition IsProduction (c : ObservabilityConfig) : bool :=
  bool_decide (Environment c = "production").

End observability.

(** ** zerolog's levels and loggers *)

Module zerolog_level.

(** [type Level int8] with its constants. *)
Inductive Level :=
  | TraceLevel | DebugLevel | InfoLevel | WarnLevel | ErrorLevel
  | FatalLevel | PanicLevel | NoLevel | Disabled.

#[global] Instance Level_eq_dec : EqDecision Level.
Proof. solve_decision. Defined.

(** The integer of a level. *)
Definition to_Z (l : Level) : Z :=
  match l with
  | TraceLevel => -1 | DebugLevel => 0 | InfoLevel => 1 | WarnLevel => 2
  | ErrorLevel => 3 | FatalLevel => 4 | PanicLevel => 5 | NoLevel => 6
  | Disabled => 7
  end.

(** [func (l *Logger) should(lvl Level) bool] for a logger with a writer
    and no sampler, the global level being at its default [TraceLevel]:
    an event is written when its level is not below the logger's. *)
Definition should (logger_level lvl : Level) : bool :=
  bool_decide (to_Z logger_level ≤ to_Z lvl)%Z.

(** [logger.Info().Msg(msg)] on a logger of the given level. *)
Definition Info_Msg (logger_level : Level) (msg : string) : Proc unit :=
  if should logger_level InfoLevel then write_log ("info", msg) else mret tt.

(** [logger.Fatal().Err(err).Msg(msg)] on a logger of the given level:
    the line is written when the level lets it through, and the process
    exits either way ([newEvent] runs the [done] of an event it
    discards). *)
Definition Fatal_Msg {A} (logger_level : Level) (msg : string) : Proc A :=
  (if should logger_level FatalLevel then write_log ("fatal", msg)
   else mret tt);;
  os_Exit 1.

End zerolog_level.

(** ** Package logger *)

Module logger.
Import observability zerolog_level.

(** The writer a logger is built on. *)
Inductive Writer :=
  | Stdout
  | ConsoleWriter (TimeFormat : string).

(** What [NewLoggerWithService] and [NewPgxLogger] fix of the
    [zerolog.Logger] they build: its level, its writer, the fields of its
    context, whether it stamps the time and whether it records stacks. *)
Record Logger := mkLogger {
  GetLevel : Level;
  writer : Writer;
  context_fields : list (string * string);
  timestamp : bool;
  stack : bool
}.

(** The switch of [NewLoggerWithService] from the name of a level to the
    level. *)
Definition logLevel_of (level : string) : Level :=
  if decide (level = "debug") then DebugLevel
  else if decide (level = "info") then InfoLevel
  else if decide (level = "warn") then WarnLevel
  else if decide (level = "error") then ErrorLevel
  else InfoLevel.

(** [func NewLoggerWithService(cfg, loggerService) zerolog.Logger]; the
    logger service is not read (the code that read it is commented out).
    The two assignments to zerolog's globals, [TimeFieldFormat] and
    [ErrorStackMarshaler], are outside the logger returned. *)
Definition NewLoggerWithService (cfg : ObservabilityConfig) : Logger :=
  let logLevel := logLevel_of (GetLogLevel cfg) in
  let writer :=
    if IsProduction cfg && bool_decide (Format (Logging cfg) = "json")
    then Stdout
    else ConsoleWriter "2006-01-02 15:04:05" in
  let logger :=
    {| GetLevel := logLevel; writer := writer;
       context_fields := [("service", ServiceName cfg);
                          ("environment", Environment cfg)];
       timestamp := true; stack := false |} in
  if negb (IsProduction cfg) then
    {| GetLevel := GetLevel logger; writer := writer;
       context_fields := context_fields logger;
       timestamp := timestamp logger; stack := true |}
  else logger.

(** The case [string] of the [FormatFieldValue] that [NewPgxLogger] gives
    its console writer: a string of more than 200 bytes is cut after 200
    and followed by three dots. *)
Definition FormatFieldValue_string (v : string) : string :=
  if decide (200 < String.length v)%nat then String.substring 0 200 v ++ "..."
  else v.

(** [func NewPgxLogger(level zerolog.Level) zerolog.Logger] *)
Definition NewPgxLogger (level : Level) : Logger :=
  {| GetLevel := level;
     writer := ConsoleWriter "2006-01-02 15:04:05";
     context_fields := [("component", "database")];
     timestamp := true; stack := false |}.

(** [func GetPgxTraceLogLevel(level zerolog.Level) int] *)
Definition GetPgxTraceLogLevel (level : Level) : Z :=
  match level with
  | DebugLevel => 6
  | InfoLevel => 4
  | WarnLevel => 3
  | ErrorLevel => 2
  | _ => 0
  end.

(** What [newrelic.NewApplication] is given. *)
Inductive ConfigOption :=
  | ConfigAppName (name : string)
  | ConfigLicense (key : string)
  | ConfigAppLogForwardingEnabled (enabled : bool)
  | ConfigDistributedTracerEnabled (enabled : bool)
  | ConfigDebugLogger.

(** [log.Println] and [log.Printf] of the standard library: the line,
    without its final newline. *)
Definition log_Print (msg : string) : Proc unit := write_log ("log", msg).

Section LoggerService.
(** The applications of New Relic, and [newrelic.NewApplication]: the
    application (or [nil]) and the error (or [nil]) it returns. *)
Context {Application : Type}.
Context (NewApplication : list ConfigOption → option Application * option error).

(** [type LoggerService struct { nrApp *newrelic.Application }] *)
Record LoggerService := mkLoggerService { nrApp : option Application }.

(** The panic of the Go runtime when a [nil] pointer is dereferenced. *)
Definition nil_dereference : string :=
  "runtime error: invalid memory address or nil pointer dereference".

(** [func NewLoggerService(cfg *config.ObservabilityConfig) *LoggerService];
    [cfg] is a pointer, [None] when it is [nil]: the first statement that
    reads it, [cfg.NewRelic.LicenseKey], dereferences it unchecked. *)
Definition NewLoggerService (cfg : option ObservabilityConfig)
  : Proc LoggerService :=
  let svc := {| nrApp := None |} in
  match cfg with
  | None => panic nil_dereference
  | Some cfg =>
      if decide (LicenseKey (NewRelic cfg) = EmptyString) then
        log_Print "New Relic license key not provided, skipping initialization";;
        mret svc
      else
        let configOpts :=
          [ConfigAppName (ServiceName cfg);
           ConfigLicense (LicenseKey (NewRelic cfg));
           ConfigAppLogForwardingEnabled
             (AppLogForwardingEnabled (NewRelic cfg));
           ConfigDistributedTracerEnabled
             (DistributedTracingEnabled (NewRelic cfg))] in
        let configOpts :=
          if DebugLogging (NewRelic cfg)
          then (configOpts ++ [ConfigDebugLogger])%list
          else configOpts in
        let '(app, err) := NewApplication configOpts in
        match err with
        | Some err =>
            log_Print ("Failed to initialized New Relic:  " ++ error_Error err)
        | None => mret tt
        end;;
        let svc := {| nrApp := app |} in
        log_Print ("New Relic initialized for app: " ++ ServiceName cfg);;
        mret svc
  end.

(** [func (ls *LoggerService) GetApplication() *newrelic.Application] *)
Definition GetApplication (ls : LoggerService) : option Application :=
  nrApp ls.

(** [func (ls *LoggerService) Shutdown()]: the applications it shuts down,
    each with the timeout it is given, in nanoseconds. *)
Definition Shutdown (ls : LoggerService) : list (Application * Z) :=
  match nrApp ls with
  | Some app => [(app, 10 * Second)%Z]
  | None => []
  end.
End LoggerService.

End logger.

(** ** net/url and net: what [database.New] builds its DSN with *)

Module url.

(** The hexadecimal digit, in upper case, of a number below 16. *)
Definition upperhex (n : nat) : ascii :=
  default "0"%char (String.get n "0123456789ABCDEF").

(** The unreserved bytes of [shouldEscape]: letters, digits and
    [-], [_], [.], [~]; in the mode of a query component every other byte
    is escaped. *)
Definition unreserved (c : ascii) : bool :=
  let n := nat_of_ascii c in
  bool_decide ((97 ≤ n ∧ n ≤ 122) ∨ (65 ≤ n ∧ n ≤ 90) ∨ (48 ≤ n ∧ n ≤ 57) ∨
               n = 45 ∨ n = 95 ∨ n = 46 ∨ n = 126)%nat.

(** What [escape] writes for one byte in the mode of a query component: a
    plus sign for a space, the byte itself when it is unreserved, and
    [%XY] with its two hexadecimal digits otherwise. *)
Definition escape_byte (c : ascii) : string :=
  let n := nat_of_ascii c in
  if decide (n = 32)%nat then "+"
  else if unreserved c then String c EmptyString
  else String http.percent
         (String (upperhex (n / 16)) (String (upperhex (n mod 16)) EmptyString)).

(** [func QueryEscape(s string) string] *)
Fixpoint QueryEscape (s : string) : string :=
  match s with
  | EmptyString => EmptyString
  | String c s' => escape_byte c ++ QueryEscape s'
  end.

(** The string with a plus sign for every space. *)
Fixpoint spaces_to_plus (s : string) : string :=
  match s with
  | EmptyString => EmptyString
  | String c s' =>
      String (if decide (c = " "%char) then "+"%char else c) (spaces_to_plus s')
  end.

(** [func JoinHostPort(host, port string) string] of package [net]: a
    host with a colon in it is put in brackets. *)
Definition JoinHostPort (host port : string) : string :=
  if decide (":"%char ∈ list_ascii_of_string host) then
    "[" ++ host ++ "]:" ++ port
  else host ++ ":" ++ port.

End url.

(** ** Package database *)

Module database.
Import zerolog_level.

(** [const DatabasePingTimeout = 10] *)
Definition DatabasePingTimeout : Z := 10.

(** The query tracers [New] installs: the New Relic tracer, a
    [tracelog.TraceLog] with its logger and its level, and the
    [multiTracer] of the package with the tracers it chains. *)
Inductive Tracer :=
  | nrpgx5_Tracer
  | TraceLog (Logger : logger.Logger) (LogLevel : Z)
  | multiTracer (tracers : list Tracer).

(** What [New] sets of a [pgxpool.Config]: the connection string it was
    parsed from and [ConnConfig.Tracer]. *)
Record PoolConfig := mkPoolConfig {
  ConnString : string;
  ConnConfig_Tracer : option Tracer
}.

(** [type Database struct { Pool *pgxpool.Pool; log *zerolog.Logger }];
    the pool is known by its configuration. *)
Record Database := mkDatabase {
  Pool : PoolConfig;
  log : logger.Logger
}.

(** What the outside decides for [New]: the errors of
    [pgxpool.ParseConfig], [pgxpool.NewWithConfig] and [pool.Ping], and
    the lines the driver writes while it creates the pool and while it
    pings, through the tracer the configuration carries (a
    [tracelog.TraceLog] logs the connections it traces). *)
Record Environ := mkEnviron {
  ParseConfig : string → option error;
  NewWithConfig : PoolConfig → option error;
  NewWithConfig_lines : PoolConfig → list LogLine;
  Ping : PoolConfig → option error;
  Ping_lines : PoolConfig → list LogLine
}.

(** What [New] and [Close] leave behind: the lines logged and whether the
    pool that was created is open. *)
Record World := mkWorld {
  lines : list LogLine;
  pool_open : bool
}.

(** [logger.Info().Msg(msg)] in a world. *)
Definition Info_Msg (l : logger.Logger) (msg : string) (w : World) : World :=
  if should (logger.GetLevel l) InfoLevel
  then {| lines := (lines w ++ [("info", msg)])%list; pool_open := pool_open w |}
  else w.

(** The driver writes its lines through the tracer of the configuration;
    without a tracer it has nothing to write with. *)
Definition traced (driver_lines : PoolConfig → list LogLine)
    (cfg : PoolConfig) (w : World) : World :=
  match ConnConfig_Tracer cfg with
  | Some _ => {| lines := (lines w ++ driver_lines cfg)%list;
                 pool_open := pool_open w |}
  | None => w
  end.

(** The DSN of [New]:
    [fmt.Sprintf("postgres://%s:%s@%s/%s?sslmode=%s", ...)]. *)
Definition dsn_of (cfg : config.Config) : string :=
  let db := config.Database cfg in
  let hostPort := url.JoinHostPort (config.DatabaseConfig.Host db)
                    (config.DatabaseConfig.Port db) in
  let encodedPassword := url.QueryEscape (config.DatabaseConfig.Password db) in
  "postgres://" ++ config.DatabaseConfig.User db ++ ":" ++ encodedPassword
  ++ "@" ++ hostPort ++ "/" ++ config.DatabaseConfig.Name db
  ++ "?sslmode=" ++ config.DatabaseConfig.SSLMode db.

Section New.
Context {Application : Type}.
Context (env : Environ).

(** [func New(cfg, logger, loggerService)], returning [*Database] and
    [error]; [loggerService] may be [nil]. *)
Definition New (cfg : config.Config) (logger : logger.Logger)
    (loggerService : option (logger.LoggerService (Application := Application)))
    (w : World) : result Database * World :=
  let dsn := dsn_of cfg in
  match ParseConfig env dsn with
  | Some err => (Err (Errorf_w "failed to parse pgx pool config" err), w)
  | None =>
      let pgxPoolConfig := {| ConnString := dsn; ConnConfig_Tracer := None |} in
      let pgxPoolConfig :=
        match loggerService with
        | Some ls =>
            match logger.GetApplication ls with
            | Some _ => {| ConnString := dsn;
                           ConnConfig_Tracer := Some nrpgx5_Tracer |}
            | None => pgxPoolConfig
            end
        | None => pgxPoolConfig
        end in
      let pgxPoolConfig :=
        if decide (config.CoreConfig.Env (config.Core cfg) = "local") then
          let globalLevel := logger.GetLevel logger in
          let pgxLogger := logger.NewPgxLogger globalLevel in
          let localTracer :=
            TraceLog pgxLogger (logger.GetPgxTraceLogLevel globalLevel) in
          match ConnConfig_Tracer pgxPoolConfig with
          | Some tracer =>
              {| ConnString := dsn;
                 ConnConfig_Tracer := Some (multiTracer [tracer; localTracer]) |}
          | None =>
              {| ConnString := dsn; ConnConfig_Tracer := Some localTracer |}
          end
        else pgxPoolConfig in
      let w := traced (NewWithConfig_lines env) pgxPoolConfig w in
      match NewWithConfig env pgxPoolConfig with
      | Some err => (Err (Errorf_w "failed to create pgx pool" err), w)
      | None =>
          let w := {| lines := lines w; pool_open := true |} in
          let database := {| Pool := pgxPoolConfig; log := logger |} in
          let w := traced (Ping_lines env) pgxPoolConfig w in
          match Ping env pgxPoolConfig with
          | Some err => (Err (Errorf_w "failed to ping database" err), w)
          | None =>
              let w := Info_Msg logger "connected to the database" w in
              (Ok database, w)
          end
      end
  end.
End New.

Section pool_config.
Context {Application : Type}.
Context (cfg : config.Config) (lg : logger.Logger).
Context (loggerService : option (logger.LoggerService (Application := Application))).

(** Whether the logger service holds a New Relic application. *)
Definition has_app : bool :=
  match loggerService with
  | Some ls => bool_decide (is_Some (logger.GetApplication ls))
  | None => false
  end.

(** The tracer for queries logged locally. *)
Definition local_tracer : Tracer :=
  TraceLog (logger.NewPgxLogger (logger.GetLevel lg))
           (logger.GetPgxTraceLogLevel (logger.GetLevel lg)).

(** The pool configuration of a DSN with, by the two conditions of [New],
    its tracer. *)
Definition pool_config : PoolConfig :=
  {| ConnString := dsn_of cfg;
     ConnConfig_Tracer :=
       if decide (config.CoreConfig.Env (config.Core cfg) = "local") then
         Some (if has_app then multiTracer [nrpgx5_Tracer; local_tracer]
               else local_tracer)
       else if has_app then Some nrpgx5_Tracer else None |}.
End pool_config.

(** [func (db *Database) Close() error]; [None] is [nil]. *)
Definition Close (db : Database) (w : World) : option error * World :=
  let w := Info_Msg (log db) "closing database connection pool" w in
  let w := {| lines := lines w; pool_open := false |} in
  (None, w).

Section multiTracer.
(** The contexts and the data handed to a tracer, and the effect a tracer
    has when a query ends, on whatever it writes to. *)
Context {Ctx StartData EndData Sink : Type}.

(** A value of the slice [tracers []any]: the method [TraceQueryStart]
    when its type has one, and the method [TraceQueryEnd] when it has
    one. *)
Record anyTracer := mkAnyTracer {
  QueryStart : option (Ctx → StartData → Ctx);
  QueryEnd : option (Ctx → EndData → Sink → Sink)
}.

(** [func (mt *multiTracer) TraceQueryStart(ctx, conn, data) context.Context] *)
Definition TraceQueryStart (tracers : list anyTracer) (ctx : Ctx)
    (data : StartData) : Ctx :=
  foldl (λ ctx tracer,
           match QueryStart tracer with
           | Some t => t ctx data
           | None => ctx
           end)
        ctx tracers.

(** [func (mt *multiTracer) TraceQueryEnd(ctx, conn, data)] *)
Definition TraceQueryEnd (tracers : list anyTracer) (ctx : Ctx)
    (data : EndData) (sink : Sink) : Sink :=
  foldl (λ sink tracer,
           match QueryEnd tracer with
           | Some t => t ctx data sink
           | None => sink
           end)
        sink tracers.
End multiTracer.

End database.

(** ** Package server: start and stop *)

Module httpserver.
Import zerolog_level.

(** What [httpServer.ListenAndServe] returns when it is not [nil]:
    [http.ErrServerClosed] after a shutdown, or another error. *)
Inductive serve_error :=
  | ErrServerClosed
  | serve_failure (err : error).

(** [func (s *Server) Start() error]; the logger of the server and what
    [ListenAndServe] returns are given. *)
Definition Start (s : server.Server) (lg : logger.Logger)
    (ListenAndServe : option serve_error) : Proc (option error) :=
  Info_Msg (logger.GetLevel lg)
    ("Starting HTTP server on port " ++ server.Addr s);;
  match ListenAndServe with
  | Some (serve_failure err) =>
      mret (Some (Errorf_w "failed to start HTTP server" err))
  | _ => mret None
  end.

(** [func (s *Server) Stop(ctx context.Context) error]; what
    [httpServer.Shutdown(ctx)] returns is given. *)
Definition Stop (s : server.Server) (lg : logger.Logger)
    (Shutdown : option error) : Proc (option error) :=
  Info_Msg (logger.GetLevel lg) "Shutting down HTTP server...";;
  match Shutdown with
  | Some err => mret (Some (Errorf_w "failed to shutdown HTTP server" err))
  | None =>
      Info_Msg (logger.GetLevel lg) "HTTP server stopped";;
      mret None
  end.

(** The goroutine of [main] that starts the server:
    [if err := srv.Start(); err != nil { appLogger.Fatal()... }]. *)
Definition main_serve (srv : server.Server) (appLogger : logger.Logger)
    (ListenAndServe : option serve_error) : Proc unit :=
  err ← Start srv appLogger ListenAndServe;
  match err with
  | Some _ => Fatal_Msg (logger.GetLevel appLogger) "Failed to start server"
  | None => mret tt
  end.

(** [main] after the signal: the shutdown of the server within the
    timeout, whose outcome [Shutdown] is given. *)
Definition main_shutdown (srv : server.Server) (appLogger : logger.Logger)
    (Shutdown : option error) : Proc unit :=
  Info_Msg (logger.GetLevel appLogger) "Shutting down server...";;
  err ← Stop srv appLogger Shutdown;
  match err with
  | Some _ => Fatal_Msg (logger.GetLevel appLogger) "Server forced to shutdown"
  | None => mret tt
  end;;
  Info_Msg (logger.GetLevel appLogger) "Server exited".

End httpserver.

(** ** Package config: the transformation of environment variables *)

Module config_env.

(** [strings.TrimPrefix] *)
Definition TrimPrefix (s prefix : string) : string :=
  if String.prefix prefix s
  then String.substring (String.length prefix)
         (String.length s - String.length prefix) s
  else s.

(** [strings.ReplaceAll(s, old, new)] for [old] of one byte. *)
Fixpoint ReplaceAll (old : ascii) (new : string) (s : string) : string :=
  match s with
  | EmptyString => EmptyString
  | String c s' =>
      if decide (c = old) then new ++ ReplaceAll old new s'
      else String c (ReplaceAll old new s')
  end.

(** [strings.Contains(s, substr)] for [substr] of one byte. *)
Definition Contains (s : string) (c : ascii) : bool :=
  bool_decide (c ∈ list_ascii_of_string s).

Section TransformFunc.
(** [strings.ToLower] *)
Context (ToLower : string → string).

(** The key of [TransformFunc]. *)
Definition transform_key (k : string) : string :=
  ReplaceAll "_"%char "." (ToLower (TrimPrefix k "MYVAR_")).

(** The [TransformFunc] that [LoadConfig] gives the provider; the value
    it returns is a string or a slice of strings. *)
Definition TransformFunc (k v : string) : string * (string + list string) :=
  let k := transform_key k in
  if Contains v " "%char then (k, inr (http.split http.space v))
  else (k, inl v).
End TransformFunc.

End config_env.

(** ** The struct validator, with a message for every tag *)

Module libs2.
Import libs.

(** [func getErrorMessage(err validator.FieldError) string] *)
Definition getErrorMessage (err : FieldError) : string :=
  if decide (Tag err = "required") then
    Field err ++ " is required"
  else if decide (Tag err = "email") then
    Field err ++ " is not a valid email"
  else if decide (Tag err = "min") then
    Field err ++ " must be at least " ++ Param err ++ " characters"
  else if decide (Tag err = "gte") then
    Field err ++ " must be " ++ Param err ++ " or greater"
  else if decide (Tag err = "lte") then
    Field err ++ " must be " ++ Param err ++ " or less"
  else if decide (Tag err = "len") then
    Field err ++ " must be exactly " ++ Param err ++ " characters"
  else if decide (Tag err = "oneof") then
    Field err ++ " must be one of: " ++ Param err
  else if decide (Tag err = "url") then
    Field err ++ " is not a valid URL"
  else if decide (Tag err = "uuid") then
    Field err ++ " is not a valid UUID"
  else if decide (Tag err = "datetime") then
    Field err ++ " is not a valid datetime"
  else if decide (Tag err = "time") then
    Field err ++ " is not a valid time"
  else if decide (Tag err = "ip") then
    Field err ++ " is not a valid IP address"
  else if decide (Tag err = "cidr") then
    Field err ++ " is not a valid CIDR notation"
  else if decide (Tag err = "json") then
    Field err ++ " is not a valid JSON"
  else if decide (Tag err = "numeric") then
    Field err ++ " must be a numeric value"
  else if decide (Tag err = "bool") then
    Field err ++ " must be a boolean value"
  else if decide (Tag err = "base64") then
    Field err ++ " is not a valid base64 string"
  else if decide (Tag err = "hexadecimal") then
    Field err ++ " is not a valid hexadecimal string"
  else if decide (Tag err = "ascii") then
    Field err ++ " must be a valid ASCII string"
  else if decide (Tag err = "printascii") then
    Field err ++ " must be a printable ASCII string"
  else if decide (Tag err = "alphanum") then
    Field err ++ " must be alphanumeric"
  else if decide (Tag err = "alpha") then
    Field err ++ " must contain only alphabetic characters"
  else if decide (Tag err = "lowercase") then
    Field err ++ " must be lowercase"
  else if decide (Tag err = "uppercase") then
    Field err ++ " must be uppercase"
  else if decide (Tag err = "startswith") then
    Field err ++ " must start with " ++ Param err
  else if decide (Tag err = "endswith") then
    Field err ++ " must end with " ++ Param err
  else if decide (Tag err = "contains") then
    Field err ++ " must contain " ++ Param err
  else if decide (Tag err = "excludes") then
    Field err ++ " must not contain " ++ Param err
  else if decide (Tag err = "unique") then
    Field err ++ " must be unique"
  else if decide (Tag err = "gt") then
    Field err ++ " must be greater than " ++ Param err
  else if decide (Tag err = "lt") then
    Field err ++ " must be less than " ++ Param err
  else if decide (Tag err = "eq") then
    Field err ++ " must be equal to " ++ Param err
  else if decide (Tag err = "ne") then
    Field err ++ " must not be equal to " ++ Param err
  else if decide (Tag err = "in") then
    Field err ++ " must be one of: " ++ Param err
  else if decide (Tag err = "notin") then
    Field err ++ " must not be one of: " ++ Param err
  else if decide (Tag err = "required_if") then
    Field err ++ " is required when " ++ Param err
  else if decide (Tag err = "required_unless") then
    Field err ++ " is required unless " ++ Param err
  else if decide (Tag err = "required_with") then
    Field err ++ " is required when " ++ Param err ++ " is present"
  else if decide (Tag err = "required_without") then
    Field err ++ " is required when " ++ Param err ++ " is not present"
  else if decide (Tag err = "required_with_all") then
    Field err ++ " is required when all of " ++ Param err ++ " are present"
  else if decide (Tag err = "required_without_all") then
    Field err ++ " is required when none of " ++ Param err ++ " are present"
  else if decide (Tag err = "required_if_exists") then
    Field err ++ " is required if " ++ Param err ++ " exists"
  else if decide (Tag err = "required_if_not_exists") then
    Field err ++ " is required if " ++ Param err ++ " does not exist"
  else if decide (Tag err = "required_if_empty") then
    Field err ++ " is required if " ++ Param err ++ " is empty"
  else if decide (Tag err = "required_if_not_empty") then
    Field err ++ " is required if " ++ Param err ++ " is not empty"
  else if decide (Tag err = "required_if_true") then
    Field err ++ " is required if " ++ Param err ++ " is true"
  else if decide (Tag err = "required_if_false") then
    Field err ++ " is required if " ++ Param err ++ " is false"
  else if decide (Tag err = "required_if_null") then
    Field err ++ " is required if " ++ Param err ++ " is null"
  else if decide (Tag err = "required_if_not_null") then
    Field err ++ " is required if " ++ Param err ++ " is not null"
  else if decide (Tag err = "required_if_empty_string") then
    Field err ++ " is required if " ++ Param err ++ " is an empty string"
  else if decide (Tag err = "required_if_not_empty_string") then
    Field err ++ " is required if " ++ Param err ++ " is not an empty string"
  else Field err ++ " is invalid".

Section ValidateStruct.
(** [strings.ToLower]; and the [Struct] method of the validator that the
    function builds, on the type of data at hand. *)
Context (ToLower : string → string).
Context {A : Type} (validate_Struct : A → StructResult).

(** The loop [for _, v := range valErrs
      { errors[strings.ToLower(v.Field())] = getErrorMessage(v) }]. *)
Definition collect (valErrs : list FieldError) (errors : gmap string string)
  : gmap string string :=
  foldl (λ errors v, <[ToLower (Field v) := getErrorMessage v]> errors)
        errors valErrs.

(** [func ValidateStruct(data any) map[string]string]; [None] is the
    [nil] map. *)
Definition ValidateStruct (data : A) : option (gmap string string) :=
  let errors : gmap string string := ∅ in
  let errors :=
    match validate_Struct data with
    | ValidationErrors valErrs => collect valErrs errors
    | _ => errors
    end in
  if decide (0 < size errors)%nat then Some errors else None.
End ValidateStruct.

End libs2.

(** ** Histories of repository calls *)

Module history.
Import models postgres.

(** A call of the repository, or time passing on the server clock. *)
Inductive call :=
  | call_Create (ctx : context.Context) (user : User)
  | call_GetByID (ctx : context.Context) (id : Z)
  | call_GetByEmail (ctx : context.Context) (email : string)
  | call_Update (ctx : context.Context) (user : User)
  | call_Delete (ctx : context.Context) (id : Z)
  | call_List (tie : Tie) (ctx : context.Context) (limit offset : Z)
  | elapse (d : N).

(** The database after a call. *)
Definition after (c : call) (db : DB) : DB :=
  match c with
  | call_Create ctx user => (repositories.Create ctx user db).1
  | call_GetByID ctx id => (repositories.GetByID ctx id db).1
  | call_GetByEmail ctx email => (repositories.GetByEmail ctx email db).1
  | call_Update ctx user => (repositories.Update ctx user db).1
  | call_Delete ctx id => (repositories.Delete ctx id db).1
  | call_List tie ctx limit offset =>
      (repositories.List tie ctx limit offset db).1
  | elapse d => tick (Z.of_N d) db
  end.

(** The database after a sequence of calls, the first call first. *)
Definition after_all (calls : list call) (db : DB) : DB :=
  foldl (λ db c, after c db) db calls.

(** What holds of the table after any sequence of calls. *)
Definition well_formed (db : DB) : Prop :=
  table_ok db ∧ rows_not_future db ∧
  (1 ≤ users_id_seq db)%Z ∧ (∀ u, u ∈ users db → (1 ≤ ID u)%Z).

End history.

(** ** Sample inputs *)

(** A struct with two nested structs that both have a field [Name]: the
    first fails [alpha], the second fails [required]. *)
Definition two_names : libs.StructResult :=
  libs.ValidationErrors
    [libs.mkFieldError "Name" "alpha" ""; libs.mkFieldError "Name" "required" ""].

(** A table holding one user, id 1, created at time 10. *)
Definition one_user : postgres.DB :=
  postgres.mkDB [models.mkUser 1 "ann@example.org" 10 10] 2 20.

(** Three users A, B, C created in that order. *)
Definition userA : models.User := models.mkUser 1 "a@example.org" 10 10.
Definition userB : models.User := models.mkUser 2 "b@example.org" 20 20.
Definition userC : models.User := models.mkUser 3 "c@example.org" 30 30.
Definition three_users : postgres.DB := postgres.mkDB [userA; userB; userC] 4 40.

(** A database that answers, and one whose ping fails; the driver traces
    the connection it makes for the ping. *)
Definition database_up : database.Environ :=
  database.mkEnviron (λ _, None) (λ _, None) (λ _, [])
    (λ _, None) (λ _, [("info", "Connect")]).
Definition database_down : database.Environ :=
  database.mkEnviron (λ _, None) (λ _, None) (λ _, [])
    (λ _, Some (ctxError "connection refused")) (λ _, [("error", "Connect")]).

(** A configuration for the local environment. *)
Definition local_config : config.Config :=
  config.mkConfig (config.AuthConfig.mk "secret") (config.CoreConfig.mk "local")
    (config.DatabaseConfig.mk "localhost" "5432" "app" "p w" "appdb" "disable"
       "10" "5" "1h" "30m")
    (config.RedisConfig.mk "localhost:6379")
    (config.ServerConfig.mk "8080" 5 10 60 (Some ["*"])).

(** The world before [database.New]. *)
Definition world0 : database.World := database.mkWorld [] false.

(** ** Theorems *)

(** Closed decidable goals are settled by evaluation. *)
Ltac by_compute :=
  match goal with |- ?P => apply (bool_decide_unpack P) end;
  vm_compute; exact I.

Section errs_facts.
Import errs.

Lemma fixed_code_cases e :
  fixed_code e →
  e ∈ predefined ∨ (∃ m, e = NewValidation m) ∨
  (∃ r, e = NewNotFound r) ∨ (∃ m, e = NewInternal m).
Proof. destruct 1; eauto. Qed.

(** C1. Every error built with a fixed code carries the canonical status of
    that code (VALIDATION_ERROR 400, NOT_FOUND 404, UNAUTHORIZED 401,
    FORBIDDEN 403, INTERNAL_ERROR 500, BAD_REQUEST 400, CONFLICT 409,
    TOO_MANY_REQUESTS 429), and two such errors with the same code have the
    same status. *)
Theorem fixed_code_canonical_status :
  (∀ e, fixed_code e → spec_canonical_status (Code e) = Some (Status e)) ∧
  (∀ e1 e2, fixed_code e1 → fixed_code e2 →
            Code e1 = Code e2 → Status e1 = Status e2) ∧
  map (λ e, (Code e, Status e)) predefined =
    [("VALIDATION_ERROR", 400%Z); ("NOT_FOUND", 404%Z);
     ("UNAUTHORIZED", 401%Z); ("FORBIDDEN", 403%Z);
     ("INTERNAL_ERROR", 500%Z); ("BAD_REQUEST", 400%Z);
     ("CONFLICT", 409%Z); ("TOO_MANY_REQUESTS", 429%Z)].
Proof.
  assert (Hcanon : ∀ e, fixed_code e →
            spec_canonical_status (Code e) = Some (Status e)).
  { intros e He. apply fixed_code_cases in He.
    destruct He as [Hin | [[m ->] | [[r ->] | [m ->]]]]; [| reflexivity ..].
    unfold predefined in Hin.
    repeat (apply elem_of_cons in Hin; destruct Hin as [-> | Hin];
            [reflexivity |]).
    by apply elem_of_nil in Hin. }
  split; [exact Hcanon |]. split; [| reflexivity].
  intros e1 e2 H1 H2 Hc.
  apply Hcanon in H1, H2. rewrite Hc in H1. congruence.
Qed.

(** The C1 theorem at [NewNotFound "user"] and [ErrNotFound]. *)
Lemma fixed_code_canonical_status_witness :
  errs.Status (errs.NewNotFound "user") = errs.Status errs.ErrNotFound.
Proof.
  apply (proj1 (proj2 fixed_code_canonical_status)).
  - apply fixed_NewNotFound.
  - apply fixed_predefined. by_compute.
  - reflexivity.
Defined.

End errs_facts.

Section ValidateStruct_facts.
Import libs.
Context (ToLower : string → string).
Context {A : Type} (validate_Struct : A → StructResult).

Local Abbreviation key v := (ToLower (Field v)).
Local Abbreviation named k := (λ v : FieldError, ToLower (Field v) = k).

Lemma getErrorMessage_default v :
  Tag v ∉ message_tags → getErrorMessage v = "".
Proof.
  intros Hv. unfold getErrorMessage, message_tags in *.
  repeat case_decide; try reflexivity; exfalso; apply Hv; set_solver.
Qed.

(** After the loop a key holds the message of the last field error that
    was stored under it, or what it held before the loop. *)
Lemma lookup_collect (l : list FieldError) (m : gmap string string) k :
  collect ToLower l m !! k =
    match last (filter (named k) l) with
    | Some v => Some (getErrorMessage v)
    | None => m !! k
    end.
Proof.
  revert m. induction l as [| v l IH]; intros m; [reflexivity |].
  unfold collect in *. cbn [foldl]. rewrite IH, filter_cons.
  destruct (decide (key v = k)) as [<- | Hne].
  - rewrite last_cons. destruct (last _); [reflexivity |].
    apply lookup_insert_eq.
  - destruct (last _); [reflexivity |]. by apply lookup_insert_ne.
Qed.

Lemma dom_collect (l : list FieldError) (m : gmap string string) :
  dom (collect ToLower l m) =
    dom m ∪ list_to_set ((λ v, key v) <$> l).
Proof.
  revert m. induction l as [| v l IH]; intros m.
  - cbn. set_solver.
  - unfold collect in *. cbn [foldl]. rewrite IH, dom_insert_L.
    rewrite fmap_cons, list_to_set_cons. set_solver.
Qed.

Lemma collect_non_empty (l : list FieldError) :
  l ≠ [] → collect ToLower l ∅ ≠ ∅.
Proof.
  intros Hl Hempty.
  assert (Hdom : dom (collect ToLower l ∅) = (∅ : gset string))
    by (rewrite Hempty; apply dom_empty_L).
  rewrite dom_collect in Hdom. destruct l as [| v l]; [done |].
  rewrite fmap_cons, list_to_set_cons in Hdom. set_solver.
Qed.

Lemma ValidateStruct_unfold data :
  ValidateStruct ToLower validate_Struct data =
    match field_errors (validate_Struct data) with
    | [] => None
    | errs => Some (collect ToLower errs ∅)
    end.
Proof.
  unfold ValidateStruct, field_errors.
  destruct (validate_Struct data) as [| | errs]; [reflexivity ..|].
  destruct errs as [| v errs]; [reflexivity |].
  case_decide as Hsz; [reflexivity |]. exfalso.
  apply (collect_non_empty (v :: errs)); [done |].
  apply map_size_empty_iff. lia.
Qed.

(** C10 (as amended). [ValidateStruct] returns [nil] exactly when no field
    error is reported; otherwise a non-empty map whose keys are the
    lowercased names of the failing fields, each mapped to the message of
    the last failing field reported under that lowercased name; so a failing
    field whose tag is none of required, email, min, gte is mapped to the
    empty string when every failing field sharing its lowercased name also
    has such a tag. *)
Theorem ValidateStruct_map data :
  let errs := field_errors (validate_Struct data) in
  (ValidateStruct ToLower validate_Struct data = None ↔ errs = []) ∧
  (∀ m, ValidateStruct ToLower validate_Struct data = Some m →
     m ≠ ∅ ∧
     dom m = list_to_set ((λ v, key v) <$> errs) ∧
     (∀ k, m !! k = getErrorMessage <$> last (filter (named k) errs)) ∧
     (∀ v, v ∈ errs → Tag v ∉ message_tags →
        (∀ w, w ∈ errs → key w = key v → Tag w ∉ message_tags) →
        m !! key v = Some "")).
Proof.
  intros errs. rewrite ValidateStruct_unfold. fold errs.
  split.
  { destruct errs; split; congruence. }
  intros m Hm.
  assert (Hne : errs ≠ []) by (destruct errs; congruence).
  assert (m = collect ToLower errs ∅) as -> by (destruct errs; congruence).
  assert (Hlook : ∀ k, collect ToLower errs ∅ !! k =
                       getErrorMessage <$> last (filter (named k) errs)).
  { intros k. rewrite lookup_collect.
    destruct (last _); [reflexivity | apply lookup_empty]. }
  split; [by apply collect_non_empty |].
  split; [rewrite dom_collect, dom_empty_L; set_solver |].
  split; [exact Hlook |].
  intros v Hv Htag Hall. rewrite Hlook.
  destruct (last (filter (named (key v)) errs)) as [w |] eqn:Hlast.
  - apply last_Some_elem_of, list_elem_of_filter in Hlast as [Hk Hw].
    cbn. f_equal. apply getErrorMessage_default. by apply Hall.
  - apply last_None in Hlast.
    assert (v ∈ filter (named (key v)) errs)
      by (apply list_elem_of_filter; done).
    rewrite Hlast in *. set_solver.
Qed.

End ValidateStruct_facts.

(** The C10 theorem at a struct whose only failing field fails [oneof]. *)
Lemma ValidateStruct_map_witness :
  libs.collect libs.ToLower [libs.mkFieldError "Level" "oneof" "json text"] ∅
    !! "level" = Some "".
Proof.
  refine (proj2 (proj2 (proj2
    (proj2 (ValidateStruct_map libs.ToLower
              (λ _ : unit, libs.ValidationErrors
                 [libs.mkFieldError "Level" "oneof" "json text"]) tt) _ _)))
    (libs.mkFieldError "Level" "oneof" "json text") _ _ _).
  - vm_compute. reflexivity.
  - by_compute.
  - by_compute.
  - intros w Hw _. cbn in Hw. apply list_elem_of_singleton in Hw as ->.
    by_compute.
Defined.

(** C10 (as stated) fails: with [two_names] the field failing [alpha] is
    not mapped to the empty string, the later [required] failure of the
    other [Name] field having overwritten its entry. *)
Lemma ValidateStruct_collision :
  ¬ (∀ (data : unit) m,
       libs.ValidateStruct libs.ToLower (λ _, two_names) data = Some m →
       ∀ v, v ∈ libs.field_errors two_names →
            libs.Tag v ∉ libs.message_tags →
            m !! libs.ToLower (libs.Field v) = Some "").
Proof.
  intros H.
  assert (Hm : libs.ValidateStruct libs.ToLower (λ _ : unit, two_names) tt =
               Some (libs.collect libs.ToLower (libs.field_errors two_names) ∅))
    by (vm_compute; reflexivity).
  specialize (H tt _ Hm (libs.mkFieldError "Name" "alpha" "")).
  assert (Hin : libs.mkFieldError "Name" "alpha" "" ∈ libs.field_errors two_names)
    by by_compute.
  assert (Htag : libs.Tag (libs.mkFieldError "Name" "alpha" "") ∉ libs.message_tags)
    by by_compute.
  specialize (H Hin Htag). rewrite lookup_collect in H.
  vm_compute in H. discriminate H.
Qed.

Section LoadConfig_facts.
Import config.
Context (validate_Struct : Config → libs.StructResult).

Local Ltac run_proc :=
  unfold mbind, Proc_bind, mret, Proc_ret, zerolog.Msg, write_log, os_Exit
    in *; cbn in *.

(** The paths of [LoadConfig], by what the environment decides. *)
Lemma LoadConfig_cases env log :
  let '(cfg, uerr) := koanf_Unmarshal env zero in
  LoadConfig validate_Struct env log =
    match koanf_Load env, uerr with
    | Some err, _ =>
        (Exits 1, (log ++ [("fatal", "could not load initial env variables")])%list)
    | None, Some err =>
        (Exits 1, (log ++ [("fatal", "could not unmarshal main config")])%list)
    | None, None => (Returns (Some cfg, None), log)
    end.
Proof.
  unfold LoadConfig.
  destruct (koanf_Unmarshal env zero) as [cfg uerr].
  destruct (koanf_Load env) as [lerr |], uerr as [uerr |]; run_proc;
    try reflexivity;
    destruct (libs.ValidateStruct _ _ _); reflexivity.
Qed.

(** C9. Whenever [LoadConfig] returns to its caller, its error is [nil] and
    its [*Config] is not, nothing was logged, and loading and
    unmarshalling had both succeeded; so the check of that error in
    [main] takes the accepting branch, never the error branch. *)
Theorem LoadConfig_returns_nil_error env log c e log' :
  LoadConfig validate_Struct env log = (Returns (c, e), log') →
  e = None ∧
  err_check e = config_accepted ∧
  err_check e ≠ error_branch ∧
  log' = log ∧
  koanf_Load env = None ∧
  ∃ cfg, c = Some cfg ∧ koanf_Unmarshal env zero = (cfg, None).
Proof.
  intros Hret.
  pose proof (LoadConfig_cases env log) as Hcases.
  destruct (koanf_Unmarshal env zero) as [cfg uerr].
  rewrite Hret in Hcases.
  destruct (koanf_Load env), uerr; try discriminate Hcases.
  injection Hcases as -> -> ->. repeat split; eauto.
Qed.

(** C3 on the code. When loading and unmarshalling succeed and the
    configuration fails validation, [LoadConfig] nevertheless returns that
    configuration to its caller with a [nil] error: nothing is logged, the
    process does not exit, and the check [main] makes of the error
    accepts the result. *)
Theorem LoadConfig_returns_invalid_config env cfg log :
  koanf_Load env = None →
  koanf_Unmarshal env zero = (cfg, None) →
  libs.ValidateStruct libs.ToLower validate_Struct cfg ≠ None →
  LoadConfig validate_Struct env log = (Returns (Some cfg, None), log) ∧
  (∀ code log', LoadConfig validate_Struct env log ≠ (Exits code, log')) ∧
  (∀ c e log', LoadConfig validate_Struct env log = (Returns (c, e), log') →
     c = Some cfg ∧ err_check e = config_accepted).
Proof.
  intros Hload Hunm _.
  pose proof (LoadConfig_cases env log) as Hcases.
  rewrite Hunm, Hload in Hcases. rewrite Hcases.
  split; [reflexivity |]. split; [discriminate |].
  by intros c e log' [= <- <- _].
Qed.

End LoadConfig_facts.

(** The C9 theorem in the empty environment: [LoadConfig] returns the zero
    configuration with a [nil] error, and the check in [main] accepts
    it. *)
Lemma LoadConfig_returns_nil_error_witness :
  run (config.LoadConfig config.validate_Struct empty_environ) =
    (Returns (Some config.zero, None), []) ∧
  err_check None = config_accepted.
Proof.
  split; [reflexivity |].
  exact (proj1 (proj2 (LoadConfig_returns_nil_error config.validate_Struct
                  empty_environ [] (Some config.zero) None [] eq_refl))).
Defined.

(** The C3 theorem in the empty environment: the zero configuration fails
    validation, and [LoadConfig] returns it with a [nil] error and an
    empty log. *)
Lemma LoadConfig_returns_invalid_config_witness :
  libs.ValidateStruct libs.ToLower config.validate_Struct config.zero ≠ None ∧
  run (config.LoadConfig config.validate_Struct empty_environ) =
    (Returns (Some config.zero, None), []).
Proof.
  assert (Hbad : libs.ValidateStruct libs.ToLower config.validate_Struct
                   config.zero ≠ None).
  { rewrite ValidateStruct_unfold. discriminate. }
  split; [exact Hbad |].
  exact (proj1 (LoadConfig_returns_invalid_config config.validate_Struct
                  empty_environ config.zero [] eq_refl eq_refl Hbad)).
Defined.

Section repositories_facts.
Import models postgres repositories.
Local Open Scope list_scope.

Local Ltac unfold_repo :=
  unfold Create, GetByID, GetByEmail, Update, Delete, List,
    pgxpool.QueryRow, pgxpool.Query, pgxpool.Exec, pgxpool.round_trip,
    pgxpool.Scan.

(** The range of [int4]. *)
Local Abbreviation int4 id := (int4_min ≤ id ≤ int4_max)%Z.

(** *** The argument the driver encodes as an [int4] *)

Lemma int4_arg_in_range {A} id (stmt : Z → DB → DB * result A) db :
  int4 id → pgxpool.int4_arg id stmt db = stmt id db.
Proof. intros Hid. unfold pgxpool.int4_arg. rewrite decide_True; auto. Qed.

Lemma int4_arg_stored {A} id (stmt : Z → DB → DB * result A) db :
  id ∈ ids db → pgxpool.int4_arg id stmt db = stmt id db.
Proof. intros Hid. unfold pgxpool.int4_arg. rewrite decide_True; auto. Qed.

Lemma int4_arg_refused {A} id (stmt : Z → DB → DB * result A) db :
  ¬ int4 id → id ∉ ids db →
  pgxpool.int4_arg id stmt db = (db, Err (encodeError id)).
Proof.
  intros Hid Hin. unfold pgxpool.int4_arg. rewrite decide_False; tauto.
Qed.

Lemma int4_arg_cases {A} id (stmt : Z → DB → DB * result A) db :
  pgxpool.int4_arg id stmt db = stmt id db ∨
  pgxpool.int4_arg id stmt db = (db, Err (encodeError id)).
Proof. unfold pgxpool.int4_arg. case_decide; auto. Qed.

(** The driver's refusal of an argument, wrapped, is not the no-rows
    error and holds no [*AppError]. *)
Lemma Errorf_w_encodeError prefix arg :
  errors_Is (Errorf_w prefix (encodeError arg)) ErrNoRows = false ∧
  errors_As_AppError (Errorf_w prefix (encodeError arg)) = None.
Proof. split; reflexivity. Qed.

(** A wrapped no-rows error is still recognised by [errors.Is], and holds
    no [*AppError]. *)
Lemma Errorf_w_ErrNoRows prefix :
  errors_Is (Errorf_w prefix ErrNoRows) ErrNoRows = true ∧
  errors_As_AppError (Errorf_w prefix ErrNoRows) = None.
Proof. split; reflexivity. Qed.

Lemma filter_ID_nil id (rows : list User) :
  id ∉ ID <$> rows → filter (λ u, ID u = id) rows = [].
Proof.
  intros Hid. induction rows as [| u rows IH]; [reflexivity |].
  rewrite fmap_cons, not_elem_of_cons in Hid. destruct Hid as [Hne Hid].
  rewrite filter_cons. destruct (decide (ID u = id)); [congruence | auto].
Qed.

Lemma filter_Email_nil email (rows : list User) :
  email ∉ Email <$> rows → filter (λ u, Email u = email) rows = [].
Proof.
  intros He. induction rows as [| u rows IH]; [reflexivity |].
  rewrite fmap_cons, not_elem_of_cons in He. destruct He as [Hne He].
  rewrite filter_cons. destruct (decide (Email u = email)); [congruence | auto].
Qed.

Lemma GetByID_no_row ctx id db :
  context.Err ctx = None → int4 id → id ∉ ids db →
  GetByID ctx id db = (db, Err (Errorf_w "failed to get user by id" ErrNoRows)).
Proof.
  intros Hctx Hrange Hid. unfold_repo. rewrite Hctx.
  rewrite int4_arg_in_range by exact Hrange. unfold select_by_id.
  rewrite filter_ID_nil by exact Hid. reflexivity.
Qed.

(** C2 (as amended). For an id with no matching row [GetByID] fails; under
    a live context the failure is, for an id in the range of [int4], the
    driver's no-rows error wrapped with the operation's context, which
    [errors.Is] recognises as [pgx.ErrNoRows], and for an id beyond that
    range the driver's refusal to encode the argument, wrapped the same
    way; neither is a [*AppError] (it carries no code and no status).
    [GetByEmail] for an email not in storage fails with the wrapped
    no-rows error. *)
Theorem GetByID_missing_row ctx id email db :
  (id ∉ ids db →
     (∃ err, GetByID ctx id db = (db, Err err)) ∧
     (context.Err ctx = None → int4 id →
        GetByID ctx id db =
          (db, Err (Errorf_w "failed to get user by id" ErrNoRows))) ∧
     (context.Err ctx = None → ¬ int4 id →
        GetByID ctx id db =
          (db, Err (Errorf_w "failed to get user by id" (encodeError id))))) ∧
  (email ∉ emails db →
     (∃ err, GetByEmail ctx email db = (db, Err err)) ∧
     (context.Err ctx = None →
        GetByEmail ctx email db =
          (db, Err (Errorf_w "failed to get user by email" ErrNoRows)))) ∧
  (∀ prefix,
     errors_Is (Errorf_w prefix ErrNoRows) ErrNoRows = true ∧
     errors_As_AppError (Errorf_w prefix ErrNoRows) = None) ∧
  (∀ prefix arg,
     errors_Is (Errorf_w prefix (encodeError arg)) ErrNoRows = false ∧
     errors_As_AppError (Errorf_w prefix (encodeError arg)) = None).
Proof.
  split; [| split; [| split;
    [exact Errorf_w_ErrNoRows | exact Errorf_w_encodeError]]].
  - intros Hid. split; [| split].
    + unfold_repo. destruct (context.Err ctx); [eauto |].
      unfold pgxpool.int4_arg. case_decide; [| eauto].
      unfold select_by_id. rewrite filter_ID_nil by exact Hid. eauto.
    + intros Hctx Hrange. by apply GetByID_no_row.
    + intros Hctx Hrange. unfold_repo. rewrite Hctx.
      by rewrite int4_arg_refused.
  - intros He.
    assert (Hnone : filter (λ u, Email u = email) (users db) = [])
      by (by apply filter_Email_nil).
    split.
    + unfold_repo. destruct (context.Err ctx); [eauto |].
      unfold select_by_email. rewrite Hnone. eauto.
    + intros Hctx. unfold_repo. rewrite Hctx. unfold select_by_email.
      rewrite Hnone. reflexivity.
Qed.

(** The C2 theorem on the empty table, for id 1. *)
Lemma GetByID_missing_row_witness :
  GetByID context.Background 1 postgres.empty =
    (postgres.empty,
     Err (wrapError "failed to get user by id: no rows in result set"
            ErrNoRows)).
Proof.
  refine (proj1 (proj2 (proj1 (GetByID_missing_row context.Background 1
                                 "a@b.c" postgres.empty) _)) eq_refl _).
  - by_compute.
  - by_compute.
Defined.

(** C2 (as stated) fails: on the empty table the failure of [GetByID] for
    id 1 is not, and does not wrap, an [AppError] with code NOT_FOUND and
    status 404. *)
Lemma GetByID_not_classified :
  ¬ ∃ err a,
      GetByID context.Background 1 postgres.empty = (postgres.empty, Err err) ∧
      errors_As_AppError err = Some a ∧
      errs.Code a = errs.ErrCodeNotFound ∧ errs.Status a = 404%Z.
Proof.
  intros (err & a & Hget & Has & _).
  rewrite GetByID_no_row in Hget by (reflexivity || by_compute).
  injection Hget as <-. discriminate Has.
Qed.

(** On the empty table an id beyond the range of [int4] is refused by the
    driver; the failure is not the no-rows error. *)
Example GetByID_beyond_int4 :
  GetByID context.Background (2 ^ 40) postgres.empty =
    (postgres.empty,
     Err (wrapError
            ("failed to get user by id: failed to encode args[0]: " ++
             "unable to encode 1099511627776 into binary format for int4 " ++
             "(OID 23): 1099511627776 is greater than maximum value for int4")
            (encodeError 1099511627776))).
Proof. vm_compute. reflexivity. Qed.

Lemma filter_filter_ID_ne id (rows : list User) :
  filter (λ u, ID u ≠ id) (filter (λ u, ID u ≠ id) rows) =
  filter (λ u, ID u ≠ id) rows.
Proof.
  induction rows as [| u rows IH]; [reflexivity |].
  rewrite (filter_cons _ u rows).
  destruct (decide (ID u ≠ id)) as [Hne | Heq]; [| exact IH].
  rewrite filter_cons. destruct (decide (ID u ≠ id)); [| done].
  by rewrite IH.
Qed.

Lemma ID_not_in_filter_ne id (rows : list User) :
  id ∉ ID <$> filter (λ u, ID u ≠ id) rows.
Proof.
  intros Hin. apply list_elem_of_fmap in Hin as (u & -> & Hu).
  apply list_elem_of_filter in Hu as [Hne _]. done.
Qed.

(** C7 (as amended). Under a live context [Delete] returns no error for
    every id in the range of [int4], also when no row matches; it removes
    the rows with that id and nothing else; deleting again changes
    nothing; and a [GetByID] of the id after it fails with the wrapped
    no-rows error of the driver, which is no [*AppError].  An id beyond
    the range of [int4] is refused by the driver: [Delete] fails and
    nothing is deleted. *)
Theorem Delete_idempotent ctx id db :
  context.Err ctx = None →
  (int4 id →
   ∃ db',
     Delete ctx id db = (db', None) ∧
     users db' = filter (λ u, ID u ≠ id) (users db) ∧
     users_id_seq db' = users_id_seq db ∧ now db' = now db ∧
     Delete ctx id db' = (db', None) ∧
     GetByID ctx id db' =
       (db', Err (Errorf_w "failed to get user by id" ErrNoRows)) ∧
     errors_Is (Errorf_w "failed to get user by id" ErrNoRows) ErrNoRows
       = true ∧
     errors_As_AppError (Errorf_w "failed to get user by id" ErrNoRows)
       = None) ∧
  (¬ int4 id → id ∉ ids db →
   Delete ctx id db =
     (db, Some (Errorf_w "failed to delete user" (encodeError id)))).
Proof.
  intros Hctx. split.
  - intros Hrange. eexists. unfold Delete at 1. unfold pgxpool.Exec,
      pgxpool.round_trip. rewrite Hctx.
    rewrite int4_arg_in_range by exact Hrange. unfold delete_user.
    split; [reflexivity |]. cbn [users users_id_seq now].
    repeat split.
    + unfold_repo. rewrite Hctx. rewrite int4_arg_in_range by exact Hrange.
      unfold delete_user. cbn [users users_id_seq now].
      by rewrite filter_filter_ID_ne.
    + apply GetByID_no_row; [exact Hctx | exact Hrange |].
      apply ID_not_in_filter_ne.
  - intros Hrange Hid. unfold_repo. rewrite Hctx.
    by rewrite int4_arg_refused.
Qed.

(** The C7 theorem on [one_user], deleting id 1. *)
Lemma Delete_idempotent_witness :
  ∃ db', Delete context.Background 1 one_user = (db', None) ∧ users db' = [].
Proof.
  destruct (proj1 (Delete_idempotent context.Background 1 one_user eq_refl))
    as (db' & Hdel & Husers & _); [by_compute |].
  exists db'. split; [exact Hdel |]. rewrite Husers. reflexivity.
Defined.

(** C7 (as stated) fails in its last part: after deleting id 1 from
    [one_user], the failure of [GetByID] is not, and does not wrap, an
    [AppError] with code NOT_FOUND. *)
Lemma Delete_then_GetByID_not_classified :
  ¬ ∃ db' err a,
      Delete context.Background 1 one_user = (db', None) ∧
      GetByID context.Background 1 db' = (db', Err err) ∧
      errors_As_AppError err = Some a ∧
      errs.Code a = errs.ErrCodeNotFound.
Proof.
  intros (db' & err & a & Hdel & Hget & Has & _).
  injection Hdel as <-.
  rewrite GetByID_no_row in Hget by (reflexivity || by_compute).
  injection Hget as <-. discriminate Has.
Qed.


Lemma seq_ahead_fresh db : seq_ahead db → users_id_seq db ∉ ids db.
Proof.
  intros Hseq Hin. apply list_elem_of_fmap in Hin as (u & Hu & Hin).
  apply Hseq in Hin. lia.
Qed.



(** *** Pages *)

(** The loop of [List] scans every row of the model. *)
Lemma scan_users_ok (rows acc : list User) :
  scan_users acc rows = Ok (acc ++ rows).
Proof.
  revert acc. induction rows as [| row rows IH]; intros acc; cbn.
  - by rewrite app_nil_r.
  - by rewrite IH, <- app_assoc.
Qed.

(** [List] under a live context: the page of the statement, or the error
    of the statement as [rows.Err()] returns it. *)
Lemma List_live tie ctx limit offset db :
  context.Err ctx = None →
  List tie ctx limit offset db =
    match select_page tie limit offset db with
    | (db', Ok rows) => (db', Ok rows)
    | (db', Err err) => (db', Err (Errorf_w "rows error" err))
    end.
Proof.
  intros Hctx. unfold List, pgxpool.Query. rewrite Hctx.
  destruct (select_page tie limit offset db) as [db' [rows | err]];
    cbn [pgxpool.rows_read pgxpool.rows_Err]; [| reflexivity].
  by rewrite scan_users_ok.
Qed.

(** In rows that come in the order of [ORDER BY created_at DESC], a row
    is created no earlier than the rows after it. *)
Lemma ordered_lookup (l : list User) i j u v :
  StronglySorted created_desc l →
  l !! i = Some u → l !! j = Some v → (i ≤ j)%nat →
  (CreatedAt v ≤ CreatedAt u)%Z.
Proof.
  intros Hl. revert i j.
  induction Hl as [| a l Hl IH Ha]; intros i j Hi Hj Hij; [done |].
  destruct i as [| i], j as [| j]; cbn in Hi, Hj; [| | lia |].
  - injection Hi as <-. injection Hj as <-. lia.
  - injection Hi as <-. apply list_elem_of_lookup_2 in Hj.
    rewrite Forall_forall in Ha. by apply Ha.
  - apply (IH i j); [done | done | lia].
Qed.

(** Whatever the server prefers among rows created at the same time, the
    rows come in the order of their creation times, latest first. *)
Lemma order_by_created_desc_ok tie rows :
  ordered_by_created_desc rows (order_by_created_desc tie rows).
Proof.
  split; [apply merge_sort_Permutation |].
  pose proof (StronglySorted_merge_sort (created_desc_then tie) rows)
    as Hsorted.
  unfold order_by_created_desc.
  induction Hsorted as [| a l Hl IH Ha]; constructor; [exact IH |].
  eapply Forall_impl; [exact Ha |].
  intros v. unfold created_desc_then, created_desc. lia.
Qed.

(** Whatever order the server chooses, the creation times come in one
    sequence. *)
Lemma ordered_created_unique rows sorted1 sorted2 :
  ordered_by_created_desc rows sorted1 →
  ordered_by_created_desc rows sorted2 →
  CreatedAt <$> sorted1 = CreatedAt <$> sorted2.
Proof.
  intros [Hp1 Hs1] [Hp2 Hs2].
  assert (Hanti : AntiSymm eq (λ a b : Z, (b ≤ a)%Z))
    by (intros a b; lia).
  apply (StronglySorted_unique (λ a b : Z, (b ≤ a)%Z)).
  - by apply (StronglySorted_fmap CreatedAt created_desc).
  - by apply (StronglySorted_fmap CreatedAt created_desc).
  - by rewrite Hp1, Hp2.
Qed.

Lemma fmap_eq_NoDup {T K} (f : T → K) (l1 l2 : list T) :
  l1 ≡ₚ l2 → f <$> l1 = f <$> l2 → NoDup (f <$> l1) → l1 = l2.
Proof.
  revert l2. induction l1 as [| x l1 IH]; intros l2 Hperm Hf Hnd.
  - by destruct l2.
  - destruct l2 as [| y l2]; [done |].
    rewrite !fmap_cons in Hf. injection Hf as Hxy Hf.
    assert (x = y) as <-.
    { assert (Hy : y ∈ x :: l1) by (rewrite Hperm; left).
      apply elem_of_cons in Hy as [-> | Hy]; [done |].
      rewrite fmap_cons in Hnd. apply NoDup_cons in Hnd as [Hx _].
      exfalso. apply Hx. rewrite Hxy. by apply list_elem_of_fmap_2. }
    f_equal. apply IH; [by apply Permutation_cons_inv in Hperm | done |].
    rewrite fmap_cons in Hnd. by apply NoDup_cons in Hnd as [_ ?].
Qed.

(** When no two rows were created at the same time the server has no
    choice. *)
Lemma ordered_unique rows sorted1 sorted2 :
  NoDup (CreatedAt <$> rows) →
  ordered_by_created_desc rows sorted1 →
  ordered_by_created_desc rows sorted2 →
  sorted1 = sorted2.
Proof.
  intros Hnd H1 H2.
  apply (fmap_eq_NoDup CreatedAt).
  - destruct H1 as [Hp1 _], H2 as [Hp2 _]. by rewrite Hp1, Hp2.
  - by apply (ordered_created_unique rows).
  - destruct H1 as [Hp1 _]. by rewrite Hp1.
Qed.

(** C4. Under a live context, for non-negative [limit] and [offset],
    [List] returns without error a page of the rows of the table in the
    order of their creation times, latest first, whatever the server
    prefers among rows created at the same time: the rows skipped, the
    page and the rows left over are together the rows of the table, no
    row among them comes before a row created later, [offset] rows are
    skipped (all of them when the table holds fewer), and the page holds
    [min limit (n - offset)] rows for a table of [n] rows, whatever
    [limit] is, and none when [offset] is [n] or more.  When no two rows
    were created at the same time the page does not depend on the
    server's preference. *)
Theorem List_page tie ctx limit offset db :
  context.Err ctx = None → (0 ≤ limit)%Z → (0 ≤ offset)%Z →
  ∃ skipped page rest,
    List tie ctx limit offset db = (db, Ok page) ∧
    skipped ++ page ++ rest ≡ₚ users db ∧
    (∀ i j u v,
       (skipped ++ page ++ rest) !! i = Some u →
       (skipped ++ page ++ rest) !! j = Some v →
       (i ≤ j)%nat → (CreatedAt v ≤ CreatedAt u)%Z) ∧
    length skipped = (Z.to_nat offset `min` length (users db))%nat ∧
    length page =
      (Z.to_nat limit `min` (length (users db) - Z.to_nat offset))%nat ∧
    ((length (users db) ≤ Z.to_nat offset)%nat → page = []) ∧
    (NoDup (CreatedAt <$> users db) →
     ∀ tie', List tie' ctx limit offset db = (db, Ok page)).
Proof.
  intros Hctx Hlimit Hoffset.
  pose proof (order_by_created_desc_ok tie (users db)) as Hordered.
  pose proof Hordered as [Hperm Hsorted].
  assert (Hlist : ∀ tie',
    List tie' ctx limit offset db =
      (db, Ok (take (Z.to_nat limit)
                 (drop (Z.to_nat offset)
                    (order_by_created_desc tie' (users db)))))).
  { intros tie'. rewrite List_live by exact Hctx. unfold select_page.
    by rewrite !decide_False by lia. }
  exists (take (Z.to_nat offset) (order_by_created_desc tie (users db))),
         (take (Z.to_nat limit)
            (drop (Z.to_nat offset) (order_by_created_desc tie (users db)))),
         (drop (Z.to_nat limit)
            (drop (Z.to_nat offset) (order_by_created_desc tie (users db)))).
  rewrite !take_drop.
  split; [apply Hlist |].
  split; [exact Hperm |].
  split; [intros i j u v; by apply ordered_lookup |].
  split; [by rewrite length_take, Hperm |].
  split; [by rewrite length_take, length_drop, Hperm |].
  split.
  - intros Hge. rewrite drop_ge; [apply take_nil |]. by rewrite Hperm.
  - intros Hnd tie'. rewrite Hlist.
    by rewrite (ordered_unique (users db) _ _ Hnd Hordered
                  (order_by_created_desc_ok tie' (users db))).
Qed.

(** Three users A, B, C created in that order, in pages of two: the
    second page. *)
Example List_second_page :
  List no_preference context.Background 2 2 three_users =
    (three_users, Ok [userA]).
Proof. vm_compute. reflexivity. Qed.

(** The C4 theorem on [three_users], users A, B, C created in that order:
    the first page of two rows is C then B. *)
Lemma List_page_witness :
  List no_preference context.Background 2 0 three_users =
    (three_users, Ok [userC; userB]).
Proof.
  destruct (List_page no_preference context.Background 2 0 three_users
              eq_refl)
    as (skipped & page & rest & Hlist & _ & _ & _ & _ & _ & Hpage);
    [lia | lia |].
  rewrite (Hpage ltac:(by_compute) no_preference).
  assert (Hsame : (three_users, Ok page) =
                  (three_users, @Ok (list User) [userC; userB])).
  { rewrite <- Hlist. vm_compute. reflexivity. }
  exact Hsame.
Defined.

Lemma update_frame_refl id (rows : list User) :
  Forall2 (update_frame id) rows rows.
Proof.
  apply Forall_Forall2_diag, Forall_true. intros u. by repeat split.
Qed.

Lemma update_user_frame id email db :
  let '(db', _) := update_user id email db in
  users_id_seq db' = users_id_seq db ∧ now db' = now db ∧
  Forall2 (update_frame id) (users db) (users db').
Proof.
  unfold update_user.
  destruct (filter _ (users db)) as [| old rest];
    [auto using update_frame_refl |].
  repeat case_decide; auto using update_frame_refl.
  cbn [users users_id_seq now]. repeat split.
  apply Forall2_fmap_r, Forall_Forall2_diag, Forall_true.
  intros u. cbn. unfold update_frame.
  case_decide; [by repeat split | by repeat split].
Qed.

(** *** The repository keeps the table well formed *)

Lemma table_ok_empty : table_ok postgres.empty.
Proof.
  split; [split; constructor |]. intros u Hu. by apply elem_of_nil in Hu.
Qed.

Lemma insert_user_table_ok email db :
  table_ok db → table_ok (insert_user email db).1.
Proof.
  intros [[Hids Hemails] Hseq]. unfold insert_user.
  assert (Hdrawn : table_ok {| users := users db;
                               users_id_seq := (users_id_seq db + 1)%Z;
                               now := now db |}).
  { split; [split; assumption |]. intros u Hu. apply Hseq in Hu. cbn. lia. }
  repeat case_decide; cbn [fst]; try done.
  split; [split |]; unfold ids, emails in *; cbn [users users_id_seq].
  - rewrite fmap_app. apply NoDup_app. split; [done |].
    split; [| apply NoDup_singleton].
    intros i Hi Hin. apply list_elem_of_singleton in Hin as ->. done.
  - rewrite fmap_app. apply NoDup_app. split; [done |].
    split; [| apply NoDup_singleton].
    intros e He Hin. apply list_elem_of_singleton in Hin as ->. done.
  - intros u Hu. cbn [users users_id_seq] in *.
    apply elem_of_app in Hu as [Hu | Hu].
    + apply Hseq in Hu. lia.
    + apply list_elem_of_singleton in Hu as ->. cbn. lia.
Qed.

Lemma touch_ids id email at_ (rows : list User) :
  ID <$> ((λ u, if decide (ID u = id) then set_email email at_ u else u)
            <$> rows) = ID <$> rows.
Proof.
  rewrite <- list_fmap_compose. apply list_fmap_ext.
  intros i u _. cbn. by case_decide.
Qed.

Lemma touch_NoDup_emails id email at_ (rows : list User) :
  NoDup (ID <$> rows) → NoDup (Email <$> rows) →
  (∀ u, u ∈ rows → ID u ≠ id → Email u ≠ email) →
  NoDup (Email <$>
           ((λ u, if decide (ID u = id) then set_email email at_ u else u)
              <$> rows)).
Proof.
  induction rows as [| u rows IH]; intros Hids Hemails Hfree; [constructor |].
  rewrite !fmap_cons in *. apply NoDup_cons in Hids as [Hid Hids].
  apply NoDup_cons in Hemails as [Hemail Hemails].
  assert (Hfree' : ∀ v, v ∈ rows → ID v ≠ id → Email v ≠ email)
    by (intros v Hv; apply Hfree; by right).
  apply NoDup_cons. split; [| by apply IH].
  intros Hin. apply list_elem_of_fmap in Hin as (w & Hw & Hin).
  apply list_elem_of_fmap in Hin as (v & -> & Hv).
  assert (Hvu : ID v ≠ ID u).
  { intros Heq. apply Hid. rewrite <- Heq. by apply list_elem_of_fmap_2. }
  destruct (decide (ID u = id)) as [Hu | Hu];
    destruct (decide (ID v = id)) as [Hv' | Hv']; cbn in Hw.
  - congruence.
  - by apply (Hfree' v).
  - apply (Hfree u); [by left | done | done].
  - apply Hemail. rewrite Hw. by apply list_elem_of_fmap_2.
Qed.

Lemma update_user_table_ok id email db :
  table_ok db → table_ok (update_user id email db).1.
Proof.
  intros [[Hids Hemails] Hseq]. unfold update_user.
  destruct (filter _ (users db)) as [| old rest]; [done |].
  case_decide; [done |]. case_decide as Hex; [done |].
  cbn [fst]. unfold table_ok, schema_ok, seq_ahead, ids, emails in *.
  cbn [users users_id_seq]. split; [split |].
  - by rewrite touch_ids.
  - apply touch_NoDup_emails; [done | done |].
    intros u Hu Hne He. apply Hex, Exists_exists. eauto.
  - intros u' Hu'. apply list_elem_of_fmap in Hu' as (u & -> & Hu).
    apply Hseq in Hu. by case_decide.
Qed.

Lemma delete_user_table_ok id db :
  table_ok db → table_ok (delete_user id db).1.
Proof.
  intros [[Hids Hemails] Hseq]. unfold delete_user. cbn [fst].
  unfold table_ok, schema_ok, seq_ahead, ids, emails in *.
  cbn [users users_id_seq]. split; [split |].
  - eapply sublist_NoDup; [exact Hids |]. apply fmap_sublist, sublist_filter.
  - eapply sublist_NoDup; [exact Hemails |]. apply fmap_sublist, sublist_filter.
  - intros u Hu. apply list_elem_of_filter in Hu as [_ Hu]. by apply Hseq.
Qed.

(** *** Timestamps and the clock *)

Lemma rows_not_future_empty : rows_not_future postgres.empty.
Proof. intros u Hu. by apply elem_of_nil in Hu. Qed.

Lemma insert_user_rows_not_future email db :
  rows_not_future db → rows_not_future (insert_user email db).1.
Proof.
  intros Hrows. unfold insert_user.
  repeat case_decide; cbn [fst]; try done.
  intros u Hu. cbn [users now] in *. apply elem_of_app in Hu as [Hu | Hu].
  - by apply Hrows.
  - apply list_elem_of_singleton in Hu as ->. cbn. lia.
Qed.

Lemma update_user_rows_not_future id email db :
  rows_not_future db → rows_not_future (update_user id email db).1.
Proof.
  intros Hrows. unfold update_user.
  destruct (filter _ (users db)) as [| old rest]; [done |].
  repeat case_decide; cbn [fst]; try done.
  intros u' Hu'. cbn [users now] in *.
  apply list_elem_of_fmap in Hu' as (u & -> & Hu).
  apply Hrows in Hu. case_decide; cbn; lia.
Qed.

Lemma delete_user_rows_not_future id db :
  rows_not_future db → rows_not_future (delete_user id db).1.
Proof.
  intros Hrows u Hu. cbn in Hu.
  apply list_elem_of_filter in Hu as [_ Hu]. by apply Hrows.
Qed.

(** When time passes, the table stays well formed, and the clock is ahead
    of every row as soon as it has moved at all. *)
Lemma tick_table (d : Z) db :
  (table_ok db → table_ok (tick d db)) ∧
  (rows_not_future db → (0 ≤ d)%Z → rows_not_future (tick d db)) ∧
  (rows_not_future db → (0 < d)%Z → clock_ahead (tick d db)).
Proof.
  split; [done |]. split.
  - intros Hrows Hd u Hu. cbn in *. apply Hrows in Hu. lia.
  - intros Hrows Hd u Hu. cbn in *. apply Hrows in Hu. lia.
Qed.

(** The database a call through [QueryRow], [Query] or [Exec] leaves is
    the one its statement leaves, or the one before under a failed
    context. *)
Lemma QueryRow_db {A} ctx (query : DB → DB * result (list A)) db :
  (pgxpool.QueryRow ctx query db).1 =
    match context.Err ctx with Some _ => db | None => (query db).1 end.
Proof.
  unfold pgxpool.QueryRow, pgxpool.round_trip.
  destruct (context.Err ctx); [reflexivity |]. by destruct (query db).
Qed.

Lemma round_trip_db {A} ctx (stmt : DB → DB * result A) db :
  (pgxpool.round_trip ctx stmt db).1 =
    match context.Err ctx with Some _ => db | None => (stmt db).1 end.
Proof. unfold pgxpool.round_trip. by destruct (context.Err ctx). Qed.

Lemma Create_db ctx user db :
  (Create ctx user db).1 = (pgxpool.QueryRow ctx (insert_user (Email user)) db).1.
Proof. unfold Create. by destruct (pgxpool.QueryRow _ _ _) as [? [? | ?]]. Qed.

Lemma Update_db ctx user db :
  (Update ctx user db).1 =
    (pgxpool.QueryRow ctx
       (pgxpool.int4_arg (ID user) (λ id, update_user id (Email user))) db).1.
Proof. unfold Update. by destruct (pgxpool.QueryRow _ _ _) as [? [? | ?]]. Qed.

Lemma Delete_db ctx id db :
  (Delete ctx id db).1 =
    (pgxpool.round_trip ctx (pgxpool.int4_arg id delete_user) db).1.
Proof.
  unfold Delete, pgxpool.Exec.
  by destruct (pgxpool.round_trip _ _ _) as [? [? | ?]].
Qed.

(** What holds of the database before a statement and after it holds after
    the statement behind the encoding of its argument. *)
Lemma int4_arg_keeps {A} (P : DB → Prop) id
    (stmt : Z → DB → DB * result A) db :
  P db → P (stmt id db).1 → P (pgxpool.int4_arg id stmt db).1.
Proof.
  intros Hdb Hstmt. by destruct (int4_arg_cases id stmt db) as [-> | ->].
Qed.

(** The writing operations keep every row's timestamps in order and not
    ahead of the clock. *)
Lemma repository_rows_not_future ctx user id db :
  rows_not_future db →
  rows_not_future (Create ctx user db).1 ∧
  rows_not_future (Update ctx user db).1 ∧
  rows_not_future (Delete ctx id db).1.
Proof.
  intros Hrows.
  rewrite Create_db, Update_db, Delete_db, !QueryRow_db, round_trip_db.
  refine (conj _ (conj _ _)); destruct (context.Err ctx); try done.
  - by apply insert_user_rows_not_future.
  - apply int4_arg_keeps; [done |]. by apply update_user_rows_not_future.
  - apply int4_arg_keeps; [done |]. by apply delete_user_rows_not_future.
Qed.

(** Every operation of the repository takes a well-formed table to a
    well-formed table; the reading ones leave the database as it is. *)
Lemma repository_table_ok tie ctx user id email limit offset db :
  table_ok db →
  table_ok (Create ctx user db).1 ∧
  table_ok (Update ctx user db).1 ∧
  table_ok (Delete ctx id db).1 ∧
  (GetByID ctx id db).1 = db ∧
  (GetByEmail ctx email db).1 = db ∧
  (List tie ctx limit offset db).1 = db.
Proof.
  intros Hok.
  rewrite Create_db, Update_db, Delete_db, !QueryRow_db, round_trip_db.
  refine (conj _ (conj _ (conj _ (conj _ (conj _ _))))).
  - destruct (context.Err ctx); [done | by apply insert_user_table_ok].
  - destruct (context.Err ctx); [done |].
    apply int4_arg_keeps; [done |]. by apply update_user_table_ok.
  - destruct (context.Err ctx); [done |].
    apply int4_arg_keeps; [done |]. by apply delete_user_table_ok.
  - unfold GetByID. rewrite (surjective_pairing (pgxpool.QueryRow _ _ _)).
    rewrite QueryRow_db.
    assert ((pgxpool.int4_arg id select_by_id db).1 = db)
      by (by apply (int4_arg_keeps (λ db', db' = db))).
    by destruct (context.Err ctx), (pgxpool.QueryRow _ _ _).2.
  - unfold GetByEmail. rewrite (surjective_pairing (pgxpool.QueryRow _ _ _)).
    rewrite QueryRow_db. unfold select_by_email.
    by destruct (context.Err ctx), (pgxpool.QueryRow _ _ _).2.
  - unfold List, pgxpool.Query, select_page.
    destruct (context.Err ctx); [done |].
    repeat case_decide; cbn [pgxpool.rows_read pgxpool.rows_Err scan_users];
      try done.
    by rewrite scan_users_ok.
Qed.

(** [Update] under a live context, for an argument the driver encodes. *)
Lemma Update_encoded ctx user db :
  context.Err ctx = None →
  int4 (ID user) ∨ ID user ∈ ids db →
  Update ctx user db =
    match update_user (ID user) (Email user) db with
    | (db', Ok []) => (db', Err (Errorf_w "failed to update user" ErrNoRows))
    | (db', Ok (row :: _)) => (db', Ok row)
    | (db', Err err) => (db', Err (Errorf_w "failed to update user" err))
    end.
Proof.
  intros Hctx Hid. unfold_repo. rewrite Hctx.
  unfold pgxpool.int4_arg. rewrite decide_True by exact Hid.
  by destruct (update_user _ _ db) as [db' [[| row rows] | err]].
Qed.

(** C6 (as amended). [Update] leaves the sequence, the clock, every row
    with another identifier, and the identifier and creation time of
    every row as they were, whatever its outcome.  Under a live context,
    for an identifier in storage and an email the column accepts and no
    other row holds, it returns the stored row with the new email and
    with [updated_at] set to the server clock: later than before exactly
    when the clock has moved on since the row was last written, and not
    earlier than before in a table no row of which is ahead of the clock.
    For an identifier not in storage it fails. *)
Theorem Update_frame ctx user db :
  (∀ db' r, Update ctx user db = (db', r) →
     users_id_seq db' = users_id_seq db ∧ now db' = now db ∧
     Forall2 (update_frame (ID user)) (users db) (users db')) ∧
  (context.Err ctx = None →
   ID user ∈ ids db →
   (String.length (Email user) ≤ 255)%nat →
   (∀ u, u ∈ users db → Email u = Email user → ID u = ID user) →
   ∃ db' old updated,
     Update ctx user db = (db', Ok updated) ∧
     old ∈ users db ∧ updated ∈ users db' ∧
     ID updated = ID user ∧ ID updated = ID old ∧
     CreatedAt updated = CreatedAt old ∧
     Email updated = Email user ∧
     UpdatedAt updated = now db ∧
     ((UpdatedAt old < UpdatedAt updated)%Z ↔ (UpdatedAt old < now db)%Z) ∧
     (rows_not_future db → (UpdatedAt old ≤ UpdatedAt updated)%Z) ∧
     (clock_ahead db → (UpdatedAt old < UpdatedAt updated)%Z)) ∧
  (ID user ∉ ids db → ∃ err, Update ctx user db = (db, Err err)).
Proof.
  split; [| split].
  - intros db' r. unfold_repo.
    destruct (context.Err ctx) as [err |].
    { intros [= <- _]. auto using update_frame_refl. }
    unfold pgxpool.int4_arg.
    case_decide; [| intros [= <- _]; auto using update_frame_refl].
    pose proof (update_user_frame (ID user) (Email user) db) as Hframe.
    destruct (update_user (ID user) (Email user) db) as [db1 [rows | err]].
    + destruct rows; intros [= <- _]; exact Hframe.
    + intros [= <- _]. exact Hframe.
  - intros Hctx Hid Hlen Hfree.
    rewrite Update_encoded by auto.
    apply list_elem_of_fmap in Hid as (old0 & Hid0 & Hold0).
    assert (Hhit : old0 ∈ filter (λ u, ID u = ID user) (users db))
      by (apply list_elem_of_filter; done).
    unfold update_user.
    destruct (filter (λ u, ID u = ID user) (users db)) as [| old rest] eqn:Hf;
      [by apply elem_of_nil in Hhit |].
    assert (Hold : ID old = ID user ∧ old ∈ users db).
    { apply (list_elem_of_filter (λ u, ID u = ID user)).
      rewrite Hf. apply list_elem_of_here. }
    destruct Hold as [Hold_id Hold_in].
    rewrite decide_False by lia.
    rewrite decide_False.
    2:{ rewrite Exists_exists. intros (u & Hu & Hne & He). eauto. }
    cbn [fmap list_fmap]. rewrite decide_True by exact Hold_id.
    eexists _, old, _. split; [reflexivity |].
    cbn [users ID CreatedAt Email UpdatedAt set_email].
    repeat split; try done.
    + apply list_elem_of_fmap. exists old. split; [| exact Hold_in].
      by rewrite decide_True.
    + intros Hrows. apply Hrows in Hold_in. lia.
    + intros Hclock. by apply Hclock.
  - intros Hid. unfold_repo.
    destruct (context.Err ctx) as [err |]; [eauto |].
    unfold pgxpool.int4_arg. case_decide; [| eauto].
    unfold update_user. rewrite filter_ID_nil by exact Hid. eauto.
Qed.

(** A user is created, five microseconds pass, and the user gets a new
    email: the identifier and the creation time stay, the update time moves
    on. *)
Example Create_tick_Update :
  let db1 := (Create context.Background (mkUser 0 "ann@example.org" 0 0)
                postgres.empty).1 in
  (Update context.Background (mkUser 1 "ann@example.com" 0 0) (tick 5 db1)).2
    = Ok (mkUser 1 "ann@example.com" 0 5).
Proof. vm_compute. reflexivity. Qed.

(** The C6 theorem on [one_user], giving id 1 a new email. *)
Lemma Update_frame_witness :
  ∃ db' updated,
    Update context.Background (mkUser 1 "ann@example.com" 0 0) one_user
      = (db', Ok updated) ∧
    ID updated = 1%Z ∧ CreatedAt updated = 10%Z ∧ UpdatedAt updated = 20%Z.
Proof.
  assert (Hid : ID (mkUser 1 "ann@example.com" 0 0) ∈ ids one_user)
    by by_compute.
  assert (Hlen : (String.length (Email (mkUser 1 "ann@example.com" 0 0)) ≤ 255)%nat)
    by by_compute.
  assert (Hfree : ∀ u, u ∈ users one_user →
            Email u = Email (mkUser 1 "ann@example.com" 0 0) →
            ID u = ID (mkUser 1 "ann@example.com" 0 0)).
  { intros u Hu _. apply list_elem_of_singleton in Hu as ->. reflexivity. }
  destruct (proj1 (proj2 (Update_frame context.Background
                            (mkUser 1 "ann@example.com" 0 0) one_user))
              eq_refl Hid Hlen Hfree)
    as (db' & old & updated & Hupd & Hold & _ & Hi & _ & Hc & _ & Hu & _).
  exists db', updated. apply list_elem_of_singleton in Hold as ->.
  auto.
Defined.

(** C6 (as stated) fails in its clause on [updated_at]: a user created on
    the empty table and updated while the server clock still reads the
    same time keeps the [updated_at] it had; the update does not move it
    strictly forward. *)
Lemma Update_not_strictly_forward :
  ∃ db1 created db2 updated,
    Create context.Background (mkUser 0 "ann@example.org" 0 0) postgres.empty
      = (db1, Ok created) ∧
    ID created ∈ ids db1 ∧
    Update context.Background (mkUser (ID created) "ann@example.com" 0 0) db1
      = (db2, Ok updated) ∧
    Email updated = "ann@example.com" ∧
    UpdatedAt updated = UpdatedAt created ∧
    ¬ (UpdatedAt created < UpdatedAt updated)%Z.
Proof.
  eexists _, _, _, _. split; [vm_compute; reflexivity |].
  split; [by_compute |]. split; [vm_compute; reflexivity |].
  split; [reflexivity |]. split; [reflexivity |]. cbn. lia.
Qed.

End repositories_facts.

Section routers_facts.
Import routers.

(** The routes [SetupRoutes] registers. *)
Lemma router_mux :
  mux router =
    [(http.mkPattern "GET" "/health", healthCheckHandler);
     (http.mkPattern "GET" "/api/v1/status", statusHandler)].
Proof. reflexivity. Qed.

Lemma matchingMethods_router path :
  http.matchingMethods (mux router) path =
    if decide (registered (http.segments path)) then ["GET"; "HEAD"] else [].
Proof.
  rewrite router_mux. unfold http.matchingMethods, registered. cbv zeta.
  unfold http.ServeMux. rewrite !filter_cons, filter_nil. cbn [fst http.pat_path].
  change (http.segments "/health") with ["health"].
  change (http.segments "/api/v1/status") with ["api"; "v1"; "status"].
  destruct (decide (["health"] = http.segments path)) as [H1 | H1];
    destruct (decide (["api"; "v1"; "status"] = http.segments path))
      as [H2 | H2];
    case_decide as Hreg; try (vm_compute; reflexivity); exfalso;
    first [ by apply Hreg; left | by apply Hreg; right
          | destruct Hreg; congruence ].
Qed.

(** What the mux answers to a canonical request that matches no route. *)
Lemma ServeHTTP_unmatched req :
  http.RequestURI_star req = false →
  http.Method req = "CONNECT" ∨
    http.cleanPath (http.EscapedPath req) = http.EscapedPath req →
  ¬ route_matches router req →
  ServeHTTP router req =
    http.Written
      (if decide (registered (http.segments (http.EscapedPath req)))
       then http.MethodNotAllowed ["GET"; "HEAD"] req
       else http.NotFound req).
Proof.
  intros Hstar Hcanon Hno.
  assert (Hpath : (if decide (http.Method req = "CONNECT")
                   then http.EscapedPath req
                   else http.cleanPath (http.EscapedPath req))
                  = http.EscapedPath req).
  { case_decide; [reflexivity |]. destruct Hcanon; [done | assumption]. }
  unfold route_matches in Hno. rewrite Hpath in Hno.
  apply eq_None_not_Some in Hno.
  unfold ServeHTTP, http.ServeHTTP. rewrite Hstar. cbn zeta.
  rewrite Hpath, Hno. rewrite decide_False by (intros Hne; by apply Hne).
  rewrite matchingMethods_router.
  destruct (decide (registered (http.segments (http.EscapedPath req))));
    reflexivity.
Qed.

Lemma Error_Content_Type h error code :
  http.Header (http.Error h error code) !! "Content-Type" =
    Some "text/plain; charset=utf-8".
Proof.
  unfold http.Error. cbn [http.Header].
  rewrite lookup_insert_ne by (by_compute). apply lookup_insert_eq.
Qed.

(** C8 (as amended). A request that matches no registered route and is in
    canonical form (its target is not [*], its path is clean or its method
    is CONNECT) is answered by the standard mux, never by a JSON body:
    with status 405, an [Allow] header and the plain text
    [Method Not Allowed] when its path is registered under another method,
    and with status 404 and the plain text [404 page not found] otherwise.
    A request target [*] is answered 400 with an empty body, and a request
    whose path is not clean is answered with a redirect toward the clean
    path, whose status and target are the matter of [net/http]. *)
Theorem Router_unmatched req :
  (http.RequestURI_star req = false →
   http.Method req = "CONNECT" ∨
     http.cleanPath (http.EscapedPath req) = http.EscapedPath req →
   ¬ route_matches router req →
   ∃ resp,
     ServeHTTP router req = http.Written resp ∧
     resp = (if decide (registered (http.segments (http.EscapedPath req)))
             then http.MethodNotAllowed ["GET"; "HEAD"] req
             else http.NotFound req) ∧
     http.StatusCode resp =
       (if decide (registered (http.segments (http.EscapedPath req)))
        then 405%Z else 404%Z) ∧
     http.Header resp !! "Content-Type" = Some "text/plain; charset=utf-8" ∧
     ¬ declares_json resp ∧
     (http.StatusCode resp = 404%Z →
      http.Body resp = "404 page not found" ++ http.newline)) ∧
  (http.RequestURI_star req = true →
   ∃ resp, ServeHTTP router req = http.Written resp ∧
           http.StatusCode resp = 400%Z ∧ http.Body resp = EmptyString) ∧
  (http.RequestURI_star req = false →
   http.Method req ≠ "CONNECT" →
   http.cleanPath (http.EscapedPath req) ≠ http.EscapedPath req →
   ServeHTTP router req =
     http.Redirected (http.cleanPath (http.EscapedPath req)) ∧
   ∀ resp, ServeHTTP router req ≠ http.Written resp).
Proof.
  split; [| split].
  - intros Hstar Hcanon Hno.
    rewrite ServeHTTP_unmatched by assumption.
    eexists. split; [reflexivity |]. split; [reflexivity |].
    unfold declares_json.
    destruct (decide (registered (http.segments (http.EscapedPath req))));
      unfold http.MethodNotAllowed, http.NotFound;
      rewrite Error_Content_Type; repeat split; done.
  - intros Hstar. unfold ServeHTTP, http.ServeHTTP. rewrite Hstar.
    eexists. repeat split.
  - intros Hstar Hm Hne. unfold ServeHTTP, http.ServeHTTP. rewrite Hstar.
    cbn zeta. rewrite (decide_False (P := http.Method req = "CONNECT"))
      by exact Hm.
    rewrite decide_True by exact Hne. split; [reflexivity | discriminate].
Qed.

(** The C8 theorem at [GET /nope]. *)
Lemma Router_unmatched_witness :
  ∃ resp,
    ServeHTTP router (http.mkRequest "GET" false true "/nope")
      = http.Written resp ∧
    http.StatusCode resp = 404%Z ∧
    http.Header resp !! "Content-Type" = Some "text/plain; charset=utf-8".
Proof.
  assert (Hcanon :
    http.Method (http.mkRequest "GET" false true "/nope") = "CONNECT" ∨
    http.cleanPath (http.EscapedPath (http.mkRequest "GET" false true "/nope"))
      = http.EscapedPath (http.mkRequest "GET" false true "/nope"))
    by (right; vm_compute; reflexivity).
  assert (Hno : ¬ route_matches router (http.mkRequest "GET" false true "/nope"))
    by (unfold route_matches; by_compute).
  destruct (proj1 (Router_unmatched (http.mkRequest "GET" false true "/nope"))
              eq_refl Hcanon Hno)
    as (resp & Hserve & _ & Hcode & Hct & _).
  exists resp. split; [exact Hserve |]. split; [| exact Hct].
  rewrite Hcode. apply decide_False. unfold registered. by_compute.
Defined.

(** C8 (as stated) fails: [GET /nope], [POST /health], [GET //nope] and
    [OPTIONS *] match no registered route; the first is answered 404 with
    the plain text [404 page not found] and not with a JSON body, the
    others are not answered 404 at all but 405, a redirect toward
    [/nope] and 400. *)
Lemma Router_unmatched_not_json :
  let nope := http.mkRequest "GET" false true "/nope" in
  let post := http.mkRequest "POST" false true "/health" in
  let unclean := http.mkRequest "GET" false true "//nope" in
  let star := http.mkRequest "OPTIONS" true true "*" in
  (¬ route_matches router nope ∧
   ServeHTTP router nope = http.Written (http.NotFound nope) ∧
   http.Body (http.NotFound nope) = "404 page not found" ++ http.newline ∧
   ¬ ∃ resp, ServeHTTP router nope = http.Written resp ∧
             http.StatusCode resp = 404%Z ∧ declares_json resp) ∧
  (¬ route_matches router post ∧
   ¬ ∃ resp, ServeHTTP router post = http.Written resp ∧
             http.StatusCode resp = 404%Z) ∧
  (¬ route_matches router unclean ∧
   ServeHTTP router unclean = http.Redirected "/nope") ∧
  (¬ route_matches router star ∧
   ¬ ∃ resp, ServeHTTP router star = http.Written resp ∧
             http.StatusCode resp = 404%Z).
Proof.
  intros nope post unclean star.
  assert (Hnope : ¬ route_matches router nope)
    by (unfold route_matches; by_compute).
  assert (Hpost : ¬ route_matches router post)
    by (unfold route_matches; by_compute).
  assert (Hunclean : ¬ route_matches router unclean)
    by (unfold route_matches; by_compute).
  assert (Hstar : ¬ route_matches router star)
    by (unfold route_matches; by_compute).
  assert (Hserve_nope : ServeHTTP router nope = http.Written (http.NotFound nope)).
  { rewrite ServeHTTP_unmatched;
      [| reflexivity | right; vm_compute; reflexivity | exact Hnope].
    rewrite decide_False; [reflexivity |]. unfold registered. by_compute. }
  assert (Hserve_post : ServeHTTP router post =
            http.Written (http.MethodNotAllowed ["GET"; "HEAD"] post)).
  { rewrite ServeHTTP_unmatched;
      [| reflexivity | right; vm_compute; reflexivity | exact Hpost].
    rewrite decide_True; [reflexivity |]. unfold registered. by_compute. }
  refine (conj (conj Hnope (conj Hserve_nope (conj eq_refl _)))
            (conj (conj Hpost _) (conj (conj Hunclean _) (conj Hstar _)))).
  - intros (resp & Hresp & _ & Hjson). rewrite Hserve_nope in Hresp.
    injection Hresp as <-. unfold declares_json, http.NotFound in Hjson.
    rewrite Error_Content_Type in Hjson. discriminate Hjson.
  - intros (resp & Hresp & Hcode). rewrite Hserve_post in Hresp.
    injection Hresp as <-. discriminate Hcode.
  - vm_compute. reflexivity.
  - intros (resp & Hresp & Hcode). unfold ServeHTTP, http.ServeHTTP in Hresp.
    cbn [http.RequestURI_star star] in Hresp.
    injection Hresp as <-. discriminate Hcode.
Qed.

End routers_facts.

(** ** Further properties *)

Section string_facts.

Lemma string_app_cons c s1 s2 : String c s1 ++ s2 = String c (s1 ++ s2).
Proof. reflexivity. Qed.

Lemma string_length_app s1 s2 :
  String.length (s1 ++ s2) = (String.length s1 + String.length s2)%nat.
Proof.
  induction s1 as [| c s1 IH]; [reflexivity |].
  rewrite string_app_cons. cbn. by rewrite IH.
Qed.

Lemma string_length_substring n s :
  String.length (String.substring 0 n s) = (n `min` String.length s)%nat.
Proof.
  revert n. induction s as [| c s IH]; intros [| n]; cbn; try reflexivity.
  by rewrite IH.
Qed.

Lemma string_prefix_app s1 s2 : String.prefix s1 (s1 ++ s2) = true.
Proof.
  induction s1 as [| c s1 IH]; [by destruct s2 |].
  rewrite string_app_cons. cbn. by destruct (ascii_dec c c).
Qed.

Lemma string_substring_all n s :
  (String.length s ≤ n)%nat → String.substring 0 n s = s.
Proof.
  revert n. induction s as [| c s IH]; intros [| n] Hn; cbn in *;
    try reflexivity; try lia.
  f_equal. apply IH. lia.
Qed.

End string_facts.

Section observability_facts.
Import zerolog_level logger observability.

Lemma validLevels_true level :
  default false (validLevels !! level) = true ↔
  level ∈ ["debug"; "info"; "warn"; "error"].
Proof.
  unfold validLevels. rewrite !lookup_insert, lookup_empty.
  rewrite !elem_of_cons, elem_of_nil.
  repeat case_decide; cbn; naive_solver.
Qed.

Lemma Validate_None c :
  Validate c = None ↔
  ServiceName c ≠ EmptyString ∧
  Level (Logging c) ∈ ["debug"; "info"; "warn"; "error"] ∧
  (0 ≤ SlowQueryThreshold (Logging c))%Z.
Proof.
  unfold Validate. rewrite <- validLevels_true.
  destruct (decide (ServiceName c = EmptyString)); [naive_solver |].
  destruct (default false (validLevels !! Level (Logging c))); cbn;
    [| naive_solver].
  case_decide; [| naive_solver lia].
  split; [done |]. intros (_ & _ & ?). lia.
Qed.

Lemma Validate_default : Validate DefaultObservabilityConfig = None.
Proof. vm_compute. reflexivity. Qed.

(** X1. [Validate] accepts a configuration exactly when its service name
    is not empty, its logging level is one of debug, info, warn, error, and
    its slow-query threshold is not negative; the checks are made in that
    order, so an empty service name is what is reported whatever else is
    wrong. *)
Theorem Validate_accepts c :
  (Validate c = None ↔
     ServiceName c ≠ EmptyString ∧
     Level (Logging c) ∈ ["debug"; "info"; "warn"; "error"] ∧
     (0 ≤ SlowQueryThreshold (Logging c))%Z) ∧
  (ServiceName c = EmptyString →
     Validate c = Some (mkErrorString "service_name is required")) ∧
  Validate DefaultObservabilityConfig = None.
Proof.
  split; [apply Validate_None |]. split; [| apply Validate_default].
  intros Hname. unfold Validate. by rewrite decide_True.
Qed.

(** The X1 theorem at a configuration without a service name. *)
Lemma Validate_accepts_witness :
  Validate (mkObservabilityConfig EmptyString "production"
              (mkLoggingConfig "loud" "json" (-1))
              (mkNewRelicConfig EmptyString false false false)
              (mkHealthChecksConfig false 0 0 []))
    = Some (mkErrorString "service_name is required").
Proof.
  exact (proj1 (proj2 (Validate_accepts
           (mkObservabilityConfig EmptyString "production"
              (mkLoggingConfig "loud" "json" (-1))
              (mkNewRelicConfig EmptyString false false false)
              (mkHealthChecksConfig false 0 0 [])))) eq_refl).
Defined.

Lemma GetLogLevel_cases c :
  (Level (Logging c) ≠ EmptyString → GetLogLevel c = Level (Logging c)) ∧
  (Level (Logging c) = EmptyString →
     GetLogLevel c =
       if decide (Environment c = "production") then "info"
       else if decide (Environment c = "development") then "debug"
       else EmptyString) ∧
  (GetLogLevel c = EmptyString ↔
     Level (Logging c) = EmptyString ∧
     Environment c ≠ "production" ∧ Environment c ≠ "development").
Proof.
  unfold GetLogLevel.
  destruct (decide (Environment c = "production")) as [Hp | Hp];
    destruct (decide (Environment c = "development")) as [Hd | Hd];
    destruct (decide (Level (Logging c) = EmptyString)) as [Hl | Hl];
    repeat split; try done; try congruence; naive_solver.
Qed.

(** X2. [GetLogLevel] returns the configured level when there is one; for
    an empty level it returns info in production and debug in development,
    and the empty string in every other environment. *)
Theorem GetLogLevel_defaults c :
  (Level (Logging c) ≠ EmptyString → GetLogLevel c = Level (Logging c)) ∧
  (Level (Logging c) = EmptyString →
     GetLogLevel c =
       if decide (Environment c = "production") then "info"
       else if decide (Environment c = "development") then "debug"
       else EmptyString) ∧
  (GetLogLevel c = EmptyString ↔
     Level (Logging c) = EmptyString ∧
     Environment c ≠ "production" ∧ Environment c ≠ "development").
Proof.
  pose proof (GetLogLevel_cases c) as (Hset & Hunset & Hempty).
  split; [exact Hset |]. split; [exact Hunset | exact Hempty].
Qed.

(** The X2 theorem at a staging configuration without a level. *)
Lemma GetLogLevel_defaults_witness :
  GetLogLevel (mkObservabilityConfig "api" "staging"
                 (mkLoggingConfig EmptyString "json" 0)
                 (mkNewRelicConfig EmptyString false false false)
                 (mkHealthChecksConfig false 0 0 [])) = EmptyString.
Proof.
  apply (proj2 (proj2 (GetLogLevel_defaults _))).
  repeat split; by_compute.
Defined.

Lemma logLevel_of_cases level :
  (level = "debug" ∧ logLevel_of level = DebugLevel) ∨
  (level = "info" ∧ logLevel_of level = InfoLevel) ∨
  (level = "warn" ∧ logLevel_of level = WarnLevel) ∨
  (level = "error" ∧ logLevel_of level = ErrorLevel) ∨
  (level ∉ ["debug"; "info"; "warn"; "error"] ∧
   logLevel_of level = InfoLevel).
Proof.
  unfold logLevel_of.
  destruct (decide (level = "debug")) as [-> | H1]; [by left |].
  destruct (decide (level = "info")) as [-> | H2]; [by right; left |].
  destruct (decide (level = "warn")) as [-> | H3]; [by do 2 right; left |].
  destruct (decide (level = "error")) as [-> | H4]; [by do 3 right; left |].
  do 4 right. split; [| reflexivity]. intros Hin.
  repeat (apply elem_of_cons in Hin as [Hin | Hin]; [done |]).
  by apply elem_of_nil in Hin.
Qed.

(** X3. The logger that [NewLoggerWithService] builds has one of the
    levels debug, info, warn, error, so that it writes every event of level
    error and above.  For a configuration that [Validate] accepts, its
    level is the one the configuration names; a level name that is not one
    of the four, such as fatal, gives info; no level name gives debug in
    development and info elsewhere. *)
Theorem NewLoggerWithService_level cfg :
  let l := GetLevel (NewLoggerWithService cfg) in
  l ∈ [DebugLevel; InfoLevel; WarnLevel; ErrorLevel] ∧
  should l ErrorLevel = true ∧ should l FatalLevel = true ∧
  (Validate cfg = None →
     (Level (Logging cfg) = "debug" ∧ l = DebugLevel) ∨
     (Level (Logging cfg) = "info" ∧ l = InfoLevel) ∨
     (Level (Logging cfg) = "warn" ∧ l = WarnLevel) ∨
     (Level (Logging cfg) = "error" ∧ l = ErrorLevel)) ∧
  (Level (Logging cfg) ∉ [EmptyString; "debug"; "info"; "warn"; "error"] →
     l = InfoLevel) ∧
  (Level (Logging cfg) = EmptyString →
     l = if decide (Environment cfg = "development") then DebugLevel
         else InfoLevel).
Proof.
  intros l.
  assert (Hl : l = logLevel_of (GetLogLevel cfg)).
  { unfold l, NewLoggerWithService. by destruct (negb (IsProduction cfg)). }
  clearbody l. subst l.
  pose proof (GetLogLevel_cases cfg) as (Hset & Hunset & _).
  split; [| split; [| split; [| split; [| split]]]].
  - destruct (logLevel_of_cases (GetLogLevel cfg))
      as [[_ ->] | [[_ ->] | [[_ ->] | [[_ ->] | [_ ->]]]]]; by_compute.
  - destruct (logLevel_of_cases (GetLogLevel cfg))
      as [[_ ->] | [[_ ->] | [[_ ->] | [[_ ->] | [_ ->]]]]]; reflexivity.
  - destruct (logLevel_of_cases (GetLogLevel cfg))
      as [[_ ->] | [[_ ->] | [[_ ->] | [[_ ->] | [_ ->]]]]]; reflexivity.
  - intros Hvalid. apply Validate_None in Hvalid as (_ & Hlevel & _).
    rewrite Hset.
    2:{ intros He. rewrite He in Hlevel. revert Hlevel. by_compute. }
    destruct (logLevel_of_cases (Level (Logging cfg)))
      as [? | [? | [? | [? | [? _]]]]]; by eauto 10.
  - intros Hother. rewrite not_elem_of_cons in Hother.
    destruct Hother as [Hne Hother]. rewrite Hset by done.
    destruct (logLevel_of_cases (Level (Logging cfg)))
      as [[? _] | [[? _] | [[? _] | [[? _] | [_ ?]]]]]; try done;
      exfalso; apply Hother; subst; rewrite H; by_compute.
  - intros Hempty. rewrite Hunset by done.
    repeat case_decide; try reflexivity; congruence.
Qed.

(** The X3 theorem at the default configuration. *)
Lemma NewLoggerWithService_level_witness :
  GetLevel (NewLoggerWithService DefaultObservabilityConfig) = InfoLevel.
Proof.
  destruct (proj1 (proj2 (proj2 (proj2
              (NewLoggerWithService_level DefaultObservabilityConfig))))
              Validate_default)
    as [[H _] | [[_ H] | [[H _] | [H _]]]];
    [discriminate H | exact H | discriminate H | discriminate H].
Defined.

(** X4. [GetPgxTraceLogLevel] gives the pgx levels 6, 4, 3, 2 to debug,
    info, warn, error, and 0 (no tracing) to every other level, trace
    included; on the four levels a more verbose logger gets a trace level
    at least as high.  The level of a logger built by
    [NewLoggerWithService] is therefore never mapped to 0. *)
Theorem GetPgxTraceLogLevel_never_none :
  (∀ level,
     GetPgxTraceLogLevel level = 0%Z ↔
     level ∉ [DebugLevel; InfoLevel; WarnLevel; ErrorLevel]) ∧
  (∀ l1 l2,
     l1 ∈ [DebugLevel; InfoLevel; WarnLevel; ErrorLevel] →
     l2 ∈ [DebugLevel; InfoLevel; WarnLevel; ErrorLevel] →
     (to_Z l1 ≤ to_Z l2)%Z →
     (GetPgxTraceLogLevel l2 ≤ GetPgxTraceLogLevel l1)%Z) ∧
  (∀ cfg,
     GetPgxTraceLogLevel (GetLevel (NewLoggerWithService cfg))
       ∈ [6%Z; 4%Z; 3%Z; 2%Z]).
Proof.
  split; [| split].
  - intros level. destruct level; split; try done;
      try (intros H; exfalso; apply H; by_compute);
      intros _; by_compute.
  - intros l1 l2 H1 H2.
    destruct l1; try (exfalso; revert H1; by_compute);
      destruct l2; try (exfalso; revert H2; by_compute); cbn; lia.
  - intros cfg.
    assert (Hl : GetLevel (NewLoggerWithService cfg) =
                 logLevel_of (GetLogLevel cfg)).
    { unfold NewLoggerWithService. by destruct (negb (IsProduction cfg)). }
    rewrite Hl.
    destruct (logLevel_of_cases (GetLogLevel cfg))
      as [[_ ->] | [[_ ->] | [[_ ->] | [[_ ->] | [_ ->]]]]]; by_compute.
Qed.

(** The X4 theorem at the levels debug and error. *)
Lemma GetPgxTraceLogLevel_never_none_witness :
  (GetPgxTraceLogLevel ErrorLevel ≤ GetPgxTraceLogLevel DebugLevel)%Z.
Proof.
  apply (proj1 (proj2 GetPgxTraceLogLevel_never_none));
    [by_compute | by_compute | cbn; lia].
Defined.

Lemma string_substring_app s1 s2 :
  String.substring 0 (String.length s1) (s1 ++ s2) = s1.
Proof.
  induction s1 as [| c s1 IH]; [by destruct s2 |].
  rewrite string_app_cons. cbn. by rewrite IH.
Qed.

(** X5. The formatting of a string field by the database logger never
    yields more than 203 bytes and keeps the first 200 bytes of the value;
    a value of at most 200 bytes is returned as it is, a longer one becomes
    203 bytes long; and formatting a formatted value changes nothing. *)
Theorem FormatFieldValue_string_bounded v :
  (String.length (FormatFieldValue_string v) ≤ 203)%nat ∧
  String.prefix (String.substring 0 200 v) (FormatFieldValue_string v) = true ∧
  ((String.length v ≤ 200)%nat → FormatFieldValue_string v = v) ∧
  ((200 < String.length v)%nat →
     String.length (FormatFieldValue_string v) = 203%nat) ∧
  FormatFieldValue_string (FormatFieldValue_string v) =
    FormatFieldValue_string v.
Proof.
  unfold FormatFieldValue_string at 1 2 3 4 6.
  destruct (decide (200 < String.length v)%nat) as [Hlong | Hshort].
  - assert (Hsub : String.length (String.substring 0 200 v) = 200%nat)
      by (rewrite string_length_substring; lia).
    assert (Hlen : String.length (String.substring 0 200 v ++ "...") = 203%nat).
    { rewrite string_length_app, Hsub. reflexivity. }
    rewrite Hlen. repeat split; try lia.
    + apply string_prefix_app.
    + unfold FormatFieldValue_string. rewrite decide_True by lia.
      pose proof (string_substring_app (String.substring 0 200 v) "...")
        as Hcut.
      rewrite Hsub in Hcut. rewrite Hcut.
      unfold FormatFieldValue_string. by rewrite decide_True by lia.
  - rewrite string_substring_all by lia.
    assert (Hself : String.prefix v v = true).
    { clear Hshort. induction v as [| c v IH]; [reflexivity |].
      cbn. by destruct (ascii_dec c c). }
    repeat split; try lia; done.
Qed.

(** The X5 theorem at a string of 201 bytes. *)
Lemma FormatFieldValue_string_bounded_witness :
  String.length
    (FormatFieldValue_string
       (String.concat EmptyString (replicate 67 "SQL"))) = 203%nat.
Proof.
  apply (proj2 (proj2 (proj2 (FormatFieldValue_string_bounded _)))).
  vm_compute. lia.
Defined.

Section LoggerService_facts.
Context {Application : Type}.
Context (NewApplication : list ConfigOption → option Application * option error).

(** X6. For a [nil] configuration [NewLoggerService] panics on the
    dereference and logs nothing; it returns a service exactly for a
    configuration that is not [nil].  Then, without a license key the
    service holds no application, one line is logged and [Shutdown] has
    nothing to shut down; with a license key the service holds whatever
    [newrelic.NewApplication] returned for the service name, the key and
    the two flags (and the debug logger when asked for), and the line
    that New Relic was initialized is logged even when [NewApplication]
    returned an error. *)
Theorem NewLoggerService_app cfg log :
  NewLoggerService NewApplication None log = (Panics nil_dereference, log) ∧
  (∀ c, (∃ svc log', NewLoggerService NewApplication c log
                       = (Returns svc, log')) ↔ is_Some c) ∧
  (LicenseKey (NewRelic cfg) = EmptyString →
     NewLoggerService NewApplication (Some cfg) log =
       (Returns {| nrApp := None |},
        (log ++ [("log", "New Relic license key not provided, skipping initialization")])%list) ∧
     Shutdown {| nrApp := @None Application |} = []) ∧
  (LicenseKey (NewRelic cfg) ≠ EmptyString →
     let opts :=
       ([ConfigAppName (ServiceName cfg);
         ConfigLicense (LicenseKey (NewRelic cfg));
         ConfigAppLogForwardingEnabled (AppLogForwardingEnabled (NewRelic cfg));
         ConfigDistributedTracerEnabled (DistributedTracingEnabled (NewRelic cfg))]
        ++ if DebugLogging (NewRelic cfg) then [ConfigDebugLogger] else [])%list in
     ∃ log',
       NewLoggerService NewApplication (Some cfg) log =
         (Returns {| nrApp := (NewApplication opts).1 |}, log') ∧
       last log' =
         Some ("log", "New Relic initialized for app: " ++ ServiceName cfg) ∧
       ∀ err, (NewApplication opts).2 = Some err →
         log' = (log ++
                 [("log", ("Failed to initialized New Relic:  " ++
                           error_Error err)%string);
                  ("log", ("New Relic initialized for app: " ++
                           ServiceName cfg)%string)])%list) ∧
  (∀ svc log',
     NewLoggerService NewApplication (Some cfg) log = (Returns svc, log') →
     is_Some (GetApplication svc) → LicenseKey (NewRelic cfg) ≠ EmptyString).
Proof.
  split; [reflexivity |]. split.
  { intros [c |]; (split; [| intros Hc]).
    - by eexists.
    - unfold NewLoggerService, log_Print, write_log, mbind, Proc_bind, mret,
        Proc_ret, panic.
      destruct (decide (LicenseKey (NewRelic c) = EmptyString));
        [by eexists _, _ |].
      destruct (NewApplication _) as [app [err |]]; by eexists _, _.
    - by intros (svc & log' & [=]).
    - by destruct Hc. }
  unfold NewLoggerService, log_Print, write_log, mbind, Proc_bind, mret,
    Proc_ret.
  destruct (decide (LicenseKey (NewRelic cfg) = EmptyString)) as [Hk | Hk].
  - split; [| split]; [done | done |].
    intros svc log' [= <- _] [app Happ]. discriminate Happ.
  - split; [done |]. split; [| done]. intros _.
    set (base := [ConfigAppName (ServiceName cfg);
                  ConfigLicense (LicenseKey (NewRelic cfg));
                  ConfigAppLogForwardingEnabled
                    (AppLogForwardingEnabled (NewRelic cfg));
                  ConfigDistributedTracerEnabled
                    (DistributedTracingEnabled (NewRelic cfg))]).
    assert (Hopts :
      (if DebugLogging (NewRelic cfg) then (base ++ [ConfigDebugLogger])%list
       else base)
      = (base ++ if DebugLogging (NewRelic cfg) then [ConfigDebugLogger]
                 else [])%list).
    { destruct (DebugLogging (NewRelic cfg)); [done |].
      by rewrite app_nil_r. }
    rewrite Hopts. destruct (NewApplication _) as [app [err |]]; cbn.
    + eexists. split; [reflexivity |]. split.
      * by rewrite last_snoc.
      * intros ? [= <-]. by rewrite <- app_assoc.
    + eexists. split; [reflexivity |]. split; [by rewrite last_snoc | done].
Qed.

End LoggerService_facts.

(** The X6 theorem when [newrelic.NewApplication] fails. *)
Lemma NewLoggerService_app_witness :
  ∃ log',
    run (NewLoggerService (Application := unit)
           (λ _, (None, Some (ctxError "license key is invalid")))
           (Some (mkObservabilityConfig "api" "production"
                    (mkLoggingConfig "info" "json" 0)
                    (mkNewRelicConfig "abc" false false false)
                    (mkHealthChecksConfig false 0 0 []))))
      = (Returns {| nrApp := None |}, log') ∧
    last log' = Some ("log", "New Relic initialized for app: api").
Proof.
  destruct (proj1 (proj2 (proj2 (proj2 (NewLoggerService_app (Application := unit)
              (λ _, (None, Some (ctxError "license key is invalid")))
              (mkObservabilityConfig "api" "production"
                 (mkLoggingConfig "info" "json" 0)
                 (mkNewRelicConfig "abc" false false false)
                 (mkHealthChecksConfig false 0 0 [])) [])))))
    as (log' & Hrun & Hlast & _); [by_compute |].
  exists log'. split; [exact Hrun | exact Hlast].
Defined.

End observability_facts.

Section url_facts.
Import url.

Lemma escape_byte_safe c :
  Forall (λ e, unreserved e = true ∨ e = "%"%char ∨ e = "+"%char)
         (list_ascii_of_string (escape_byte c)).
Proof.
  assert (Hb : forallb (λ e, unreserved e || bool_decide (e = "%"%char)
                             || bool_decide (e = "+"%char))
                 (list_ascii_of_string (escape_byte c)) = true).
  { destruct c as [[] [] [] [] [] [] [] []]; vm_compute; reflexivity. }
  rewrite forallb_forall in Hb. apply Forall_forall. intros e He.
  apply list_elem_of_In, Hb in He.
  apply orb_true_iff in He as [He | He];
    [apply orb_true_iff in He as [He | He] |].
  - by left.
  - right; left. by apply bool_decide_eq_true in He.
  - right; right. by apply bool_decide_eq_true in He.
Qed.

Lemma list_ascii_of_string_app s1 s2 :
  list_ascii_of_string (s1 ++ s2) =
  (list_ascii_of_string s1 ++ list_ascii_of_string s2)%list.
Proof.
  induction s1 as [| c s1 IH]; [reflexivity |].
  rewrite string_app_cons. cbn. by rewrite IH.
Qed.

Lemma PathUnescape_escape_byte c rest :
  http.PathUnescape (escape_byte c ++ rest) =
  String (if decide (c = " "%char) then "+"%char else c)
    <$> http.PathUnescape rest.
Proof.
  destruct c as [[] [] [] [] [] [] [] []]; reflexivity.
Qed.

Lemma PathUnescape_QueryEscape p :
  http.PathUnescape (QueryEscape p) = Some (spaces_to_plus p).
Proof.
  induction p as [| c p IH]; [reflexivity |].
  cbn [QueryEscape spaces_to_plus].
  rewrite PathUnescape_escape_byte, IH. reflexivity.
Qed.

Lemma spaces_to_plus_id p :
  spaces_to_plus p = p ↔ " "%char ∉ list_ascii_of_string p.
Proof.
  induction p as [| c p IH]; cbn.
  - split; [intros _ H; by apply elem_of_nil in H | done].
  - rewrite not_elem_of_cons, <- IH.
    destruct (decide (c = " "%char)) as [-> | Hc].
    + split; [discriminate | intros [? _]; done].
    + split; [intros [= ?]; split; [congruence | done] |].
      intros [_ ->]. reflexivity.
Qed.

(** X7. The password that [database.New] puts in the DSN consists of
    letters, digits and the bytes [-], [_], [.], [~], [%], [+] only,
    whatever the configured password: none of the separators [:], [@],
    [/], [?] of the DSN can come from it. *)
Theorem QueryEscape_password_safe cfg :
  let encodedPassword :=
    url.QueryEscape (config.DatabaseConfig.Password (config.Database cfg)) in
  (∀ c, c ∈ list_ascii_of_string encodedPassword →
        unreserved c = true ∨ c = "%"%char ∨ c = "+"%char) ∧
  (∀ c, c ∈ [":"; "@"; "/"; "?"; " "; "#"; "&"; "="]%char →
        c ∉ list_ascii_of_string encodedPassword) ∧
  database.dsn_of cfg =
    "postgres://" ++ config.DatabaseConfig.User (config.Database cfg) ++ ":" ++
    encodedPassword ++ "@" ++
    url.JoinHostPort (config.DatabaseConfig.Host (config.Database cfg))
      (config.DatabaseConfig.Port (config.Database cfg)) ++ "/" ++
    config.DatabaseConfig.Name (config.Database cfg) ++ "?sslmode=" ++
    config.DatabaseConfig.SSLMode (config.Database cfg).
Proof.
  intros encodedPassword.
  assert (Hsafe : ∀ p c, c ∈ list_ascii_of_string (QueryEscape p) →
            unreserved c = true ∨ c = "%"%char ∨ c = "+"%char).
  { induction p as [| b p IH]; intros c Hc; cbn in Hc.
    - by apply elem_of_nil in Hc.
    - rewrite list_ascii_of_string_app in Hc.
      apply elem_of_app in Hc as [Hc | Hc]; [| by apply IH].
      pose proof (escape_byte_safe b) as Hb.
      rewrite Forall_forall in Hb. by apply Hb. }
  split; [apply Hsafe |]. split; [| reflexivity].
  intros c Hc Hin. apply Hsafe in Hin.
  repeat (apply elem_of_cons in Hc as [-> | Hc];
          [destruct Hin as [Hin | [Hin | Hin]]; discriminate Hin |]).
  by apply elem_of_nil in Hc.
Qed.

(** The X7 theorem at a password with separators in it. *)
Lemma QueryEscape_password_safe_witness :
  "@"%char ∉ list_ascii_of_string (url.QueryEscape "p@ss:w/rd?").
Proof.
  apply (proj1 (proj2 (QueryEscape_password_safe
           (config.mkConfig config.AuthConfig.zero config.CoreConfig.zero
              (config.DatabaseConfig.mk "h" "5432" "u" "p@ss:w/rd?" "d" "x"
                 EmptyString EmptyString EmptyString EmptyString)
              config.RedisConfig.zero config.ServerConfig.zero)))).
  by_compute.
Defined.

(** X8. Unescaped the way the user information of a URL is, the password
    of the DSN comes back as the configured password with a plus sign for
    every space: it is the configured password exactly when that holds no
    space. *)
Theorem QueryEscape_password_decoded p :
  http.PathUnescape (url.QueryEscape p) = Some (spaces_to_plus p) ∧
  (http.PathUnescape (url.QueryEscape p) = Some p ↔
   " "%char ∉ list_ascii_of_string p).
Proof.
  rewrite PathUnescape_QueryEscape. split; [reflexivity |].
  rewrite <- spaces_to_plus_id. split; [by intros [= ?] | by intros ->].
Qed.

(** The X8 theorem at a password without a space. *)
Lemma QueryEscape_password_decoded_witness :
  http.PathUnescape (url.QueryEscape "p@ss%w0rd") = Some "p@ss%w0rd".
Proof.
  apply (proj2 (QueryEscape_password_decoded "p@ss%w0rd")). by_compute.
Defined.

Example QueryEscape_space :
  url.QueryEscape "a b" = "a+b" ∧ http.PathUnescape "a+b" = Some "a+b".
Proof. split; reflexivity. Qed.

End url_facts.

Section database_facts.
Import zerolog_level database.

Lemma errors_Is_refl err : errors_Is err err = true.
Proof. destruct err; cbn; by rewrite bool_decide_eq_true_2. Qed.

Lemma errors_Is_Errorf_w prefix err :
  errors_Is (Errorf_w prefix err) err = true.
Proof.
  unfold Errorf_w. cbn. rewrite errors_Is_refl. apply orb_true_r.
Qed.

Section New_facts.
Context {Application : Type}.
Context (env : Environ) (cfg : config.Config) (lg : logger.Logger).
Context (loggerService : option (logger.LoggerService (Application := Application))).

Local Abbreviation has_app := (database.has_app loggerService).
Local Abbreviation local_tracer := (database.local_tracer lg).
Local Abbreviation pool_config :=
  (database.pool_config cfg lg loggerService).

Lemma New_unfold w :
  New env cfg lg loggerService w =
    match ParseConfig env (dsn_of cfg) with
    | Some err => (Err (Errorf_w "failed to parse pgx pool config" err), w)
    | None =>
        let w1 := traced (NewWithConfig_lines env) pool_config w in
        match NewWithConfig env pool_config with
        | Some err => (Err (Errorf_w "failed to create pgx pool" err), w1)
        | None =>
            let w2 := traced (Ping_lines env) pool_config
                        {| lines := lines w1; pool_open := true |} in
            match Ping env pool_config with
            | Some err => (Err (Errorf_w "failed to ping database" err), w2)
            | None =>
                (Ok {| Pool := pool_config; log := lg |},
                 Info_Msg lg "connected to the database" w2)
            end
        end
    end.
Proof.
  unfold New, database.pool_config, database.has_app, database.local_tracer.
  destruct (ParseConfig env (dsn_of cfg)); [reflexivity |].
  destruct loggerService as [[[app |]] |]; cbn;
    destruct (decide (config.CoreConfig.Env (config.Core cfg) = "local"));
    reflexivity.
Qed.

(** The lines the driver writes in [New] up to and including a step. *)
Lemma lines_traced f pc w :
  lines (traced f pc w) =
    (lines w ++ if ConnConfig_Tracer pc is Some _ then f pc else [])%list ∧
  pool_open (traced f pc w) = pool_open w.
Proof.
  unfold traced. destruct (ConnConfig_Tracer pc); [done |].
  by rewrite app_nil_r.
Qed.

(** X9. [database.New] returns a database exactly when parsing the DSN,
    creating the pool and the ping all succeed; it then logs that it is
    connected when its logger writes events of level info, after what
    the driver wrote through the tracer, and leaves the pool open.  A
    failure is returned wrapped with the name of the step, with its cause
    still recognised by [errors.Is]; [New] itself writes no line then:
    the log holds what the driver wrote through the tracer in the steps
    that ran, and nothing at all when the configuration carries no tracer;
    after a failed ping the pool that was created is left open. *)
Theorem New_outcome w :
  let driver f := if ConnConfig_Tracer pool_config is Some _
                  then f env pool_config else [] in
  (∀ db w', New env cfg lg loggerService w = (Ok db, w') →
     ParseConfig env (dsn_of cfg) = None ∧
     NewWithConfig env (Pool db) = None ∧ Ping env (Pool db) = None ∧
     ConnString (Pool db) = dsn_of cfg ∧ log db = lg ∧
     pool_open w' = true ∧
     lines w' = (lines w ++ driver NewWithConfig_lines ++ driver Ping_lines ++
                 if should (logger.GetLevel lg) InfoLevel
                 then [("info", "connected to the database")] else [])%list) ∧
  (∀ err w', New env cfg lg loggerService w = (Err err, w') →
     (ConnConfig_Tracer pool_config = None → lines w' = lines w) ∧
     ∃ step cause,
       err = Errorf_w step cause ∧ errors_Is err cause = true ∧
       ((step = "failed to parse pgx pool config" ∧
         ParseConfig env (dsn_of cfg) = Some cause ∧ w' = w) ∨
        (step = "failed to create pgx pool" ∧
         NewWithConfig env pool_config = Some cause ∧
         lines w' = (lines w ++ driver NewWithConfig_lines)%list ∧
         pool_open w' = pool_open w) ∨
        (step = "failed to ping database" ∧
         Ping env pool_config = Some cause ∧
         lines w' = (lines w ++ driver NewWithConfig_lines
                             ++ driver Ping_lines)%list ∧
         pool_open w' = true))) ∧
  (ParseConfig env (dsn_of cfg) = None →
   NewWithConfig env pool_config = None →
   Ping env pool_config = None →
   ∃ w', New env cfg lg loggerService w =
           (Ok {| Pool := pool_config; log := lg |}, w')).
Proof.
  intros driver. rewrite New_unfold. cbv zeta.
  destruct (ParseConfig env (dsn_of cfg)) as [e1 |].
  { split; [intros ?? [=] |]. split; [| intros [=]].
    intros err w' [= <- <-]. split; [done |].
    eexists _, e1. split; [reflexivity |].
    split; [apply errors_Is_Errorf_w | by left]. }
  destruct (NewWithConfig env pool_config) as [e2 |] eqn:Hpool.
  { split; [intros ?? [=] |]. split; [| intros _ [=]].
    intros err w' [= <- <-].
    destruct (lines_traced (NewWithConfig_lines env) pool_config w)
      as [Hl Ho].
    split.
    { intros Hnone. rewrite Hl, Hnone. apply app_nil_r. }
    eexists _, e2. split; [reflexivity |].
    split; [apply errors_Is_Errorf_w |]. right; left. done. }
  destruct (lines_traced (NewWithConfig_lines env) pool_config w)
    as [Hl1 Ho1].
  set (w2 := traced (Ping_lines env) pool_config
                {| lines := lines (traced (NewWithConfig_lines env)
                                     pool_config w);
                   pool_open := true |}).
  assert (Hl2 : lines w2 =
            (lines w ++ driver NewWithConfig_lines ++ driver Ping_lines)%list).
  { unfold w2. rewrite (proj1 (lines_traced _ _ _)). cbn [lines].
    by rewrite Hl1, <- app_assoc. }
  assert (Ho2 : pool_open w2 = true)
    by (unfold w2; by rewrite (proj2 (lines_traced _ _ _))).
  destruct (Ping env pool_config) as [e3 |] eqn:Hping.
  { split; [intros ?? [=] |]. split; [| intros _ _ [=]].
    intros err w' [= <- <-]. split.
    { intros Hnone. rewrite Hl2. unfold driver. rewrite Hnone.
      by rewrite !app_nil_r. }
    eexists _, e3. split; [reflexivity |].
    split; [apply errors_Is_Errorf_w |]. right; right. done. }
  split; [| split; [intros ?? [=] | eauto]].
  intros db w' [= <- <-]. cbn [Pool log]. unfold Info_Msg.
  destruct (should (logger.GetLevel lg) InfoLevel); cbn [lines pool_open];
    rewrite ?Hl2, ?Ho2; repeat split; try done.
  - by rewrite <- !app_assoc.
  - by rewrite app_nil_r.
Qed.

(** X10. The tracer of the pool [database.New] creates: there is none
    exactly when there is no New Relic application and the environment is
    not local; New Relic's tracer alone outside the local environment; in
    the local environment a tracer that logs at the pgx level of the
    logger's level, chained after New Relic's tracer when both apply. *)
Theorem New_tracer w db w' :
  New env cfg lg loggerService w = (Ok db, w') →
  let local := bool_decide (config.CoreConfig.Env (config.Core cfg) = "local") in
  ConnConfig_Tracer (Pool db) =
    match has_app, local with
    | true, true => Some (multiTracer [nrpgx5_Tracer; local_tracer])
    | true, false => Some nrpgx5_Tracer
    | false, true => Some local_tracer
    | false, false => None
    end ∧
  (ConnConfig_Tracer (Pool db) = None ↔ has_app = false ∧ local = false).
Proof.
  rewrite New_unfold.
  destruct (ParseConfig env (dsn_of cfg)); [intros [=] |].
  destruct (NewWithConfig env pool_config); [intros [=] |].
  destruct (Ping env pool_config); [intros [=] |].
  intros [= <- _] local. unfold local, database.pool_config.
  cbn [Pool ConnConfig_Tracer].
  destruct (decide (config.CoreConfig.Env (config.Core cfg) = "local"))
    as [Hl | Hl].
  - rewrite bool_decide_eq_true_2 by done.
    destruct has_app; split; try done; split; try done; intros [_ [=]].
  - rewrite bool_decide_eq_false_2 by done.
    destruct has_app; split; try done; split; try done; intros [[=] _].
Qed.

End New_facts.

(** The X9 theorem when the ping fails in the local environment: the
    error names the step, the pool stays open, and the log holds the
    line of the tracer and no line of [New]. *)
Lemma New_outcome_witness :
  ∃ w', database.New (Application := unit) database_down local_config
          (logger.NewLoggerWithService observability.DefaultObservabilityConfig)
          None world0
        = (Err (Errorf_w "failed to ping database"
                  (ctxError "connection refused")), w') ∧
        pool_open w' = true ∧ lines w' = [("error", "Connect")].
Proof.
  destruct (proj1 (proj2 (New_outcome (Application := unit) database_down
              local_config
              (logger.NewLoggerWithService
                 observability.DefaultObservabilityConfig)
              None world0))
              (Errorf_w "failed to ping database" (ctxError "connection refused"))
              (database.mkWorld [("error", "Connect")] true))
    as (_ & step & cause & _ & _ & [(_ & Hparse & _) | [(_ & Hpool & _) |
          (_ & _ & Hlines & Hopen)]]);
    [vm_compute; reflexivity | discriminate Hparse | discriminate Hpool |].
  eexists. split; [vm_compute; reflexivity |]. split; reflexivity.
Defined.

(** The X10 theorem in the local environment without New Relic. *)
Lemma New_tracer_witness :
  ∃ db w',
    database.New (Application := unit) database_up local_config
      (logger.NewLoggerWithService observability.DefaultObservabilityConfig)
      None world0 = (Ok db, w') ∧
    ConnConfig_Tracer (Pool db) =
      Some (TraceLog (logger.NewPgxLogger InfoLevel) 4).
Proof.
  eexists _, _. split; [vm_compute; reflexivity |].
  exact (proj1 (New_tracer (Application := unit) database_up local_config
                  (logger.NewLoggerWithService
                     observability.DefaultObservabilityConfig)
                  None world0 _ _ eq_refl)).
Defined.

(** X11. [Close] always returns [nil] and leaves the pool closed, also
    when called again; it logs its line when the logger writes events of
    level info.  After [New] has succeeded and [Close] was called no pool
    is left open. *)
Theorem Close_closes {Application : Type} env cfg lg
    (ls : option (logger.LoggerService (Application := Application))) w db w' :
  New env cfg lg ls w = (Ok db, w') →
  (Close db w').1 = None ∧
  pool_open (Close db w').2 = false ∧
  pool_open (Close db (Close db w').2).2 = false ∧
  (Close db (Close db w').2).1 = None ∧
  lines (Close db w').2 =
    (lines w' ++ if should (logger.GetLevel lg) InfoLevel
                 then [("info", "closing database connection pool")]
                 else [])%list.
Proof.
  intros Hnew.
  assert (Hlog : log db = lg).
  { rewrite New_unfold in Hnew. cbv zeta in Hnew.
    destruct (ParseConfig _ _); [discriminate |].
    destruct (NewWithConfig _ _); [discriminate |].
    destruct (Ping _ _); [discriminate |]. by injection Hnew as <- _. }
  unfold Close, Info_Msg. rewrite Hlog.
  destruct (should (logger.GetLevel lg) InfoLevel); cbn; repeat split.
  by rewrite app_nil_r.
Qed.

(** The X11 theorem after a successful [New]. *)
Lemma Close_closes_witness :
  ∃ db w',
    database.New (Application := unit) database_up local_config
      (logger.NewLoggerWithService observability.DefaultObservabilityConfig)
      None world0 = (Ok db, w') ∧
    pool_open w' = true ∧ pool_open (Close db w').2 = false.
Proof.
  eexists _, _. split; [vm_compute; reflexivity |].
  split; [reflexivity |].
  exact (proj1 (proj2 (Close_closes (Application := unit) database_up
                         local_config
                         (logger.NewLoggerWithService
                            observability.DefaultObservabilityConfig)
                         None world0 _ _ eq_refl))).
Defined.

Section multiTracer_facts.
Context {Ctx StartData EndData Sink : Type}.
Local Abbreviation tracer :=
  (anyTracer (Ctx := Ctx) (StartData := StartData) (EndData := EndData)
             (Sink := Sink)).

(** X12. A [multiTracer] runs its tracers in order: tracing the start of a
    query through two lists of tracers one after the other is tracing it
    through their concatenation, each tracer receiving the context the
    one before it returned; values of the slice without the method are
    passed over; and with no tracer the context comes back as it was.
    The end of a query is traced the same way. *)
Theorem multiTracer_chain (tracers1 tracers2 : list tracer) ctx sdata edata
    sink :
  TraceQueryStart (tracers1 ++ tracers2) ctx sdata =
    TraceQueryStart tracers2 (TraceQueryStart tracers1 ctx sdata) sdata ∧
  TraceQueryStart tracers1 ctx sdata =
    TraceQueryStart (filter (λ t, is_Some (QueryStart t)) tracers1) ctx sdata ∧
  TraceQueryStart (@nil tracer) ctx sdata = ctx ∧
  TraceQueryEnd (tracers1 ++ tracers2) ctx edata sink =
    TraceQueryEnd tracers2 ctx edata (TraceQueryEnd tracers1 ctx edata sink) ∧
  TraceQueryEnd tracers1 ctx edata sink =
    TraceQueryEnd (filter (λ t, is_Some (QueryEnd t)) tracers1) ctx edata sink ∧
  (∀ (t1 t2 : tracer) e1 e2,
     QueryStart t1 = Some e1 → QueryStart t2 = Some e2 →
     TraceQueryStart [t1; t2] ctx sdata = e2 (e1 ctx sdata) sdata).
Proof.
  unfold TraceQueryStart, TraceQueryEnd.
  split; [apply foldl_app |]. split.
  { revert ctx. induction tracers1 as [| t ts IH]; intros ctx; [done |].
    rewrite filter_cons. cbn [foldl].
    destruct (QueryStart t) as [f |] eqn:Hf.
    - rewrite decide_True by eauto. cbn [foldl]. rewrite Hf. apply IH.
    - rewrite decide_False by (by intros [? ?]). apply IH. }
  split; [done |]. split; [apply foldl_app |]. split.
  { revert sink. induction tracers1 as [| t ts IH]; intros sink; [done |].
    rewrite filter_cons. cbn [foldl].
    destruct (QueryEnd t) as [f |] eqn:Hf.
    - rewrite decide_True by eauto. cbn [foldl]. rewrite Hf. apply IH.
    - rewrite decide_False by (by intros [? ?]). apply IH. }
  intros t1 t2 e1 e2 H1 H2. cbn. by rewrite H1, H2.
Qed.

End multiTracer_facts.

(** The X12 theorem at two tracers on a counter: the first adds one, the
    second doubles. *)
Lemma multiTracer_chain_witness :
  TraceQueryStart (Sink := unit) (EndData := unit)
    [mkAnyTracer (Some (λ ctx _, ctx + 1)%Z) None;
     mkAnyTracer (Some (λ ctx _, 2 * ctx)%Z) None] 3%Z tt = 8%Z.
Proof.
  exact (proj2 (proj2 (proj2 (proj2 (proj2
           (multiTracer_chain (Sink := unit) (EndData := unit)
              [] [] 3%Z tt tt tt)))))
           (mkAnyTracer (Some (λ ctx _, ctx + 1)%Z) None)
           (mkAnyTracer (Some (λ ctx _, 2 * ctx)%Z) None)
           _ _ eq_refl eq_refl).
Defined.

End database_facts.

Section httpserver_facts.
Import zerolog_level httpserver.

Local Ltac run_server :=
  unfold main_serve, main_shutdown, Start, Stop, Fatal_Msg, Info_Msg,
    write_log, os_Exit, mbind, Proc_bind, mret, Proc_ret.

(** The lines a logger of the given level writes for events of level
    info. *)
Local Abbreviation info_lines lg msgs :=
  (if should (logger.GetLevel lg) InfoLevel
   then (λ msg : string, ("info", msg)) <$> msgs else []).

(** X13. [Start] returns [nil] exactly when [ListenAndServe] returned
    [nil] or [http.ErrServerClosed]; any other error comes back wrapped,
    still recognised by [errors.Is].  [Stop] returns [nil] exactly when
    the shutdown did, and only then logs that the server stopped.  For a
    server built by [server.New] the line [Start] logs names the port
    with the colon of the address. *)
Theorem Start_Stop_result srv lg serve shutdown log :
  (∃ err, Start srv lg serve log =
            (Returns err,
             (log ++ info_lines lg
                [("Starting HTTP server on port " ++
                  server.Addr srv)%string])%list) ∧
          (err = None ↔ serve = None ∨ serve = Some ErrServerClosed) ∧
          (∀ cause, serve = Some (serve_failure cause) →
             err = Some (Errorf_w "failed to start HTTP server" cause) ∧
             errors_Is (Errorf_w "failed to start HTTP server" cause) cause
               = true)) ∧
  (∃ err, Stop srv lg shutdown log =
            (Returns err,
             (log ++ info_lines lg
                ("Shutting down HTTP server..." ::
                 if err is None then ["HTTP server stopped"] else []))%list) ∧
          (err = None ↔ shutdown = None) ∧
          (∀ cause, shutdown = Some cause →
             err = Some (Errorf_w "failed to shutdown HTTP server" cause))) ∧
  (∀ cfg, server.Addr (server.New cfg) =
            ":" ++ config.ServerConfig.Port (config.Server cfg)).
Proof.
  split; [| split; [| reflexivity]].
  - exists (match serve with
            | Some (serve_failure cause) =>
                Some (Errorf_w "failed to start HTTP server" cause)
            | _ => None
            end).
    split; [| split].
    + run_server.
      destruct (should (logger.GetLevel lg) InfoLevel);
        destruct serve as [[| cause] |]; cbn; rewrite ?app_nil_r; reflexivity.
    + destruct serve as [[| cause] |]; naive_solver.
    + intros cause ->. split; [reflexivity | apply errors_Is_Errorf_w].
  - exists (match shutdown with
            | Some cause =>
                Some (Errorf_w "failed to shutdown HTTP server" cause)
            | None => None
            end).
    split; [| split].
    + run_server.
      destruct (should (logger.GetLevel lg) InfoLevel);
        destruct shutdown as [cause |]; cbn;
        rewrite ?app_nil_r, <- ?app_assoc; reflexivity.
    + destruct shutdown; naive_solver.
    + by intros cause ->.
Qed.

(** The X13 theorem when the port is taken. *)
Lemma Start_Stop_result_witness :
  (run (Start (server.New local_config)
          (logger.NewLoggerWithService observability.DefaultObservabilityConfig)
          (Some (serve_failure (ctxError "address already in use"))))).1
  = Returns (Some (Errorf_w "failed to start HTTP server"
                     (ctxError "address already in use"))).
Proof.
  destruct (proj1 (Start_Stop_result (server.New local_config)
              (logger.NewLoggerWithService
                 observability.DefaultObservabilityConfig)
              (Some (serve_failure (ctxError "address already in use")))
              None []))
    as (err & Hrun & _ & Herr).
  destruct (Herr _ eq_refl) as [-> _].
  unfold run. rewrite Hrun. reflexivity.
Defined.

(** The lines a logger of the given level writes for events of level
    fatal. *)
Local Abbreviation fatal_lines lg msgs :=
  (if should (logger.GetLevel lg) FatalLevel
   then (λ msg : string, ("fatal", msg)) <$> msgs else []).

(** X14. The goroutine of [main] that serves ends the process, with exit
    code 1, exactly when [ListenAndServe] failed with an error other than
    [http.ErrServerClosed], after the lines that the server starts and
    that it failed to; after a shutdown it returns, having logged the
    start only.  The shutdown in [main] ends the process with exit code
    1 exactly when the server's shutdown failed, after the two lines of
    shutting down and the line that it was forced; otherwise it returns
    after those two lines, the line that the server stopped and, last,
    the line that the server exited. *)
Theorem main_serve_exit srv appLogger serve shutdown log :
  main_serve srv appLogger serve log =
    (if serve is Some (serve_failure _) then Exits 1 else Returns tt,
     (log ++
      info_lines appLogger
        [("Starting HTTP server on port " ++ server.Addr srv)%string] ++
      if serve is Some (serve_failure _)
      then fatal_lines appLogger ["Failed to start server"] else [])%list) ∧
  main_shutdown srv appLogger shutdown log =
    (if shutdown is Some _ then Exits 1 else Returns tt,
     (log ++
      info_lines appLogger
        ("Shutting down server..." :: "Shutting down HTTP server..." ::
         if shutdown is Some _ then []
         else ["HTTP server stopped"; "Server exited"]) ++
      if shutdown is Some _
      then fatal_lines appLogger ["Server forced to shutdown"] else [])%list) ∧
  ((∃ log', main_serve srv appLogger serve log = (Exits 1, log')) ↔
   ∃ cause, serve = Some (serve_failure cause)) ∧
  ((∃ log', main_serve srv appLogger serve log = (Returns tt, log')) ↔
   serve = None ∨ serve = Some ErrServerClosed) ∧
  ((∃ log', main_shutdown srv appLogger shutdown log = (Exits 1, log')) ↔
   is_Some shutdown) ∧
  ((∃ log', main_shutdown srv appLogger shutdown log = (Returns tt, log')) ↔
   shutdown = None).
Proof.
  assert (Hserve : main_serve srv appLogger serve log =
    (if serve is Some (serve_failure _) then Exits 1 else Returns tt,
     (log ++
      info_lines appLogger
        [("Starting HTTP server on port " ++ server.Addr srv)%string] ++
      if serve is Some (serve_failure _)
      then fatal_lines appLogger ["Failed to start server"] else [])%list)).
  { run_server.
    destruct (should (logger.GetLevel appLogger) InfoLevel);
      destruct (should (logger.GetLevel appLogger) FatalLevel);
      destruct serve as [[| c1] |]; cbn;
      rewrite ?app_nil_r, <- ?app_assoc; reflexivity. }
  assert (Hshutdown : main_shutdown srv appLogger shutdown log =
    (if shutdown is Some _ then Exits 1 else Returns tt,
     (log ++
      info_lines appLogger
        ("Shutting down server..." :: "Shutting down HTTP server..." ::
         if shutdown is Some _ then []
         else ["HTTP server stopped"; "Server exited"]) ++
      if shutdown is Some _
      then fatal_lines appLogger ["Server forced to shutdown"] else [])%list)).
  { run_server.
    destruct (should (logger.GetLevel appLogger) InfoLevel);
      destruct (should (logger.GetLevel appLogger) FatalLevel);
      destruct shutdown as [c2 |]; cbn;
      rewrite ?app_nil_r, <- ?app_assoc; reflexivity. }
  split; [exact Hserve |]. split; [exact Hshutdown |].
  rewrite Hserve, Hshutdown.
  destruct serve as [[| c1] |]; destruct shutdown as [c2 |];
    (split; [| split; [| split]]); split;
    first [ by intros [? [=]]
          | by intros [[=] | [=]]
          | by intros [=]
          | by intros [? [=]]
          | by eauto ].
Qed.

(** The X14 theorem when the shutdown succeeds, for a logger at level
    info: the last line is that the server exited. *)
Lemma main_serve_exit_witness :
  run (main_shutdown (server.New local_config)
         (logger.NewLoggerWithService observability.DefaultObservabilityConfig)
         None)
  = (Returns tt,
     [("info", "Shutting down server...");
      ("info", "Shutting down HTTP server...");
      ("info", "HTTP server stopped"); ("info", "Server exited")]).
Proof.
  exact (proj1 (proj2 (main_serve_exit (server.New local_config)
           (logger.NewLoggerWithService observability.DefaultObservabilityConfig)
           None None []))).
Defined.

End httpserver_facts.

Section config_env_facts.
Import config_env.

Lemma split_not_nil c s : http.split c s ≠ [].
Proof.
  destruct s as [| a s]; cbn; [done |].
  case_decide; [done |]. by destruct (http.split c s).
Qed.

Lemma join_split c s :
  http.join (String c EmptyString) (http.split c s) = s.
Proof.
  induction s as [| a s IH]; [reflexivity |]. cbn [http.split].
  pose proof (split_not_nil c s) as Hne.
  destruct (decide (a = c)) as [-> | Hac].
  - destruct (http.split c s) as [| seg segs]; [done |].
    change (http.join (String c EmptyString) (EmptyString :: seg :: segs))
      with (String c (http.join (String c EmptyString) (seg :: segs))).
    by rewrite IH.
  - destruct (http.split c s) as [| seg [| seg' segs]]; [done | |].
    + cbn in *. by rewrite IH.
    + change (http.join (String c EmptyString) (String a seg :: seg' :: segs))
        with (String a (http.join (String c EmptyString) (seg :: seg' :: segs))).
      by rewrite IH.
Qed.

Lemma split_no_sep c s :
  Forall (λ seg, c ∉ list_ascii_of_string seg) (http.split c s).
Proof.
  induction s as [| a s IH]; cbn [http.split].
  - repeat constructor. cbn. apply not_elem_of_nil.
  - case_decide.
    + constructor; [cbn; apply not_elem_of_nil | done].
    + destruct (http.split c s) as [| seg segs].
      * repeat constructor. cbn. rewrite not_elem_of_cons.
        split; [done | apply not_elem_of_nil].
      * apply Forall_cons in IH as [Hseg Hsegs]. constructor; [| done].
        cbn. rewrite not_elem_of_cons. by split.
Qed.

Lemma split_length_sep c s :
  c ∈ list_ascii_of_string s → (2 ≤ length (http.split c s))%nat.
Proof.
  induction s as [| a s IH]; cbn [http.split list_ascii_of_string].
  - intros H. by apply elem_of_nil in H.
  - pose proof (split_not_nil c s) as Hne. intros Hin.
    destruct (decide (a = c)) as [-> | Hac].
    + destruct (http.split c s); [done | cbn; lia].
    + apply elem_of_cons in Hin as [-> | Hin]; [done |].
      apply IH in Hin. destruct (http.split c s); cbn in *; lia.
Qed.

Lemma ReplaceAll_no_old old new s :
  old ∉ list_ascii_of_string new →
  old ∉ list_ascii_of_string (ReplaceAll old new s).
Proof.
  intros Hnew. induction s as [| c s IH]; cbn.
  - apply not_elem_of_nil.
  - case_decide.
    + rewrite list_ascii_of_string_app, not_elem_of_app. by split.
    + cbn. rewrite not_elem_of_cons. by split.
Qed.

Section TransformFunc_facts.
Context (ToLower : string → string).

(** X15. The value [TransformFunc] returns is the string it was given
    when that holds no space, and otherwise a slice of at least two
    strings, none of which holds a space, and which joined by spaces give
    the string back. *)
Theorem TransformFunc_value k v :
  (" "%char ∉ list_ascii_of_string v →
     (TransformFunc ToLower k v).2 = inl v) ∧
  (" "%char ∈ list_ascii_of_string v →
     ∃ parts,
       (TransformFunc ToLower k v).2 = inr parts ∧
       http.join " " parts = v ∧
       Forall (λ part, " "%char ∉ list_ascii_of_string part) parts ∧
       (2 ≤ length parts)%nat).
Proof.
  unfold TransformFunc, Contains. split; intros Hv.
  - by rewrite bool_decide_eq_false_2.
  - rewrite bool_decide_eq_true_2 by done. eexists. split; [reflexivity |].
    split; [apply (join_split http.space) |].
    split; [apply (split_no_sep http.space) |].
    by apply (split_length_sep http.space).
Qed.

(** X16. The key [TransformFunc] returns never holds an underscore.  The
    prefix it strips is [MYVAR_]; a variable named [API_...], the only
    kind the provider passes on, keeps its prefix, as [api.]. *)
Theorem TransformFunc_key k v :
  "_"%char ∉ list_ascii_of_string (TransformFunc ToLower k v).1 ∧
  (TransformFunc ToLower k v).1 =
    ReplaceAll "_"%char "." (ToLower (TrimPrefix k "MYVAR_")) ∧
  (∀ rest, TrimPrefix ("MYVAR_" ++ rest) "MYVAR_" = rest) ∧
  (∀ rest,
     ToLower ("API_" ++ rest) = "api_" ++ ToLower rest →
     (TransformFunc ToLower ("API_" ++ rest) v).1 =
       "api." ++ ReplaceAll "_"%char "." (ToLower rest)).
Proof.
  assert (Hkey : (TransformFunc ToLower k v).1 = transform_key ToLower k).
  { unfold TransformFunc. by destruct (Contains v " "%char). }
  split; [| split; [exact Hkey | split]].
  - rewrite Hkey. apply ReplaceAll_no_old. by_compute.
  - intros rest. unfold TrimPrefix.
    rewrite string_prefix_app, string_length_app.
    replace (String.length "MYVAR_" + String.length rest -
             String.length "MYVAR_")%nat with (String.length rest) by lia.
    change (String.substring (String.length "MYVAR_") (String.length rest)
              ("MYVAR_" ++ rest))
      with (String.substring 0 (String.length rest) rest).
    by apply string_substring_all.
  - intros rest Hlower.
    assert (Hk : (TransformFunc ToLower ("API_" ++ rest) v).1 =
                 transform_key ToLower ("API_" ++ rest)).
    { unfold TransformFunc. by destruct (Contains v " "%char). }
    rewrite Hk. unfold transform_key.
    assert (Htrim : TrimPrefix ("API_" ++ rest) "MYVAR_" = "API_" ++ rest)
      by reflexivity.
    rewrite Htrim, Hlower. reflexivity.
Qed.

End TransformFunc_facts.

(** The X15 theorem at a list of origins. *)
Lemma TransformFunc_value_witness :
  ∃ parts,
    (TransformFunc libs.ToLower "API_SERVER_CORS_ALLOWED_ORIGINS"
       "http://a.example http://b.example").2 = inr parts ∧
    http.join " " parts = "http://a.example http://b.example" ∧
    (2 ≤ length parts)%nat.
Proof.
  destruct (proj2 (TransformFunc_value libs.ToLower
              "API_SERVER_CORS_ALLOWED_ORIGINS"
              "http://a.example http://b.example"))
    as (parts & Hparts & Hjoin & _ & Hlen); [by_compute |].
  exists parts. auto.
Defined.

(** The X16 theorem at [API_SERVER_PORT]. *)
Lemma TransformFunc_key_witness :
  (TransformFunc libs.ToLower "API_SERVER_PORT" "8080").1 = "api.server.port".
Proof.
  exact (proj2 (proj2 (proj2 (TransformFunc_key libs.ToLower EmptyString "8080")))
           "SERVER_PORT" eq_refl).
Defined.

End config_env_facts.

Section libs2_facts.
Import libs.

Lemma string_app_longer f rest :
  (0 < String.length rest)%nat →
  String.prefix f (f ++ rest) = true ∧
  (String.length f < String.length (f ++ rest))%nat.
Proof.
  intros Hrest. split; [apply string_prefix_app |].
  rewrite string_length_app. lia.
Qed.

Local Ltac message_rest :=
  rewrite ?string_length_app; cbn [String.length]; lia.

Lemma getErrorMessage2_longer err :
  String.prefix (Field err) (libs2.getErrorMessage err) = true ∧
  (String.length (Field err) < String.length (libs2.getErrorMessage err))%nat.
Proof.
  unfold libs2.getErrorMessage.
  repeat (case_decide; [apply string_app_longer; message_rest |]).
  apply string_app_longer; message_rest.
Qed.

(** X17. The second [getErrorMessage] gives every field error a message
    that begins with the name of the field and goes on after it, so is
    never empty; on the tags required, email, min and gte it gives the
    message of the first [getErrorMessage], which on every other tag gives
    the empty string. *)
Theorem getErrorMessage2_message err :
  String.prefix (Field err) (libs2.getErrorMessage err) = true ∧
  libs2.getErrorMessage err ≠ EmptyString ∧
  (Tag err ∈ message_tags →
     libs.getErrorMessage err = libs2.getErrorMessage err) ∧
  (Tag err ∉ message_tags →
     libs.getErrorMessage err = EmptyString ∧
     libs.getErrorMessage err ≠ libs2.getErrorMessage err).
Proof.
  pose proof (getErrorMessage2_longer err) as [Hprefix Hlen].
  assert (Hne : libs2.getErrorMessage err ≠ EmptyString).
  { intros Heq. rewrite Heq in Hlen. cbn in Hlen. lia. }
  split; [exact Hprefix |]. split; [exact Hne |]. split.
  - unfold message_tags. intros Htag.
    unfold libs.getErrorMessage, libs2.getErrorMessage.
    repeat (case_decide; [reflexivity |]).
    exfalso. repeat (apply elem_of_cons in Htag as [Htag | Htag]; [done |]).
    by apply elem_of_nil in Htag.
  - intros Htag.
    assert (Hempty : libs.getErrorMessage err = EmptyString).
    { unfold libs.getErrorMessage, message_tags in *.
      repeat (case_decide;
              [exfalso; apply Htag; rewrite !elem_of_cons; auto 10 |]).
      reflexivity. }
    split; [exact Hempty |]. rewrite Hempty. congruence.
Qed.

(** The X17 theorem at a field that fails the tag oneof. *)
Lemma getErrorMessage2_message_witness :
  libs.getErrorMessage (mkFieldError "Level" "oneof" "json text") = EmptyString ∧
  libs2.getErrorMessage (mkFieldError "Level" "oneof" "json text")
    = "Level must be one of: json text".
Proof.
  split; [| reflexivity].
  apply (proj2 (proj2 (proj2 (getErrorMessage2_message
           (mkFieldError "Level" "oneof" "json text"))))).
  by_compute.
Defined.

Section ValidateStruct2_facts.
Context (ToLower : string → string).
Context {A : Type} (validate_Struct : A → StructResult).

Lemma lookup_collect2 (l : list FieldError) (m : gmap string string) k :
  libs2.collect ToLower l m !! k =
    match last (filter (λ v, ToLower (Field v) = k) l) with
    | Some v => Some (libs2.getErrorMessage v)
    | None => m !! k
    end.
Proof.
  revert m. induction l as [| v l IH]; intros m; [reflexivity |].
  unfold libs2.collect in *. cbn [foldl]. rewrite IH, filter_cons.
  destruct (decide (ToLower (Field v) = k)) as [<- | Hne].
  - rewrite last_cons. destruct (last _); [reflexivity |].
    apply lookup_insert_eq.
  - destruct (last _); [reflexivity |]. by apply lookup_insert_ne.
Qed.

(** X18. The second [ValidateStruct] returns [nil] exactly when no field
    error is reported; in the map it returns otherwise, every failing
    field has an entry under its lowercased name, and every entry is the
    message of a failing field with that lowercased name: it is not
    empty and begins with that field's name. *)
Theorem ValidateStruct2_messages data :
  let errs := field_errors (validate_Struct data) in
  (libs2.ValidateStruct ToLower validate_Struct data = None ↔ errs = []) ∧
  (∀ m, libs2.ValidateStruct ToLower validate_Struct data = Some m →
     (∀ v, v ∈ errs → is_Some (m !! ToLower (Field v))) ∧
     (∀ k msg, m !! k = Some msg →
        msg ≠ EmptyString ∧
        ∃ v, v ∈ errs ∧ ToLower (Field v) = k ∧
             msg = libs2.getErrorMessage v ∧
             String.prefix (Field v) msg = true)).
Proof.
  intros errs.
  assert (Hlook : ∀ k, libs2.collect ToLower errs ∅ !! k =
            libs2.getErrorMessage <$>
              last (filter (λ v, ToLower (Field v) = k) errs)).
  { intros k. rewrite lookup_collect2.
    destruct (last _); [reflexivity | apply lookup_empty]. }
  assert (Hval : libs2.ValidateStruct ToLower validate_Struct data =
                 match errs with
                 | [] => None
                 | _ => Some (libs2.collect ToLower errs ∅)
                 end).
  { unfold libs2.ValidateStruct, errs, field_errors.
    destruct (validate_Struct data) as [| | l]; [reflexivity .. |].
    destruct l as [| v l]; [reflexivity |].
    case_decide as Hsz; [reflexivity |]. exfalso.
    assert (Hsome : is_Some (libs2.collect ToLower (v :: l) ∅
                               !! ToLower (Field v))).
    { rewrite lookup_collect2, filter_cons, decide_True by done.
      rewrite last_cons. destruct (last _); eauto. }
    apply map_size_ne_0_lookup_2 in Hsome. lia. }
  rewrite Hval. split; [destruct errs; split; congruence |].
  intros m Hm.
  assert (m = libs2.collect ToLower errs ∅) as -> by (destruct errs; congruence).
  split.
  - intros v Hv. rewrite Hlook.
    destruct (last _) as [w |] eqn:Hlast; [by eexists |].
    apply last_None in Hlast.
    assert (v ∈ filter (λ v0, ToLower (Field v0) = ToLower (Field v)) errs)
      by (by apply list_elem_of_filter).
    rewrite Hlast in *. set_solver.
  - intros k msg Hmsg. rewrite Hlook in Hmsg.
    destruct (last _) as [w |] eqn:Hlast; [| discriminate].
    injection Hmsg as <-.
    apply last_Some_elem_of, list_elem_of_filter in Hlast as [Hk Hw].
    pose proof (getErrorMessage2_longer w) as [Hprefix Hlen].
    split; [| by eauto 10].
    intros Heq. rewrite Heq in Hlen. cbn in Hlen. lia.
Qed.

End ValidateStruct2_facts.

(** The X18 theorem at [two_names]. *)
Lemma ValidateStruct2_messages_witness :
  libs2.ValidateStruct libs.ToLower (λ _ : unit, two_names) tt ≠ None.
Proof.
  intros Hnone.
  apply (proj1 (proj1 (ValidateStruct2_messages libs.ToLower
                         (λ _ : unit, two_names) tt))) in Hnone.
  discriminate Hnone.
Defined.

End libs2_facts.

Section repositories_more_facts.
Import models postgres repositories.
Local Open Scope list_scope.

Local Ltac unfold_calls :=
  unfold Create, GetByID, GetByEmail, Update, Delete, List,
    pgxpool.QueryRow, pgxpool.Query, pgxpool.Exec, pgxpool.round_trip,
    pgxpool.Scan.

(** The range of [int4]. *)
Local Abbreviation int4 id := (int4_min ≤ id ≤ int4_max)%Z.

(** X19. Under a context that has failed, every operation of the
    repository returns the context's error wrapped with the operation's
    own prefix, which [errors.Is] still recognises, and leaves the
    database as it was. *)
Theorem repository_failed_context tie ctx cause user id email limit offset
    db :
  context.Err ctx = Some cause →
  Create ctx user db = (db, Err (Errorf_w "failed to create user" cause)) ∧
  GetByID ctx id db = (db, Err (Errorf_w "failed to get user by id" cause)) ∧
  GetByEmail ctx email db =
    (db, Err (Errorf_w "failed to get user by email" cause)) ∧
  Update ctx user db = (db, Err (Errorf_w "failed to update user" cause)) ∧
  Delete ctx id db = (db, Some (Errorf_w "failed to delete user" cause)) ∧
  List tie ctx limit offset db =
    (db, Err (Errorf_w "failed to list users" cause)) ∧
  ∀ prefix, errors_Is (Errorf_w prefix cause) cause = true.
Proof.
  intros Hctx. unfold_calls. rewrite Hctx.
  refine (conj eq_refl (conj eq_refl (conj eq_refl
            (conj eq_refl (conj eq_refl (conj eq_refl _)))))).
  intros prefix. apply errors_Is_Errorf_w.
Qed.

(** The X19 theorem at a cancelled context on [one_user]. *)
Lemma repository_failed_context_witness :
  Delete context.Canceled 1 one_user =
    (one_user,
     Some (wrapError "failed to delete user: context canceled"
             (ctxError "context canceled"))).
Proof.
  exact (proj1 (proj2 (proj2 (proj2 (proj2
    (repository_failed_context no_preference context.Canceled
       (ctxError "context canceled") (mkUser 0 "" 0 0) 1 "" 0 0 one_user
       eq_refl)))))).
Defined.



Local Abbreviation touch id email at_ :=
  (λ u : User, if decide (ID u = id) then set_email email at_ u else u).

Lemma filter_touch_ID id email at_ id' (rows : list User) :
  filter (λ u, ID u = id') (touch id email at_ <$> rows) =
  touch id email at_ <$> filter (λ u, ID u = id') rows.
Proof.
  induction rows as [| u rows IH]; [reflexivity |].
  rewrite fmap_cons, !filter_cons, IH.
  assert (Hid : ID (touch id email at_ u) = ID u) by (by case_decide).
  rewrite Hid. by destruct (decide (ID u = id')).
Qed.

Lemma filter_touch_Email id email at_ (rows : list User) :
  ¬ Exists (λ u, ID u ≠ id ∧ Email u = email) rows →
  filter (λ u, Email u = email) (touch id email at_ <$> rows) =
  touch id email at_ <$> filter (λ u, ID u = id) rows.
Proof.
  induction rows as [| u rows IH]; intros Hex; [reflexivity |].
  rewrite Exists_cons in Hex.
  rewrite fmap_cons, !filter_cons, IH by tauto.
  destruct (decide (ID u = id)) as [Hid | Hid].
  - rewrite decide_True by reflexivity.
    by rewrite fmap_cons, decide_True by exact Hid.
  - rewrite decide_False by tauto. reflexivity.
Qed.

Lemma NoDup_fmap_same {T K} (f : T → K) (l : list T) x y :
  NoDup (f <$> l) → x ∈ l → y ∈ l → f x = f y → x = y.
Proof.
  induction l as [| z l IH]; intros Hnd Hx Hy Hf.
  - by apply elem_of_nil in Hx.
  - rewrite fmap_cons in Hnd. apply NoDup_cons in Hnd as [Hz Hnd].
    apply elem_of_cons in Hx as [-> | Hx], Hy as [-> | Hy]; auto.
    + exfalso. apply Hz. rewrite Hf. by apply list_elem_of_fmap_2.
    + exfalso. apply Hz. rewrite <- Hf. by apply list_elem_of_fmap_2.
Qed.

(** An [Update] that succeeds had an argument the driver encodes. *)
Lemma Update_Ok_encoded ctx user db db' updated :
  context.Err ctx = None →
  Update ctx user db = (db', Ok updated) →
  int4 (ID user) ∨ ID user ∈ ids db.
Proof.
  intros Hctx. unfold_calls. rewrite Hctx. unfold pgxpool.int4_arg.
  by case_decide.
Qed.

(** X21. After an [Update] that succeeds under a live context, [GetByID]
    of the user's identifier and [GetByEmail] of the new email both
    return the row that [Update] returned, which has that identifier, the
    new email and [updated_at] at the server clock, and no row but those
    with that identifier holds the new email. *)
Theorem Update_then_lookup ctx user db db' updated :
  context.Err ctx = None →
  Update ctx user db = (db', Ok updated) →
  GetByID ctx (ID user) db' = (db', Ok updated) ∧
  GetByEmail ctx (Email user) db' = (db', Ok updated) ∧
  ID updated = ID user ∧ Email updated = Email user ∧
  UpdatedAt updated = now db ∧
  (∀ u, u ∈ users db' → Email u = Email user → ID u = ID user).
Proof.
  intros Hctx Hupdate.
  pose proof (Update_Ok_encoded _ _ _ _ _ Hctx Hupdate) as Hencoded.
  revert Hupdate. rewrite Update_encoded by assumption. unfold update_user.
  destruct (filter (λ u, ID u = ID user) (users db)) as [| old rest] eqn:Hhit;
    [discriminate |].
  case_decide; [discriminate |]. case_decide as Hex; [discriminate |].
  rewrite fmap_cons. intros [= <- <-].
  assert (Hold : ID old = ID user).
  { assert (Hin : old ∈ filter (λ u, ID u = ID user) (users db))
      by (rewrite Hhit; left).
    by apply list_elem_of_filter in Hin as [? _]. }
  unfold_calls. rewrite Hctx.
  rewrite int4_arg_stored.
  2:{ unfold ids. cbn [users]. rewrite touch_ids.
      apply list_elem_of_fmap. exists old. split; [done |].
      apply (list_elem_of_filter (λ u, ID u = ID user)).
      rewrite Hhit. left. }
  unfold select_by_id, select_by_email. cbn [users].
  rewrite filter_touch_ID, (filter_touch_Email _ _ _ _ Hex), Hhit, fmap_cons.
  rewrite decide_True by exact Hold.
  refine (conj eq_refl (conj eq_refl (conj Hold (conj eq_refl
            (conj eq_refl _))))).
  intros u' Hu' Hemail. apply list_elem_of_fmap in Hu' as (u & -> & Hu).
  destruct (decide (ID u = ID user)) as [Hid | Hid]; [exact Hid |].
  exfalso. apply Hex, Exists_exists. by exists u.
Qed.

(** The X21 theorem at [one_user]. *)
Lemma Update_then_lookup_witness :
  ∃ db',
    GetByEmail context.Background "ann@example.com" db'
      = (db', Ok (mkUser 1 "ann@example.com" 10 20)).
Proof.
  exists (Update context.Background (mkUser 1 "ann@example.com" 0 0) one_user).1.
  refine (proj1 (proj2 (Update_then_lookup context.Background
            (mkUser 1 "ann@example.com" 0 0) one_user _ _ eq_refl _))).
  vm_compute. reflexivity.
Defined.

(** X22. Under a live context, [Update] of a stored user to an email the
    column accepts but a row with another identifier holds fails on the
    unique constraint of [email], with the error wrapped with [failed to
    update user], and leaves the database as it was; [Update] to the email
    the user's own row holds succeeds. *)
Theorem Update_conflict ctx user db :
  context.Err ctx = None →
  ID user ∈ ids db →
  (String.length (Email user) ≤ 255)%nat →
  (∀ other, other ∈ users db → ID other ≠ ID user →
     Email other = Email user →
     Update ctx user db =
       (db, Err (Errorf_w "failed to update user"
                   (duplicate_key "users_email_key")))) ∧
  (NoDup (emails db) →
   ∀ own, own ∈ users db → ID own = ID user → Email own = Email user →
     ∃ db' updated, Update ctx user db = (db', Ok updated) ∧
                    Email updated = Email own ∧ ID updated = ID own).
Proof.
  intros Hctx Hid Hlen.
  assert (Hhit : filter (λ u, ID u = ID user) (users db) ≠ []).
  { apply list_elem_of_fmap in Hid as (u & Hu & Hin).
    intros Hnil.
    assert (Hin' : u ∈ filter (λ u, ID u = ID user) (users db))
      by (by apply list_elem_of_filter).
    rewrite Hnil in Hin'. by apply elem_of_nil in Hin'. }
  split.
  - intros other Hother Hne Hemail.
    rewrite Update_encoded by auto. unfold update_user.
    destruct (filter (λ u, ID u = ID user) (users db)) as [| old rest];
      [done |].
    rewrite decide_False by lia.
    rewrite decide_True; [reflexivity |].
    apply Exists_exists. by exists other.
  - intros Hemails own Hown Hownid Hownemail.
    rewrite Update_encoded by auto. unfold update_user.
    destruct (filter (λ u, ID u = ID user) (users db)) as [| old rest] eqn:Hf;
      [done |].
    rewrite decide_False by lia.
    rewrite decide_False.
    + rewrite fmap_cons. do 2 eexists. split; [reflexivity |].
      assert (Hold : ID old = ID user).
      { assert (Hin : old ∈ filter (λ u, ID u = ID user) (users db))
          by (rewrite Hf; left).
        by apply list_elem_of_filter in Hin as [? _]. }
      rewrite decide_True by exact Hold. cbn. split; congruence.
    + intros Hex. apply Exists_exists in Hex as (other & Hother & Hne & Heq).
      assert (other = own); [| congruence].
      unfold emails in Hemails.
      eapply (NoDup_fmap_same Email); eauto. congruence.
Qed.

(** The X22 theorem at [three_users]: user 1 cannot take the email of
    user 2. *)
Lemma Update_conflict_witness :
  Update context.Background (mkUser 1 "b@example.org" 0 0) three_users =
    (three_users,
     Err (Errorf_w "failed to update user" (duplicate_key "users_email_key"))).
Proof.
  refine (proj1 (Update_conflict context.Background
                   (mkUser 1 "b@example.org" 0 0) three_users eq_refl _ _)
            userB _ _ _).
  - by_compute.
  - by_compute.
  - by_compute.
  - by_compute.
  - reflexivity.
Defined.

(** X23. Under a live context [Delete] of an identifier in the range of
    [int4] succeeds and leaves every row with another identifier where
    it was: [GetByID] of another identifier answers after it as before,
    and the sequence is left alone, so that a [Create] that follows never
    hands out an identifier the table held before the [Delete]. *)
Theorem Delete_frame ctx id db :
  context.Err ctx = None → int4 id →
  ∃ db',
    Delete ctx id db = (db', None) ∧
    (∀ id', id' ≠ id →
       GetByID ctx id' db' = (db', (GetByID ctx id' db).2)) ∧
    (∀ u, u ∈ users db' ↔ u ∈ users db ∧ ID u ≠ id) ∧
    (seq_ahead db →
     ∀ user db'' created,
       Create ctx user db' = (db'', Ok created) → ID created ∉ ids db).
Proof.
  intros Hctx Hrange. unfold_calls. rewrite Hctx.
  rewrite int4_arg_in_range by exact Hrange. unfold delete_user.
  eexists. split; [reflexivity |]. split; [| split].
  - intros id' Hne.
    assert (Hiff : id' ∈ ids {| users := filter (λ u, ID u ≠ id) (users db);
                                users_id_seq := users_id_seq db;
                                now := now db |} ↔ id' ∈ ids db).
    { unfold ids. cbn [users]. rewrite !list_elem_of_fmap.
      split; intros (u & -> & Hu); exists u; (split; [done |]).
      - apply list_elem_of_filter in Hu. tauto.
      - apply list_elem_of_filter. split; [congruence | done]. }
    unfold pgxpool.int4_arg.
    destruct (decide (int4 id' ∨ id' ∈ ids db)) as [Hin | Hout].
    + rewrite decide_True by tauto. unfold select_by_id. cbn [users snd].
      rewrite list_filter_filter_l by (intros u; cbn; congruence).
      by destruct (filter (λ u, ID u = id') (users db)).
    + rewrite decide_False by tauto. reflexivity.
  - intros u. cbn [users]. rewrite list_elem_of_filter. tauto.
  - intros Hahead user db'' created. unfold insert_user.
    cbn [users users_id_seq now].
    repeat case_decide; intros [= <- <-]. cbn [ID].
    by apply seq_ahead_fresh.
Qed.

(** The X23 theorem at [three_users]: user 3 is read after the deletion
    of user 2 as before. *)
Lemma Delete_frame_witness :
  ∃ db',
    Delete context.Background 2 three_users = (db', None) ∧
    GetByID context.Background 3 db' = (db', Ok userC).
Proof.
  destruct (Delete_frame context.Background 2 three_users eq_refl)
    as (db' & Hdel & Hget & _); [by_compute |].
  exists db'. split; [exact Hdel |]. rewrite (Hget 3%Z) by lia. reflexivity.
Defined.

(** X24. Under a live context, the page of [limit2] rows that follows a
    page of [limit1] rows at [offset] continues it, whatever the server
    prefers among rows created at the same time in each of the queries:
    the creation times of the two pages are, one after the other, those
    of the page of [limit1 + limit2] rows at [offset], and when no two
    rows were created at the same time the two pages are together that
    page.  A negative limit or offset makes [List] fail with the
    server's error, which [rows.Err()] returns and [List] wraps with
    [rows error]. *)
Theorem List_pages tie1 tie2 tie ctx limit1 limit2 offset db :
  context.Err ctx = None →
  ((0 ≤ limit1)%Z → (0 ≤ limit2)%Z → (0 ≤ offset)%Z →
   ∃ page1 page2 page,
     List tie1 ctx limit1 offset db = (db, Ok page1) ∧
     List tie2 ctx limit2 (offset + limit1) db = (db, Ok page2) ∧
     List tie ctx (limit1 + limit2) offset db = (db, Ok page) ∧
     CreatedAt <$> (page1 ++ page2) = CreatedAt <$> page ∧
     (NoDup (CreatedAt <$> users db) → page1 ++ page2 = page)) ∧
  ((limit1 < 0)%Z ∨ (offset < 0)%Z →
   ∃ code msg,
     List tie ctx limit1 offset db =
       (db, Err (Errorf_w "rows error" (PgError code msg))) ∧
     errors_Is (Errorf_w "rows error" (PgError code msg)) (PgError code msg)
       = true).
Proof.
  intros Hctx. split.
  - intros Hl1 Hl2 Hoff.
    pose proof (order_by_created_desc_ok tie1 (users db)) as Ho1.
    pose proof (order_by_created_desc_ok tie2 (users db)) as Ho2.
    pose proof (order_by_created_desc_ok tie (users db)) as Ho.
    rewrite !List_live by exact Hctx. unfold select_page.
    rewrite !(decide_False (P := (_ < 0)%Z)) by lia.
    do 3 eexists. do 3 (split; [reflexivity |]).
    assert (Hcat : ∀ l : list Z,
      take (Z.to_nat limit1) (drop (Z.to_nat offset) l) ++
      take (Z.to_nat limit2) (drop (Z.to_nat (offset + limit1)) l) =
      take (Z.to_nat (limit1 + limit2)) (drop (Z.to_nat offset) l)).
    { intros l. rewrite !Z2Nat.inj_add by lia. rewrite <- drop_drop.
      apply take_take_drop. }
    assert (Hcat' : ∀ l : list User,
      take (Z.to_nat limit1) (drop (Z.to_nat offset) l) ++
      take (Z.to_nat limit2) (drop (Z.to_nat (offset + limit1)) l) =
      take (Z.to_nat (limit1 + limit2)) (drop (Z.to_nat offset) l)).
    { intros l. rewrite !Z2Nat.inj_add by lia. rewrite <- drop_drop.
      apply take_take_drop. }
    split.
    + rewrite fmap_app, !fmap_take, !fmap_drop.
      rewrite (ordered_created_unique _ _ _ Ho1 Ho),
        (ordered_created_unique _ _ _ Ho2 Ho).
      apply Hcat.
    + intros Hnd.
      rewrite (ordered_unique _ _ _ Hnd Ho1 Ho),
        (ordered_unique _ _ _ Hnd Ho2 Ho).
      apply Hcat'.
  - intros Hneg. rewrite List_live by exact Hctx. unfold select_page.
    destruct (decide (offset < 0)%Z).
    { do 2 eexists. split; [reflexivity | apply errors_Is_Errorf_w]. }
    rewrite decide_True by lia.
    do 2 eexists. split; [reflexivity | apply errors_Is_Errorf_w].
Qed.

(** The X24 theorem at [three_users] with pages of two rows. *)
Lemma List_pages_witness :
  ∃ page1 page2,
    List no_preference context.Background 2 0 three_users
      = (three_users, Ok page1) ∧
    List no_preference context.Background 2 2 three_users
      = (three_users, Ok page2) ∧
    page1 ++ page2 = [userC; userB; userA].
Proof.
  destruct (proj1 (List_pages no_preference no_preference no_preference
                     context.Background 2 2 0 three_users eq_refl))
    as (page1 & page2 & page & H1 & H2 & H12 & _ & Hall);
    [lia | lia | lia |].
  exists page1, page2. split; [exact H1 |]. split; [exact H2 |].
  rewrite Hall by by_compute.
  assert (Hpage : (three_users, Ok page) =
                  (three_users, @Ok (list User) [userC; userB; userA])).
  { rewrite <- H12. vm_compute. reflexivity. }
  by injection Hpage.
Defined.

Lemma filter_fmap_nil {T K} `{EqDecision K} (f : T → K) k (l : list T) :
  k ∉ f <$> l → filter (λ x, f x = k) l = [].
Proof.
  intros Hk. induction l as [| z l IH]; [reflexivity |].
  rewrite fmap_cons, not_elem_of_cons in Hk. destruct Hk as [Hne Hk].
  rewrite filter_cons. destruct (decide (f z = k)); [congruence | auto].
Qed.

Lemma filter_NoDup_fmap {T K} `{EqDecision K} (f : T → K) (l : list T) u :
  NoDup (f <$> l) → u ∈ l → filter (λ x, f x = f u) l = [u].
Proof.
  induction l as [| z l IH]; intros Hnd Hu.
  - by apply elem_of_nil in Hu.
  - rewrite fmap_cons in Hnd. apply NoDup_cons in Hnd as [Hz Hnd].
    rewrite filter_cons. apply elem_of_cons in Hu as [-> | Hu].
    + rewrite decide_True by reflexivity.
      by rewrite filter_fmap_nil by exact Hz.
    + rewrite decide_False; [by apply IH |].
      intros Heq. apply Hz. rewrite Heq. by apply list_elem_of_fmap_2.
Qed.

(** X25. Under a live context the lookups read the table and nothing
    else: what [GetByID] or [GetByEmail] returns is a stored row with the
    identifier or email asked for, and in a table whose identifiers and
    emails are unique every stored row is what [GetByID] of its identifier
    and [GetByEmail] of its email return. *)
Theorem lookup_stored ctx db :
  context.Err ctx = None →
  (∀ id db' u, GetByID ctx id db = (db', Ok u) →
     db' = db ∧ u ∈ users db ∧ ID u = id) ∧
  (∀ email db' u, GetByEmail ctx email db = (db', Ok u) →
     db' = db ∧ u ∈ users db ∧ Email u = email) ∧
  (schema_ok db →
   ∀ u, u ∈ users db →
     GetByID ctx (ID u) db = (db, Ok u) ∧
     GetByEmail ctx (Email u) db = (db, Ok u)).
Proof.
  intros Hctx. split; [| split].
  - intros id db' u. unfold_calls. rewrite Hctx. unfold pgxpool.int4_arg.
    case_decide; [| intros [=]]. unfold select_by_id.
    destruct (filter (λ u, ID u = id) (users db)) as [| row rows] eqn:Hf;
      intros [= <- <-].
    assert (Hin : row ∈ filter (λ u, ID u = id) (users db))
      by (rewrite Hf; left).
    apply list_elem_of_filter in Hin. tauto.
  - intros email db' u. unfold_calls. rewrite Hctx. unfold select_by_email.
    destruct (filter (λ u, Email u = email) (users db)) as [| row rows] eqn:Hf;
      intros [= <- <-].
    assert (Hin : row ∈ filter (λ u, Email u = email) (users db))
      by (rewrite Hf; left).
    apply list_elem_of_filter in Hin. tauto.
  - intros [Hids Hemails] u Hu. unfold_calls. rewrite Hctx.
    rewrite int4_arg_stored by (by apply list_elem_of_fmap_2).
    unfold select_by_id, select_by_email, ids, emails in *.
    by rewrite (filter_NoDup_fmap ID), (filter_NoDup_fmap Email).
Qed.

(** The X25 theorem at user B of [three_users]. *)
Lemma lookup_stored_witness :
  GetByEmail context.Background "b@example.org" three_users =
    (three_users, Ok userB).
Proof.
  refine (proj2 (proj2 (proj2 (lookup_stored context.Background three_users
                                 eq_refl)) _ userB _)).
  - split; by_compute.
  - by_compute.
Defined.

Lemma after_well_formed c db :
  history.well_formed db → history.well_formed (history.after c db).
Proof.
  intros (Hok & Hrows & Hseq & Hpos).
  pose proof (repository_table_ok no_preference) as Htable.
  pose proof (repository_rows_not_future) as Hfuture.
  set (positive := λ db' : DB,
         (1 ≤ users_id_seq db')%Z ∧ ∀ u, u ∈ users db' → (1 ≤ ID u)%Z).
  assert (Hdb : positive db) by done.
  destruct c as [ctx user | ctx id | ctx email | ctx user | ctx id
                 | tie ctx limit offset | d]; cbn [history.after].
  - refine (conj (proj1 (Htable ctx user 0%Z "" 0%Z 0%Z db Hok))
              (conj (proj1 (Hfuture ctx user 0%Z db Hrows)) _)).
    rewrite Create_db, QueryRow_db.
    destruct (context.Err ctx); [done |]. unfold insert_user.
    repeat case_decide; cbn [fst users users_id_seq]; split; try lia;
      try done.
    intros u Hu. apply elem_of_app in Hu as [Hu | Hu]; [by apply Hpos |].
    apply list_elem_of_singleton in Hu as ->. cbn. lia.
  - destruct (Htable ctx (mkUser 0 "" 0 0) id "" 0%Z 0%Z db Hok)
      as (_ & _ & _ & -> & _). done.
  - destruct (Htable ctx (mkUser 0 "" 0 0) 0%Z email 0%Z 0%Z db Hok)
      as (_ & _ & _ & _ & -> & _). done.
  - refine (conj (proj1 (proj2 (Htable ctx user 0%Z "" 0%Z 0%Z db Hok)))
              (conj (proj1 (proj2 (Hfuture ctx user 0%Z db Hrows))) _)).
    rewrite Update_db, QueryRow_db.
    destruct (context.Err ctx); [done |].
    apply (int4_arg_keeps positive); [done |]. unfold positive, update_user.
    destruct (filter _ (users db)) as [| old rest]; [done |].
    repeat case_decide; cbn [fst users users_id_seq]; split; try lia;
      try done.
    intros u' Hu'. apply list_elem_of_fmap in Hu' as (u & -> & Hu).
    apply Hpos in Hu. by case_decide.
  - refine (conj (proj1 (proj2 (proj2
              (Htable ctx (mkUser 0 "" 0 0) id "" 0%Z 0%Z db Hok))))
              (conj (proj2 (proj2
                 (Hfuture ctx (mkUser 0 "" 0 0) id db Hrows))) _)).
    rewrite Delete_db, round_trip_db.
    destruct (context.Err ctx); [done |].
    apply (int4_arg_keeps positive); [done |]. unfold positive, delete_user.
    cbn [fst users users_id_seq]. split; [lia |].
    intros u Hu. apply list_elem_of_filter in Hu as [_ Hu]. by apply Hpos.
  - destruct (repository_table_ok tie ctx (mkUser 0 "" 0 0) 0%Z ""
                limit offset db Hok)
      as (_ & _ & _ & _ & _ & ->). done.
  - destruct (tick_table (Z.of_N d) db) as (Htick & Hfut & _).
    refine (conj (Htick Hok) (conj (Hfut Hrows _) _)); [lia |]. done.
Qed.

(** After any sequence of repository calls on the migrated table every
    identifier the table holds is in the range of [int4], as the type of
    the column has it. *)
Lemma history_ids_int4 calls :
  ∀ id, id ∈ ids (history.after_all calls postgres.empty) → int4 id.
Proof.
  assert (Hinv : ∀ db,
            history.well_formed db ∧ (users_id_seq db ≤ int4_max + 1)%Z →
            history.well_formed (history.after_all calls db) ∧
            (users_id_seq (history.after_all calls db) ≤ int4_max + 1)%Z).
  { unfold history.after_all.
    induction calls as [| c calls IH]; intros db [Hwf Hmax]; [done |].
    cbn [foldl]. apply IH. split; [by apply after_well_formed |].
    destruct c as [ctx user | ctx id | ctx email | ctx user | ctx id
                   | tie ctx limit offset | d]; cbn [history.after].
    - rewrite Create_db, QueryRow_db.
      destruct (context.Err ctx); [done |]. unfold insert_user.
      repeat case_decide; cbn [fst users_id_seq]; lia.
    - destruct Hwf as (Hok & _).
      destruct (repository_table_ok no_preference ctx (mkUser 0 "" 0 0)
                  id "" 0%Z 0%Z db Hok) as (_ & _ & _ & -> & _). done.
    - destruct Hwf as (Hok & _).
      destruct (repository_table_ok no_preference ctx (mkUser 0 "" 0 0)
                  0%Z email 0%Z 0%Z db Hok) as (_ & _ & _ & _ & -> & _). done.
    - rewrite Update_db, QueryRow_db.
      destruct (context.Err ctx); [done |].
      apply (int4_arg_keeps (λ db', (users_id_seq db' ≤ int4_max + 1)%Z));
        [done |].
      pose proof (update_user_frame (ID user) (Email user) db) as Hframe.
      destruct (update_user _ _ db) as [db' r]. cbn [fst].
      destruct Hframe as (-> & _). done.
    - rewrite Delete_db, round_trip_db.
      destruct (context.Err ctx); [done |].
      by apply (int4_arg_keeps (λ db', (users_id_seq db' ≤ int4_max + 1)%Z)).
    - destruct Hwf as (Hok & _).
      destruct (repository_table_ok tie ctx (mkUser 0 "" 0 0) 0%Z ""
                  limit offset db Hok) as (_ & _ & _ & _ & _ & ->). done.
    - done. }
  destruct (Hinv postgres.empty) as [Hwf Hmax].
  { split; [| by_compute].
    refine (conj table_ok_empty (conj rows_not_future_empty _)).
    split; [done |]. intros u Hu. by apply elem_of_nil in Hu. }
  destruct Hwf as ([_ Hahead] & _ & _ & Hpos).
  intros id Hid. apply list_elem_of_fmap in Hid as (u & -> & Hu).
  specialize (Hahead u Hu). specialize (Hpos u Hu).
  unfold int4_min, int4_max in *. lia.
Qed.

Lemma well_formed_empty : history.well_formed postgres.empty.
Proof.
  refine (conj table_ok_empty (conj rows_not_future_empty _)).
  split; [done |]. intros u Hu. by apply elem_of_nil in Hu.
Qed.

(** X26. After any sequence of repository calls on the migrated table,
    whatever their arguments, contexts and outcomes and however much time
    passes between them, identifiers and emails are unique, every
    identifier is positive and below the next value of the sequence, the
    table holds fewer rows than that value, and no row was updated before
    it was created or after the present time of the server clock. *)
Theorem history_well_formed calls :
  let db := history.after_all calls postgres.empty in
  NoDup (ids db) ∧ NoDup (emails db) ∧
  (∀ u, u ∈ users db →
     (1 ≤ ID u < users_id_seq db)%Z ∧
     (CreatedAt u ≤ UpdatedAt u ≤ now db)%Z) ∧
  (Z.of_nat (length (users db)) < users_id_seq db)%Z.
Proof.
  intros db.
  assert (Hwf : history.well_formed db).
  { unfold db, history.after_all. generalize well_formed_empty.
    generalize postgres.empty. induction calls as [| c calls IH];
      intros db0 Hdb0; [exact Hdb0 |].
    cbn [foldl]. by apply IH, after_well_formed. }
  destruct Hwf as ([[Hids Hemails] Hahead] & Hrows & Hseq & Hpos).
  split; [exact Hids |]. split; [exact Hemails |]. split.
  - intros u Hu. specialize (Hahead u Hu). specialize (Hrows u Hu).
    specialize (Hpos u Hu). lia.
  - assert (Hsub : ids db ⊆+ seqZ 1 (users_id_seq db - 1)).
    { apply NoDup_submseteq; [exact Hids |]. intros id Hid.
      apply list_elem_of_fmap in Hid as (u & -> & Hu).
      specialize (Hahead u Hu). specialize (Hpos u Hu).
      apply elem_of_seqZ. lia. }
    apply submseteq_length in Hsub.
    unfold ids in Hsub. rewrite length_fmap, length_seqZ in Hsub. lia.
Qed.

End repositories_more_facts.

Section routers_more_facts.
Import routers.

Lemma matchPath_router method segs :
  http.matchPath (mux router) method segs =
    if decide (method = "GET" ∧ segs = ["health"])
    then Some healthCheckHandler
    else if decide (method = "GET" ∧ segs = ["api"; "v1"; "status"])
    then Some statusHandler
    else None.
Proof.
  rewrite router_mux. unfold http.matchPath. cbn [list_find].
  cbn [fst http.pat_method http.pat_path].
  change (http.segments "/health") with ["health"].
  change (http.segments "/api/v1/status") with ["api"; "v1"; "status"].
  repeat case_decide; try reflexivity; exfalso; naive_solver.
Qed.

Lemma matchMethodAndPath_router method path :
  http.matchMethodAndPath (mux router) method path =
    if decide ((method = "GET" ∨ method = "HEAD") ∧
               http.segments path = ["health"])
    then Some healthCheckHandler
    else if decide ((method = "GET" ∨ method = "HEAD") ∧
                    http.segments path = ["api"; "v1"; "status"])
    then Some statusHandler
    else None.
Proof.
  unfold http.matchMethodAndPath. cbv zeta. rewrite !matchPath_router.
  assert (Hget : "GET" ≠ "HEAD") by by_compute.
  assert (Hnone : EmptyString ≠ "GET") by by_compute.
  repeat case_decide; try reflexivity; exfalso; naive_solver.
Qed.

(** X27. A request in canonical form (its target is not [*], its path is
    clean or its method is CONNECT) matches a route of the router exactly
    when its method is GET or HEAD and the unescaped segments of its path
    are those of [/health] or [/api/v1/status]; it is then answered by
    the route's handler with status 200 and a body declared as JSON. *)
Theorem Router_matched req :
  http.RequestURI_star req = false →
  http.Method req = "CONNECT" ∨
    http.cleanPath (http.EscapedPath req) = http.EscapedPath req →
  (route_matches router req ↔
     (http.Method req = "GET" ∨ http.Method req = "HEAD") ∧
     registered (http.segments (http.EscapedPath req))) ∧
  (route_matches router req →
   ∃ resp,
     ServeHTTP router req = http.Written resp ∧
     resp = (if decide (http.segments (http.EscapedPath req) = ["health"])
             then healthCheckHandler req else statusHandler req) ∧
     http.StatusCode resp = 200%Z ∧ declares_json resp).
Proof.
  intros Hstar Hcanon.
  assert (Hpath : (if decide (http.Method req = "CONNECT")
                   then http.EscapedPath req
                   else http.cleanPath (http.EscapedPath req))
                  = http.EscapedPath req).
  { case_decide; [reflexivity |]. destruct Hcanon; [done | assumption]. }
  unfold route_matches, ServeHTTP, http.ServeHTTP. rewrite Hstar. cbv zeta.
  rewrite Hpath, matchMethodAndPath_router.
  rewrite (decide_False (P := http.EscapedPath req ≠ http.EscapedPath req))
    by (intros Hne; by apply Hne).
  unfold registered.
  destruct (decide ((http.Method req = "GET" ∨ http.Method req = "HEAD") ∧
                    http.segments (http.EscapedPath req) = ["health"]))
    as [[Hm Hseg] | Hno1].
  - split; [split; [tauto | by eexists] |]. intros _.
    eexists. split; [reflexivity |].
    rewrite decide_True by exact Hseg. by repeat split.
  - destruct (decide ((http.Method req = "GET" ∨ http.Method req = "HEAD") ∧
                      http.segments (http.EscapedPath req)
                        = ["api"; "v1"; "status"]))
      as [[Hm Hseg] | Hno2].
    + split; [split; [tauto | by eexists] |]. intros _.
      eexists. split; [reflexivity |].
      rewrite decide_False by (rewrite Hseg; by_compute). by repeat split.
    + split; [| by intros [h Hh]].
      split; [by intros [h Hh] | tauto].
Qed.

(** The X27 theorem at [HEAD /health]. *)
Lemma Router_matched_witness :
  ∃ resp,
    ServeHTTP router (http.mkRequest "HEAD" false true "/health")
      = http.Written resp ∧
    http.StatusCode resp = 200%Z ∧
    http.Body resp = json_object2 "status" "healthy" "service" "go-boilerplate".
Proof.
  assert (Hcanon :
    http.Method (http.mkRequest "HEAD" false true "/health") = "CONNECT" ∨
    http.cleanPath (http.EscapedPath (http.mkRequest "HEAD" false true "/health"))
      = http.EscapedPath (http.mkRequest "HEAD" false true "/health"))
    by (right; vm_compute; reflexivity).
  destruct (Router_matched (http.mkRequest "HEAD" false true "/health")
              eq_refl Hcanon) as [Hiff Hserve].
  destruct Hserve as (resp & Hresp & -> & Hcode & _).
  - apply Hiff. split; [by right |]. left. vm_compute. reflexivity.
  - eexists. split; [exact Hresp |]. split; [exact Hcode |].
    vm_compute. reflexivity.
Defined.

End routers_more_facts.

Section server_facts.

Lemma wrap64_fixed z :
  server.wrap64 z = z ↔ (- 2 ^ 63 ≤ z < 2 ^ 63)%Z.
Proof.
  unfold server.wrap64.
  change (2 ^ 64)%Z with 18446744073709551616%Z.
  change (2 ^ 63)%Z with 9223372036854775808%Z.
  split.
  - intros Heq.
    pose proof (Z.mod_pos_bound (z + 9223372036854775808)
                  18446744073709551616) as Hb.
    lia.
  - intros Hz. rewrite Z.mod_small by lia. lia.
Qed.

Lemma seconds_exact n :
  (- 2 ^ 63 ≤ n < 2 ^ 63)%Z →
  server.seconds n = (n * 1000000000)%Z ↔ (-9223372036 ≤ n ≤ 9223372036)%Z.
Proof.
  intros Hn. unfold server.seconds.
  rewrite (proj2 (wrap64_fixed n) Hn), wrap64_fixed.
  change (2 ^ 63)%Z with 9223372036854775808%Z. lia.
Qed.

(** X28. [New] listens on [:] followed by the configured port, and for
    timeouts that are 64-bit integers it sets each timeout of the server
    to the configured number of seconds exactly when that number lies
    between -9223372036 and 9223372036; beyond, the multiplication by
    [time.Second] wraps around. *)
Theorem New_timeouts cfg :
  let srv := config.Server cfg in
  let int64 n := (- 2 ^ 63 ≤ n < 2 ^ 63)%Z in
  let fits n := (-9223372036 ≤ n ≤ 9223372036)%Z in
  int64 (config.ServerConfig.ReadTimeout srv) →
  int64 (config.ServerConfig.WriteTimeout srv) →
  int64 (config.ServerConfig.IdleTimeout srv) →
  server.Addr (server.New cfg) = ":" ++ config.ServerConfig.Port srv ∧
  (server.ReadTimeout (server.New cfg)
     = (config.ServerConfig.ReadTimeout srv * 1000000000)%Z
   ↔ fits (config.ServerConfig.ReadTimeout srv)) ∧
  (server.WriteTimeout (server.New cfg)
     = (config.ServerConfig.WriteTimeout srv * 1000000000)%Z
   ↔ fits (config.ServerConfig.WriteTimeout srv)) ∧
  (server.IdleTimeout (server.New cfg)
     = (config.ServerConfig.IdleTimeout srv * 1000000000)%Z
   ↔ fits (config.ServerConfig.IdleTimeout srv)).
Proof.
  intros srv int64 fits Hr Hw Hi. unfold server.New.
  cbn [server.Addr server.ReadTimeout server.WriteTimeout server.IdleTimeout].
  split; [reflexivity |].
  split; [by apply seconds_exact |]. split; by apply seconds_exact.
Qed.

(** The X28 theorem at [local_config]: a read timeout of five seconds. *)
Lemma New_timeouts_witness :
  server.ReadTimeout (server.New local_config) = 5000000000%Z.
Proof.
  apply (proj1 (proj2 (New_timeouts local_config
                         ltac:(vm_compute; split; [discriminate | reflexivity])
                         ltac:(vm_compute; split; [discriminate | reflexivity])
                         ltac:(vm_compute; split; [discriminate | reflexivity])))).
  vm_compute. split; discriminate.
Defined.

End server_facts.
